(** * SPI NOR flash driver (src/spi_nor_flash.c): model and verification

    The driver identifies an attached SPI NOR flash chip against a static
    catalog and erases, reads and programs it through an external SPI
    transport.  The transport (chip select, byte and N-byte shifts) is not
    part of the driver; it is a parameter of the model, and everything the
    driver does on the bus is recorded as a trace of transport calls.

    Left out of the model: the diagnostics printed on the console, the
    elapsed-time and progress display, and support_snor_list, none of which
    touches the bus or a return value. *)

From Stdlib Require Import ZArith QArith String List Bool Lia.
Import ListNotations.
Open Scope Z_scope.

(** ** Machine integers

    [u8] and [u32] are the fixed-width types of types.h.  [unsigned long] is
    taken at 64 bits (LP64, the Linux hosts the tool is built for); [int] is
    32 bits, two's complement. *)

Definition u8 (x : Z) : Z := x mod 2 ^ 8.
Definition u32 (x : Z) : Z := x mod 2 ^ 32.
Definition ulong (x : Z) : Z := x mod 2 ^ 64.
Definition int (x : Z) : Z := (x + 2 ^ 31) mod 2 ^ 32 - 2 ^ 31.

(** #define min(a,b) (((a)<(b))?(a):(b)) *)
Definition min (a b : Z) : Z := if a <? b then a else b.

(** ** Constants *)

Definition FLASH_PAGESIZE : Z := 256.

Definition OPCODE_WREN : Z := 6.
Definition OPCODE_WRDI : Z := 4.
Definition OPCODE_RDSR : Z := 5.
Definition OPCODE_WRSR : Z := 1.
Definition OPCODE_READ : Z := 3.
Definition OPCODE_PP : Z := 2.
Definition OPCODE_SE : Z := 0xD8.
Definition OPCODE_RDID : Z := 0x9F.
Definition OPCODE_BE : Z := 0x60.
Definition OPCODE_BE1 : Z := 0xC7.
Definition OPCODE_BRRD : Z := 0x16.
Definition OPCODE_BRWR : Z := 0x17.

Definition SR_WIP : Z := 1.
Definition SR_WEL : Z := 2.
Definition SR_BP0 : Z := 4.
Definition SR_BP1 : Z := 8.
Definition SR_BP2 : Z := 0x10.
Definition SR_EPE : Z := 0x20.
Definition SR_SRWD : Z := 0x80.

(** ** The chip catalog *)

Record chip_info := mk_chip_info {
  name : string;
  id : Z;             (* u8 *)
  jedec_id : Z;       (* u32 *)
  sector_size : Z;    (* unsigned long *)
  n_sectors : Z;      (* unsigned int *)
  addr4b : Z;         (* char, used as a truth value *)
  vcc_min : Q;
  vcc_max : Q
}.

Definition chips_data : list chip_info :=
  mk_chip_info "FL016AIF"%string       0x01 0x02140000 (64 * 1024) 32   0 2.70%Q 3.60%Q ::
  mk_chip_info "S25FL016P"%string      0x01 0x02144d00 (64 * 1024) 32   0 2.70%Q 3.60%Q ::
  mk_chip_info "S25FL032P"%string      0x01 0x02154d00 (64 * 1024) 64   0 2.70%Q 3.60%Q ::
  mk_chip_info "FL064AIF"%string       0x01 0x02160000 (64 * 1024) 128  0 2.70%Q 3.60%Q ::
  mk_chip_info "S25FL064P"%string      0x01 0x02164d00 (64 * 1024) 128  0 2.70%Q 3.60%Q ::
  mk_chip_info "S25FL256S"%string      0x01 0x02194d01 (64 * 1024) 512  1 2.70%Q 3.60%Q ::
  mk_chip_info "S25FL128P"%string      0x01 0x20180301 (64 * 1024) 256  0 2.70%Q 3.60%Q ::
  mk_chip_info "S25FL129P"%string      0x01 0x20184d01 (64 * 1024) 256  0 2.70%Q 3.60%Q ::
  mk_chip_info "S25FL116K"%string      0x01 0x40150140 (64 * 1024) 32   0 2.70%Q 3.60%Q ::
  mk_chip_info "S25FL132K"%string      0x01 0x40160140 (64 * 1024) 64   0 2.70%Q 3.60%Q ::
  mk_chip_info "S25FL164K"%string      0x01 0x40170140 (64 * 1024) 128  0 2.70%Q 3.60%Q ::
  mk_chip_info "XT25F02E"%string       0x0b 0x40120000 (64 * 1024) 4    0 2.70%Q 3.60%Q ::
  mk_chip_info "XT25F04D"%string       0x0b 0x40130000 (64 * 1024) 8    0 2.70%Q 3.60%Q ::
  mk_chip_info "XT25F08B"%string       0x0b 0x40140000 (64 * 1024) 16   0 2.70%Q 3.60%Q ::
  mk_chip_info "XT25F16B"%string       0x0b 0x40150000 (64 * 1024) 32   0 2.70%Q 3.60%Q ::
  mk_chip_info "XT25F32F"%string       0x0b 0x40160000 (64 * 1024) 64   0 2.70%Q 3.60%Q ::
  mk_chip_info "XT25F64F"%string       0x0b 0x40170000 (64 * 1024) 128  0 2.70%Q 3.60%Q ::
  mk_chip_info "XT25F128F"%string      0x0b 0x40180000 (64 * 1024) 256  0 2.70%Q 3.60%Q ::
  mk_chip_info "XT25W02E"%string       0x0b 0x60120000 (64 * 1024) 4    0 1.65%Q 3.60%Q ::
  mk_chip_info "XT25W04D"%string       0x0b 0x60130000 (64 * 1024) 8    0 1.65%Q 3.60%Q ::
  mk_chip_info "XT25Q08D"%string       0x0b 0x60140000 (64 * 1024) 16   0 1.65%Q 2.00%Q ::
  mk_chip_info "XT25Q16D"%string       0x0b 0x60150000 (64 * 1024) 32   0 1.65%Q 2.00%Q ::
  mk_chip_info "XT25Q64D"%string       0x0b 0x60170000 (64 * 1024) 128  0 1.65%Q 2.00%Q ::
  mk_chip_info "XT25F128D"%string      0x0b 0x60180000 (64 * 1024) 256  0 1.65%Q 2.00%Q ::
  mk_chip_info "EN25B10T"%string       0x1c 0x20110000 (64 * 1024) 2    0 2.70%Q 3.60%Q ::
  mk_chip_info "EN25B20T"%string       0x1c 0x20120000 (64 * 1024) 4    0 2.70%Q 3.60%Q ::
  mk_chip_info "EN25B40T"%string       0x1c 0x20130000 (64 * 1024) 8    0 2.70%Q 3.60%Q ::
  mk_chip_info "EN25B80T"%string       0x1c 0x20140000 (64 * 1024) 16   0 2.70%Q 3.60%Q ::
  mk_chip_info "EN25B16T"%string       0x1c 0x20150000 (64 * 1024) 32   0 2.70%Q 3.60%Q ::
  mk_chip_info "EN25B32T"%string       0x1c 0x20160000 (64 * 1024) 64   0 2.70%Q 3.60%Q ::
  mk_chip_info "EN25B64T"%string       0x1c 0x20170000 (64 * 1024) 128  0 2.70%Q 3.60%Q ::
  mk_chip_info "EN25F64"%string        0x1c 0x20171c20 (64 * 1024) 128  0 2.70%Q 3.60%Q ::
  mk_chip_info "EN25Q40A"%string       0x1c 0x30130000 (64 * 1024) 8    0 2.70%Q 3.60%Q ::
  mk_chip_info "EN25Q80B"%string       0x1c 0x30140000 (64 * 1024) 16   0 2.70%Q 3.60%Q ::
  mk_chip_info "EN25Q16"%string        0x1c 0x30151c30 (64 * 1024) 32   0 2.70%Q 3.60%Q ::
  mk_chip_info "EN25Q32C"%string       0x1c 0x30160000 (64 * 1024) 64   0 2.70%Q 3.60%Q ::
  mk_chip_info "EN25Q64"%string        0x1c 0x30170000 (64 * 1024) 128  0 2.70%Q 3.60%Q ::
  mk_chip_info "EN25Q128"%string       0x1c 0x30181c30 (64 * 1024) 256  0 2.70%Q 3.60%Q ::
  mk_chip_info "EN25F10A"%string       0x1c 0x31110000 (64 * 1024) 2    0 2.70%Q 3.60%Q ::
  mk_chip_info "EN25F20A"%string       0x1c 0x31120000 (64 * 1024) 4    0 2.70%Q 3.60%Q ::
  mk_chip_info "EN25F40"%string        0x1c 0x31130000 (64 * 1024) 8    0 2.70%Q 3.60%Q ::
  mk_chip_info "EN25F80"%string        0x1c 0x31140000 (64 * 1024) 16   0 2.70%Q 3.60%Q ::
  mk_chip_info "EN25F16"%string        0x1c 0x31151c31 (64 * 1024) 32   0 2.70%Q 3.60%Q ::
  mk_chip_info "EN25F32"%string        0x1c 0x31161c30 (64 * 1024) 64   0 2.70%Q 3.60%Q ::
  mk_chip_info "EN25S10A"%string       0x1c 0x38110000 (64 * 1024) 2    0 1.65%Q 1.95%Q ::
  mk_chip_info "EN25S20A"%string       0x1c 0x38120000 (64 * 1024) 4    0 1.65%Q 1.95%Q ::
  mk_chip_info "EN25S40A"%string       0x1c 0x38130000 (64 * 1024) 8    0 1.65%Q 1.95%Q ::
  mk_chip_info "EN25S80B"%string       0x1c 0x38140000 (64 * 1024) 16   0 1.65%Q 1.95%Q ::
  mk_chip_info "EN25S16B"%string       0x1c 0x38150000 (64 * 1024) 32   0 1.65%Q 1.95%Q ::
  mk_chip_info "EN25S64A"%string       0x1c 0x38170000 (64 * 1024) 128  0 1.65%Q 1.95%Q ::
  mk_chip_info "EN25QE32A"%string      0x1c 0x41160000 (64 * 1024) 64   0 2.70%Q 3.60%Q ::
  mk_chip_info "EN25E10A"%string       0x1c 0x42110000 (64 * 1024) 2    0 2.70%Q 3.60%Q ::
  mk_chip_info "EN25E40A"%string       0x1c 0x42130000 (64 * 1024) 4    0 2.70%Q 3.60%Q ::
  mk_chip_info "EN25SE16A"%string      0x1c 0x48150000 (64 * 1024) 32   0 1.65%Q 1.95%Q ::
  mk_chip_info "EN25SE32A"%string      0x1c 0x48160000 (64 * 1024) 64   0 1.65%Q 1.95%Q ::
  mk_chip_info "EN25T80"%string        0x1c 0x51140000 (64 * 1024) 16   0 2.70%Q 3.60%Q ::
  mk_chip_info "EN25QA32B"%string      0x1c 0x60160000 (64 * 1024) 64   0 2.70%Q 3.60%Q ::
  mk_chip_info "EN25QA64A"%string      0x1c 0x60170000 (64 * 1024) 128  0 2.70%Q 3.60%Q ::
  mk_chip_info "EN25QA128A"%string     0x1c 0x60180000 (64 * 1024) 256  0 2.70%Q 3.60%Q ::
  mk_chip_info "EN25QW16A"%string      0x1c 0x61150000 (64 * 1024) 32   0 2.70%Q 3.60%Q ::
  mk_chip_info "EN25QW32A"%string      0x1c 0x61160000 (64 * 1024) 64   0 2.70%Q 3.60%Q ::
  mk_chip_info "EN25QH16"%string       0x1c 0x70151c70 (64 * 1024) 32   0 2.70%Q 3.60%Q ::
  mk_chip_info "EN25QH32B"%string      0x1c 0x70160000 (64 * 1024) 64   0 2.70%Q 3.60%Q ::
  mk_chip_info "EN25QH64A"%string      0x1c 0x70171c70 (64 * 1024) 128  0 2.70%Q 3.60%Q ::
  mk_chip_info "EN25QH128A"%string     0x1c 0x70181c70 (64 * 1024) 256  0 2.70%Q 3.60%Q ::
  mk_chip_info "EN25Q256"%string       0x1c 0x70191c70 (64 * 1024) 512  1 2.70%Q 3.60%Q ::
  mk_chip_info "EN25QX64A"%string      0x1c 0x71170000 (64 * 1024) 128  0 2.70%Q 3.60%Q ::
  mk_chip_info "EN25QX128A"%string     0x1c 0x71180000 (64 * 1024) 256  0 2.70%Q 3.60%Q ::
  mk_chip_info "EN25QX256A"%string     0x1c 0x71190000 (64 * 1024) 512  1 2.70%Q 3.60%Q ::
  mk_chip_info "EN25QY256A"%string     0x1c 0x73190000 (64 * 1024) 512  1 2.70%Q 3.60%Q ::
  mk_chip_info "EN25SX64A"%string      0x1c 0x78170000 (64 * 1024) 128  0 1.65%Q 1.95%Q ::
  mk_chip_info "EN25SX128A"%string     0x1c 0x78180000 (64 * 1024) 256  0 1.65%Q 1.95%Q ::
  mk_chip_info "AT26DF161"%string      0x1f 0x46000000 (64 * 1024) 32   0 2.70%Q 3.60%Q ::
  mk_chip_info "AT25DF321"%string      0x1f 0x47000000 (64 * 1024) 64   0 2.70%Q 3.60%Q ::
  mk_chip_info "M25P10"%string         0x20 0x20110000 (64 * 1024) 2    0 2.30%Q 3.60%Q ::
  mk_chip_info "M25P20"%string         0x20 0x20120000 (64 * 1024) 4    0 2.30%Q 3.60%Q ::
  mk_chip_info "M25P40"%string         0x20 0x20130000 (64 * 1024) 8    0 2.30%Q 3.60%Q ::
  mk_chip_info "M25P80"%string         0x20 0x20140000 (64 * 1024) 16   0 2.70%Q 3.60%Q ::
  mk_chip_info "M25P016"%string        0x20 0x20150000 (64 * 1024) 32   0 2.70%Q 3.60%Q ::
  mk_chip_info "M25P32"%string         0x20 0x20160000 (64 * 1024) 64   0 2.70%Q 3.60%Q ::
  mk_chip_info "M25P64"%string         0x20 0x20170000 (64 * 1024) 128  0 2.70%Q 3.60%Q ::
  mk_chip_info "M25P128"%string        0x20 0x20180000 (64 * 1024) 256  0 2.70%Q 3.60%Q ::
  mk_chip_info "XM25QH10B"%string      0x20 0x40110000 (64 * 1024) 2    0 2.70%Q 3.60%Q ::
  mk_chip_info "XM25QH20B"%string      0x20 0x40120000 (64 * 1024) 4    0 2.70%Q 3.60%Q ::
  mk_chip_info "XM25QH40B"%string      0x20 0x40130000 (64 * 1024) 8    0 2.70%Q 3.60%Q ::
  mk_chip_info "XM25QH80B"%string      0x20 0x40140000 (64 * 1024) 16   0 2.70%Q 3.60%Q ::
  mk_chip_info "XM25QH16C"%string      0x20 0x40150000 (64 * 1024) 32   0 2.30%Q 3.60%Q ::
  mk_chip_info "XM25QH32B"%string      0x20 0x40160000 (64 * 1024) 64   0 2.70%Q 3.60%Q ::
  mk_chip_info "XM25QH64C"%string      0x20 0x40170000 (64 * 1024) 128  0 2.30%Q 3.60%Q ::
  mk_chip_info "XM25QH128C"%string     0x20 0x40182070 (64 * 1024) 256  0 2.30%Q 3.60%Q ::
  mk_chip_info "XM25QH256C"%string     0x20 0x40190000 (64 * 1024) 512  1 2.30%Q 3.60%Q ::
  mk_chip_info "XM25QH512C"%string     0x20 0x40200000 (64 * 1024) 1024 1 2.30%Q 3.60%Q ::
  mk_chip_info "XM25LU64C"%string      0x20 0x41170000 (64 * 1024) 128  0 1.65%Q 1.95%Q ::
  mk_chip_info "XM25LU128C"%string     0x20 0x41180000 (64 * 1024) 256  0 1.65%Q 1.95%Q ::
  mk_chip_info "XM25QU256C"%string     0x20 0x41190000 (64 * 1024) 512  1 1.65%Q 1.95%Q ::
  mk_chip_info "XM25QU512C"%string     0x20 0x41200000 (64 * 1024) 1024 1 1.65%Q 1.95%Q ::
  mk_chip_info "XM25QW16C"%string      0x20 0x42150000 (64 * 1024) 32   0 1.65%Q 3.60%Q ::
  mk_chip_info "XM25QW32C"%string      0x20 0x42160000 (64 * 1024) 64   0 1.65%Q 3.60%Q ::
  mk_chip_info "XM25QW64C"%string      0x20 0x42170000 (64 * 1024) 128  0 1.65%Q 3.60%Q ::
  mk_chip_info "XM25QW128C"%string     0x20 0x42180000 (64 * 1024) 256  0 1.65%Q 3.60%Q ::
  mk_chip_info "XM25QW256C"%string     0x20 0x42190000 (64 * 1024) 512  1 1.65%Q 3.60%Q ::
  mk_chip_info "XM25QW512C"%string     0x20 0x42200000 (64 * 1024) 1024 1 1.65%Q 3.60%Q ::
  mk_chip_info "XM25QU41B"%string      0x20 0x50130000 (64 * 1024) 8    0 1.65%Q 1.95%Q ::
  mk_chip_info "XM25QU80B"%string      0x20 0x50140000 (64 * 1024) 16   0 1.65%Q 1.95%Q ::
  mk_chip_info "XM25QU16C"%string      0x20 0x50150000 (64 * 1024) 32   0 1.65%Q 1.95%Q ::
  mk_chip_info "XM25LU32C"%string      0x20 0x50160000 (64 * 1024) 64   0 1.65%Q 1.95%Q ::
  mk_chip_info "XM25QH32A"%string      0x20 0x70160000 (64 * 1024) 64   0 2.70%Q 3.60%Q ::
  mk_chip_info "XM25QH64A"%string      0x20 0x70170000 (64 * 1024) 128  0 2.70%Q 3.60%Q ::
  mk_chip_info "XM25QH128A"%string     0x20 0x70182070 (64 * 1024) 256  0 2.70%Q 3.60%Q ::
  mk_chip_info "N25Q032A"%string       0x20 0xba160000 (64 * 1024) 64   0 2.70%Q 3.60%Q ::
  mk_chip_info "N25Q064A"%string       0x20 0xba170000 (64 * 1024) 128  0 2.70%Q 3.60%Q ::
  mk_chip_info "MT25QL64AB"%string     0x20 0xba170000 (64 * 1024) 128  0 2.70%Q 3.60%Q ::
  mk_chip_info "N25Q128A"%string       0x20 0xba180000 (64 * 1024) 256  0 2.70%Q 3.60%Q ::
  mk_chip_info "MT25QL128AB"%string    0x20 0xba180000 (64 * 1024) 256  0 2.70%Q 3.60%Q ::
  mk_chip_info "N25Q256A"%string       0x20 0xba190000 (64 * 1024) 512  1 2.70%Q 3.60%Q ::
  mk_chip_info "MT25QL256AB"%string    0x20 0xba190000 (64 * 1024) 512  1 2.70%Q 3.60%Q ::
  mk_chip_info "MT25QL512AB"%string    0x20 0xba200000 (64 * 1024) 1024 1 2.70%Q 3.60%Q ::
  mk_chip_info "N25Q032A"%string       0x20 0xbb160000 (64 * 1024) 64   0 1.70%Q 2.00%Q ::
  mk_chip_info "N25Q064A"%string       0x20 0xbb170000 (64 * 1024) 128  0 1.70%Q 2.00%Q ::
  mk_chip_info "MT25QU64AB"%string     0x20 0xbb170000 (64 * 1024) 128  0 1.70%Q 2.00%Q ::
  mk_chip_info "N25Q128A"%string       0x20 0xbb180000 (64 * 1024) 256  0 1.70%Q 2.00%Q ::
  mk_chip_info "MT25QU128AB"%string    0x20 0xbb180000 (64 * 1024) 256  0 1.70%Q 2.00%Q ::
  mk_chip_info "MT25QU256AB"%string    0x20 0xbb190000 (64 * 1024) 512  1 1.70%Q 2.00%Q ::
  mk_chip_info "MT25QU512AB"%string    0x20 0xbb200000 (64 * 1024) 1024 1 1.70%Q 2.00%Q ::
  mk_chip_info "A25L10PU"%string       0x37 0x20110000 (64 * 1024) 2    0 2.70%Q 3.60%Q ::
  mk_chip_info "A25L20PU"%string       0x37 0x20120000 (64 * 1024) 4    0 2.70%Q 3.60%Q ::
  mk_chip_info "A25L40PU"%string       0x37 0x20120000 (64 * 1024) 8    0 2.70%Q 3.60%Q ::
  mk_chip_info "A25L80PU"%string       0x37 0x20140000 (64 * 1024) 16   0 2.70%Q 3.60%Q ::
  mk_chip_info "A25L16PU"%string       0x37 0x20150000 (64 * 1024) 32   0 2.70%Q 3.60%Q ::
  mk_chip_info "A25L10PT"%string       0x37 0x20210000 (64 * 1024) 2    0 2.70%Q 3.60%Q ::
  mk_chip_info "A25L20PT"%string       0x37 0x20220000 (64 * 1024) 4    0 2.70%Q 3.60%Q ::
  mk_chip_info "A25L40PT"%string       0x37 0x20220000 (64 * 1024) 8    0 2.70%Q 3.60%Q ::
  mk_chip_info "A25L80PT"%string       0x37 0x20240000 (64 * 1024) 16   0 2.70%Q 3.60%Q ::
  mk_chip_info "A25L16PT"%string       0x37 0x20250000 (64 * 1024) 32   0 2.70%Q 3.60%Q ::
  mk_chip_info "A25L010"%string        0x37 0x30110000 (64 * 1024) 2    0 2.70%Q 3.60%Q ::
  mk_chip_info "A25L020"%string        0x37 0x30120000 (64 * 1024) 4    0 2.70%Q 3.60%Q ::
  mk_chip_info "A25L040"%string        0x37 0x30130000 (64 * 1024) 8    0 2.70%Q 3.60%Q ::
  mk_chip_info "A25L040"%string        0x37 0x30130000 (64 * 1024) 8    0 2.70%Q 3.60%Q ::
  mk_chip_info "A25L080"%string        0x37 0x30140000 (64 * 1024) 16   0 2.70%Q 3.60%Q ::
  mk_chip_info "A25L016"%string        0x37 0x30150000 (64 * 1024) 32   0 2.70%Q 3.60%Q ::
  mk_chip_info "A25L032"%string        0x37 0x30160000 (64 * 1024) 64   0 2.70%Q 3.60%Q ::
  mk_chip_info "A25LQ080"%string       0x37 0x40140000 (64 * 1024) 16   0 2.70%Q 3.60%Q ::
  mk_chip_info "A25LQ16"%string        0x37 0x40150000 (64 * 1024) 32   0 2.70%Q 3.60%Q ::
  mk_chip_info "A25LQ32"%string        0x37 0x40160000 (64 * 1024) 64   0 2.70%Q 3.60%Q ::
  mk_chip_info "A25LQ64"%string        0x37 0x40170000 (64 * 1024) 128  0 2.70%Q 3.60%Q ::
  mk_chip_info "ES25P10"%string        0x4a 0x20110000 (64 * 1024) 4    0 2.70%Q 3.60%Q ::
  mk_chip_info "ES25P20"%string        0x4a 0x20120000 (64 * 1024) 8    0 2.70%Q 3.60%Q ::
  mk_chip_info "ES25P40"%string        0x4a 0x20130000 (64 * 1024) 16   0 2.70%Q 3.60%Q ::
  mk_chip_info "ES25P80"%string        0x4a 0x20140000 (64 * 1024) 32   0 2.70%Q 3.60%Q ::
  mk_chip_info "ES25P16"%string        0x4a 0x20150000 (64 * 1024) 64   0 2.70%Q 3.60%Q ::
  mk_chip_info "ES25P32"%string        0x4a 0x20160000 (64 * 1024) 128  0 2.70%Q 3.60%Q ::
  mk_chip_info "ES25M40A"%string       0x4a 0x32130000 (64 * 1024) 16   0 2.70%Q 3.60%Q ::
  mk_chip_info "ES25M80A"%string       0x4a 0x32140000 (64 * 1024) 32   0 2.70%Q 3.60%Q ::
  mk_chip_info "ES25M16A"%string       0x4a 0x32150000 (64 * 1024) 64   0 2.70%Q 3.60%Q ::
  mk_chip_info "DQ25Q64AS"%string      0x54 0x40170000 (64 * 1024) 128  0 2.70%Q 3.60%Q ::
  mk_chip_info "ZB25LD10A"%string      0x5e 0x10110000 (64 * 1024) 2    0 1.65%Q 1.95%Q ::
  mk_chip_info "ZB25LD20A"%string      0x5e 0x10120000 (64 * 1024) 4    0 1.65%Q 1.95%Q ::
  mk_chip_info "ZB25LD40B"%string      0x5e 0x10130000 (64 * 1024) 8    0 1.65%Q 1.95%Q ::
  mk_chip_info "ZB25LD80"%string       0x5e 0x10140000 (64 * 1024) 16   0 1.65%Q 1.95%Q ::
  mk_chip_info "ZB25D10A"%string       0x5e 0x32110000 (64 * 1024) 2    0 2.70%Q 3.60%Q ::
  mk_chip_info "ZB25D20A"%string       0x5e 0x32120000 (64 * 1024) 4    0 2.70%Q 3.60%Q ::
  mk_chip_info "ZB25D40B"%string       0x5e 0x32130000 (64 * 1024) 8    0 2.70%Q 3.60%Q ::
  mk_chip_info "ZB25D80B"%string       0x5e 0x32140000 (64 * 1024) 16   0 2.70%Q 3.60%Q ::
  mk_chip_info "ZB25VQ16"%string       0x5e 0x40150000 (64 * 1024) 32   0 2.30%Q 3.60%Q ::
  mk_chip_info "ZB25VQ32"%string       0x5e 0x40160000 (64 * 1024) 64   0 2.30%Q 3.60%Q ::
  mk_chip_info "ZB25VQ64"%string       0x5e 0x40170000 (64 * 1024) 128  0 2.30%Q 3.60%Q ::
  mk_chip_info "ZB25VQ128"%string      0x5e 0x40180000 (64 * 1024) 256  0 2.30%Q 3.60%Q ::
  mk_chip_info "ZB25LQ16"%string       0x5e 0x50150000 (64 * 1024) 32   0 1.65%Q 1.95%Q ::
  mk_chip_info "ZB25LQ32"%string       0x5e 0x50160000 (64 * 1024) 64   0 1.65%Q 1.95%Q ::
  mk_chip_info "ZB25LQ64"%string       0x5e 0x50170000 (64 * 1024) 128  0 1.65%Q 1.95%Q ::
  mk_chip_info "ZB25LQ128"%string      0x5e 0x50180000 (64 * 1024) 256  0 1.65%Q 1.95%Q ::
  mk_chip_info "ZB25VQ20A"%string      0x5e 0x60120000 (64 * 1024) 4    0 2.70%Q 3.60%Q ::
  mk_chip_info "ZB25VQ40A"%string      0x5e 0x60130000 (64 * 1024) 8    0 2.70%Q 3.60%Q ::
  mk_chip_info "ZB25VQ80A"%string      0x5e 0x60140000 (64 * 1024) 16   0 2.70%Q 3.60%Q ::
  mk_chip_info "ZB25VQ16A"%string      0x5e 0x60150000 (64 * 1024) 32   0 2.70%Q 3.60%Q ::
  mk_chip_info "LE25U20AMB"%string     0x62 0x06120000 (64 * 1024) 4    0 2.30%Q 3.60%Q ::
  mk_chip_info "LE25U40CMC"%string     0x62 0x06130000 (64 * 1024) 8    0 2.30%Q 3.60%Q ::
  mk_chip_info "BY25Q05AW"%string      0x68 0x10100000 (64 * 1024) 1    0 1.65%Q 3.60%Q ::
  mk_chip_info "BY25Q10AW"%string      0x68 0x10110000 (64 * 1024) 2    0 1.65%Q 3.60%Q ::
  mk_chip_info "BY25Q20BL"%string      0x68 0x10120000 (64 * 1024) 4    0 1.65%Q 2.00%Q ::
  mk_chip_info "BY25Q40BL"%string      0x68 0x10130000 (64 * 1024) 8    0 1.65%Q 2.10%Q ::
  mk_chip_info "BY25Q80AW"%string      0x68 0x10140000 (64 * 1024) 16   0 1.65%Q 2.00%Q ::
  mk_chip_info "BY25Q16BL"%string      0x68 0x10150000 (64 * 1024) 32   0 1.65%Q 2.00%Q ::
  mk_chip_info "BY25D05AS"%string      0x68 0x40100000 (64 * 1024) 1    0 2.70%Q 3.60%Q ::
  mk_chip_info "BY25D10AS"%string      0x68 0x40110000 (64 * 1024) 2    0 2.70%Q 3.60%Q ::
  mk_chip_info "BY25D20AS"%string      0x68 0x40120000 (64 * 1024) 4    0 2.70%Q 3.60%Q ::
  mk_chip_info "BY25D40AS"%string      0x68 0x40130000 (64 * 1024) 8    0 2.70%Q 3.60%Q ::
  mk_chip_info "BY25Q80BS"%string      0x68 0x40140000 (64 * 1024) 16   0 2.70%Q 3.60%Q ::
  mk_chip_info "BY25Q16BS"%string      0x68 0x40150000 (64 * 1024) 32   0 2.70%Q 3.60%Q ::
  mk_chip_info "BY25Q32BS"%string      0x68 0x40160000 (64 * 1024) 64   0 2.70%Q 3.60%Q ::
  mk_chip_info "BY25Q64AS"%string      0x68 0x40170000 (64 * 1024) 128  0 2.70%Q 3.60%Q ::
  mk_chip_info "BY25Q128AS"%string     0x68 0x40180000 (64 * 1024) 256  0 2.70%Q 3.60%Q ::
  mk_chip_info "BY25Q256ES"%string     0x68 0x40190000 (64 * 1024) 512  1 2.70%Q 3.60%Q ::
  mk_chip_info "BY25Q10AL"%string      0x68 0x60110000 (64 * 1024) 2    0 1.65%Q 2.00%Q ::
  mk_chip_info "BY25Q20AL"%string      0x68 0x60120000 (64 * 1024) 4    0 1.65%Q 2.00%Q ::
  mk_chip_info "BY25Q40AL"%string      0x68 0x60130000 (64 * 1024) 8    0 1.65%Q 2.00%Q ::
  mk_chip_info "BY25Q32AL"%string      0x68 0x60160000 (64 * 1024) 64   0 1.65%Q 2.00%Q ::
  mk_chip_info "BY25Q64AL"%string      0x68 0x60170000 (64 * 1024) 128  0 1.65%Q 2.00%Q ::
  mk_chip_info "BY25Q128EL"%string     0x68 0x60180000 (64 * 1024) 256  0 1.65%Q 2.00%Q ::
  mk_chip_info "Pm25LQ512B"%string     0x7f 0x9d200500 (64 * 1024) 1    0 2.70%Q 3.60%Q ::
  mk_chip_info "Pm25LQ010B"%string     0x7f 0x9d211000 (64 * 1024) 2    0 2.70%Q 3.60%Q ::
  mk_chip_info "Pm25LQ020B"%string     0x7f 0x9d421100 (64 * 1024) 4    0 2.70%Q 3.60%Q ::
  mk_chip_info "PM25LQ016"%string      0x7f 0x9d450000 (64 * 1024) 32   0 2.30%Q 3.60%Q ::
  mk_chip_info "PM25LQ032"%string      0x7f 0x9d460000 (64 * 1024) 64   0 2.30%Q 3.60%Q ::
  mk_chip_info "PM25LQ064"%string      0x7f 0x9d470000 (64 * 1024) 128  0 2.30%Q 3.60%Q ::
  mk_chip_info "PM25LQ128"%string      0x7f 0x9d480000 (64 * 1024) 256  0 2.30%Q 3.60%Q ::
  mk_chip_info "Pm25LQ040B"%string     0x7f 0x9d7e7e00 (64 * 1024) 8    0 2.70%Q 3.60%Q ::
  mk_chip_info "P25Q06H"%string        0x85 0x00100000 (64 * 1024) 1    0 2.70%Q 3.60%Q ::
  mk_chip_info "P25Q40H"%string        0x85 0x20130000 (64 * 1024) 8    0 2.70%Q 3.60%Q ::
  mk_chip_info "P25Q11H"%string        0x85 0x40110000 (64 * 1024) 2    0 2.70%Q 3.60%Q ::
  mk_chip_info "P25Q21H"%string        0x85 0x40120000 (64 * 1024) 4    0 2.70%Q 3.60%Q ::
  mk_chip_info "P25Q10H"%string        0x85 0x60110000 (64 * 1024) 2    0 2.30%Q 3.60%Q ::
  mk_chip_info "P25Q20H"%string        0x85 0x60120000 (64 * 1024) 4    0 2.30%Q 3.60%Q ::
  mk_chip_info "P25Q40H"%string        0x85 0x60130000 (64 * 1024) 8    0 2.30%Q 3.60%Q ::
  mk_chip_info "P25Q80H"%string        0x85 0x60140000 (64 * 1024) 16   0 2.70%Q 3.60%Q ::
  mk_chip_info "P25Q16H"%string        0x85 0x60150000 (64 * 1024) 32   0 2.70%Q 3.60%Q ::
  mk_chip_info "P25Q32H"%string        0x85 0x60160000 (64 * 1024) 64   0 2.70%Q 3.60%Q ::
  mk_chip_info "P25Q64H"%string        0x85 0x60170000 (64 * 1024) 128  0 2.30%Q 3.60%Q ::
  mk_chip_info "P25Q128H"%string       0x85 0x60180000 (64 * 1024) 256  0 2.30%Q 3.60%Q ::
  mk_chip_info "F25L004A"%string       0x8c 0x20130000 (64 * 1024) 8    0 2.70%Q 3.60%Q ::
  mk_chip_info "F25L008A"%string       0x8c 0x20140000 (64 * 1024) 16   0 2.70%Q 3.60%Q ::
  mk_chip_info "F25L016"%string        0x8c 0x21150000 (64 * 1024) 32   0 2.70%Q 3.60%Q ::
  mk_chip_info "F25L032"%string        0x8c 0x21160000 (64 * 1024) 64   0 2.70%Q 3.60%Q ::
  mk_chip_info "F25L064"%string        0x8c 0x21170000 (64 * 1024) 128  0 2.70%Q 3.60%Q ::
  mk_chip_info "F25L16QA"%string       0x8c 0x41158c41 (64 * 1024) 32   0 2.70%Q 3.60%Q ::
  mk_chip_info "F25L32QA"%string       0x8c 0x41168c41 (64 * 1024) 64   0 2.70%Q 3.60%Q ::
  mk_chip_info "F25L64QA"%string       0x8c 0x41170000 (64 * 1024) 128  0 2.70%Q 3.60%Q ::
  mk_chip_info "IS25LQ010"%string      0x9d 0x40110000 (64 * 1024) 2    0 2.30%Q 3.60%Q ::
  mk_chip_info "IS25LQ020"%string      0x9d 0x40120000 (64 * 1024) 4    0 2.30%Q 3.60%Q ::
  mk_chip_info "IS25LP080D"%string     0x9d 0x60140000 (64 * 1024) 16   0 2.30%Q 3.60%Q ::
  mk_chip_info "IS25LP016D"%string     0x9d 0x60150000 (64 * 1024) 32   0 2.30%Q 3.60%Q ::
  mk_chip_info "IS25LP032D"%string     0x9d 0x60160000 (64 * 1024) 64   0 2.30%Q 3.60%Q ::
  mk_chip_info "IS25LP064D"%string     0x9d 0x60170000 (64 * 1024) 128  0 2.30%Q 3.60%Q ::
  mk_chip_info "IS25LP128F"%string     0x9d 0x60180000 (64 * 1024) 256  0 2.30%Q 3.60%Q ::
  mk_chip_info "IS25LP256D"%string     0x9d 0x60190000 (64 * 1024) 512  1 2.30%Q 3.60%Q ::
  mk_chip_info "IS25LP512D"%string     0x9d 0x601a0000 (64 * 1024) 1024 1 2.30%Q 3.60%Q ::
  mk_chip_info "IS25WP040D"%string     0x9d 0x70130000 (64 * 1024) 8    0 1.65%Q 1.95%Q ::
  mk_chip_info "IS25WP080D"%string     0x9d 0x70140000 (64 * 1024) 16   0 1.65%Q 1.95%Q ::
  mk_chip_info "IS25WP016D"%string     0x9d 0x70150000 (64 * 1024) 32   0 1.65%Q 1.95%Q ::
  mk_chip_info "IS25WP032D"%string     0x9d 0x70160000 (64 * 1024) 64   0 1.65%Q 1.95%Q ::
  mk_chip_info "IS25WP064D"%string     0x9d 0x70170000 (64 * 1024) 128  0 1.65%Q 1.95%Q ::
  mk_chip_info "IS25WP128F"%string     0x9d 0x70180000 (64 * 1024) 256  0 1.65%Q 1.95%Q ::
  mk_chip_info "IS25WP256D"%string     0x9d 0x70190000 (64 * 1024) 512  1 1.65%Q 1.95%Q ::
  mk_chip_info "IS25WP512D"%string     0x9d 0x701a0000 (64 * 1024) 1024 1 1.65%Q 1.95%Q ::
  mk_chip_info "FM25W04"%string        0xa1 0x28130000 (64 * 1024) 8    0 1.65%Q 3.60%Q ::
  mk_chip_info "FM25W16"%string        0xa1 0x28150000 (64 * 1024) 32   0 1.65%Q 3.60%Q ::
  mk_chip_info "FM25W32"%string        0xa1 0x28160000 (64 * 1024) 64   0 1.65%Q 3.60%Q ::
  mk_chip_info "FM25W64"%string        0xa1 0x28170000 (64 * 1024) 128  0 1.65%Q 3.60%Q ::
  mk_chip_info "FM25W128"%string       0xa1 0x28180000 (64 * 1024) 256  0 1.65%Q 3.60%Q ::
  mk_chip_info "FM25Q04"%string        0xa1 0x40130000 (64 * 1024) 8    0 2.70%Q 3.60%Q ::
  mk_chip_info "FM25Q08"%string        0xa1 0x40140000 (64 * 1024) 16   0 2.70%Q 3.60%Q ::
  mk_chip_info "FM25Q16"%string        0xa1 0x40150000 (64 * 1024) 32   0 2.70%Q 3.60%Q ::
  mk_chip_info "FS25Q32"%string        0xa1 0x40160000 (64 * 1024) 64   0 2.70%Q 3.60%Q ::
  mk_chip_info "FS25Q64"%string        0xa1 0x40170000 (64 * 1024) 128  0 2.70%Q 3.60%Q ::
  mk_chip_info "FS25Q128"%string       0xa1 0x40180000 (64 * 1024) 256  0 2.70%Q 3.60%Q ::
  mk_chip_info "ZD25Q64B"%string       0xba 0x32170000 (64 * 1024) 128  0 2.70%Q 3.60%Q ::
  mk_chip_info "ZD25LQ128"%string      0xba 0x42180000 (64 * 1024) 256  0 1.65%Q 1.95%Q ::
  mk_chip_info "ZD25LQ64"%string       0xba 0x43170000 (64 * 1024) 128  0 1.65%Q 1.95%Q ::
  mk_chip_info "ZD25WD20B"%string      0xba 0x60120000 (64 * 1024) 4    0 1.65%Q 3.60%Q ::
  mk_chip_info "ZD25WD40B"%string      0xba 0x60130000 (64 * 1024) 8    0 1.65%Q 3.60%Q ::
  mk_chip_info "ZD25Q80C"%string       0xba 0x60140000 (64 * 1024) 16   0 2.30%Q 3.60%Q ::
  mk_chip_info "ZD25Q16B"%string       0xba 0x60150000 (64 * 1024) 32   0 2.70%Q 3.60%Q ::
  mk_chip_info "ZD25Q32C"%string       0xba 0x60160000 (64 * 1024) 64   0 2.70%Q 3.60%Q ::
  mk_chip_info "PCT25VF016B"%string    0xbf 0x25410000 (64 * 1024) 32   0 2.70%Q 3.60%Q ::
  mk_chip_info "PCT25VF032B"%string    0xbf 0x254a0000 (64 * 1024) 64   0 2.70%Q 3.60%Q ::
  mk_chip_info "PCT25VF064C"%string    0xbf 0x254b0000 (64 * 1024) 128  0 2.70%Q 3.60%Q ::
  mk_chip_info "PCT25VF020B"%string    0xbf 0x258c0000 (64 * 1024) 4    0 2.70%Q 3.60%Q ::
  mk_chip_info "PCT25VF040B"%string    0xbf 0x258d0000 (64 * 1024) 8    0 2.70%Q 3.60%Q ::
  mk_chip_info "PCT25VF080B"%string    0xbf 0x258e0000 (64 * 1024) 16   0 2.70%Q 3.60%Q ::
  mk_chip_info "PCT26VF016"%string     0xbf 0x26010000 (64 * 1024) 32   0 2.70%Q 3.60%Q ::
  mk_chip_info "PCT26VF032"%string     0xbf 0x26020000 (64 * 1024) 64   0 2.70%Q 3.60%Q ::
  mk_chip_info "PCT25VF010A"%string    0xbf 0x49000000 (64 * 1024) 2    0 2.70%Q 3.60%Q ::
  mk_chip_info "MX25L8005M"%string     0xc2 0x2014c220 (64 * 1024) 16   0 2.70%Q 3.60%Q ::
  mk_chip_info "MX25L1605D"%string     0xc2 0x2015c220 (64 * 1024) 32   0 2.70%Q 3.60%Q ::
  mk_chip_info "MX25L3205D"%string     0xc2 0x2016c220 (64 * 1024) 64   0 2.70%Q 3.60%Q ::
  mk_chip_info "MX25L6405D"%string     0xc2 0x2017c220 (64 * 1024) 128  0 2.70%Q 3.60%Q ::
  mk_chip_info "MX25L12805D"%string    0xc2 0x2018c220 (64 * 1024) 256  0 2.70%Q 3.60%Q ::
  mk_chip_info "MX25L25635E"%string    0xc2 0x2019c220 (64 * 1024) 512  1 2.70%Q 3.60%Q ::
  mk_chip_info "MX25L51245G"%string    0xc2 0x201ac220 (64 * 1024) 1024 1 2.70%Q 3.60%Q ::
  mk_chip_info "MX25U5121E"%string     0xc2 0x25300000 (64 * 1024) 1    0 1.65%Q 2.00%Q ::
  mk_chip_info "MX25U1001E"%string     0xc2 0x25310000 (64 * 1024) 2    0 1.65%Q 2.00%Q ::
  mk_chip_info "MX25U2035F"%string     0xc2 0x25320000 (64 * 1024) 4    0 1.65%Q 2.00%Q ::
  mk_chip_info "MX25U4035F"%string     0xc2 0x25330000 (64 * 1024) 8    0 1.65%Q 2.00%Q ::
  mk_chip_info "MX25U80356"%string     0xc2 0x25340000 (64 * 1024) 16   0 1.65%Q 2.00%Q ::
  mk_chip_info "MX25U1632F"%string     0xc2 0x25350000 (64 * 1024) 32   0 1.65%Q 2.00%Q ::
  mk_chip_info "MX25U3232F"%string     0xc2 0x25360000 (64 * 1024) 64   0 1.65%Q 2.00%Q ::
  mk_chip_info "MX25U6432F"%string     0xc2 0x25370000 (64 * 1024) 128  0 1.65%Q 2.00%Q ::
  mk_chip_info "MX25U12832F"%string    0xc2 0x25380000 (64 * 1024) 256  0 1.65%Q 2.00%Q ::
  mk_chip_info "MX25U25643G"%string    0xc2 0x25390000 (64 * 1024) 512  1 1.65%Q 2.00%Q ::
  mk_chip_info "MX25U51245G"%string    0xc2 0x253a0000 (64 * 1024) 1024 1 1.65%Q 2.00%Q ::
  mk_chip_info "MX25R2035F"%string     0xc2 0x28120000 (64 * 1024) 4    0 1.65%Q 3.60%Q ::
  mk_chip_info "MX25R4035F"%string     0xc2 0x28130000 (64 * 1024) 8    0 1.65%Q 3.60%Q ::
  mk_chip_info "MX25R8035F"%string     0xc2 0x28140000 (64 * 1024) 16   0 1.65%Q 3.60%Q ::
  mk_chip_info "MX25R1635F"%string     0xc2 0x28150000 (64 * 1024) 32   0 1.65%Q 3.60%Q ::
  mk_chip_info "MX25R3235F"%string     0xc2 0x28160000 (64 * 1024) 64   0 1.65%Q 3.60%Q ::
  mk_chip_info "MX25R6435F"%string     0xc2 0x28170000 (64 * 1024) 128  0 1.65%Q 3.60%Q ::
  mk_chip_info "GD25F40"%string        0xc8 0x20130000 (64 * 1024) 8    0 2.70%Q 3.60%Q ::
  mk_chip_info "GD25F80"%string        0xc8 0x20140000 (64 * 1024) 16   0 2.70%Q 3.60%Q ::
  mk_chip_info "GD25D40"%string        0xc8 0x30130000 (64 * 1024) 8    0 2.70%Q 3.60%Q ::
  mk_chip_info "GD25D80"%string        0xc8 0x30140000 (64 * 1024) 16   0 2.70%Q 3.60%Q ::
  mk_chip_info "GD25D05C"%string       0xc8 0x40100000 (64 * 1024) 1    0 2.70%Q 3.60%Q ::
  mk_chip_info "GD25D10C"%string       0xc8 0x40110000 (64 * 1024) 2    0 2.70%Q 3.60%Q ::
  mk_chip_info "GD25Q20C"%string       0xc8 0x40120000 (64 * 1024) 4    0 2.70%Q 3.60%Q ::
  mk_chip_info "GD25Q40C"%string       0xc8 0x40130000 (64 * 1024) 8    0 2.70%Q 3.60%Q ::
  mk_chip_info "GD25Q80C"%string       0xc8 0x40140000 (64 * 1024) 16   0 2.70%Q 3.60%Q ::
  mk_chip_info "GD25Q16C"%string       0xc8 0x40150000 (64 * 1024) 32   0 2.70%Q 3.60%Q ::
  mk_chip_info "GD25Q32"%string        0xc8 0x40160000 (64 * 1024) 64   0 2.70%Q 3.60%Q ::
  mk_chip_info "GD25Q64CSIG"%string    0xc8 0x40170000 (64 * 1024) 128  0 2.70%Q 3.60%Q ::
  mk_chip_info "GD25Q128CSIG"%string   0xc8 0x4018c840 (64 * 1024) 256  0 2.70%Q 3.60%Q ::
  mk_chip_info "GD25Q256CSIG"%string   0xc8 0x4019c840 (64 * 1024) 512  1 2.70%Q 3.60%Q ::
  mk_chip_info "GD25LD05C"%string      0xc8 0x60100000 (64 * 1024) 1    0 1.65%Q 2.00%Q ::
  mk_chip_info "GD25LD10C"%string      0xc8 0x60110000 (64 * 1024) 2    0 1.65%Q 2.00%Q ::
  mk_chip_info "GD25LD20C"%string      0xc8 0x60120000 (64 * 1024) 4    0 1.65%Q 2.00%Q ::
  mk_chip_info "GD25LD40C"%string      0xc8 0x60130000 (64 * 1024) 8    0 1.65%Q 2.00%Q ::
  mk_chip_info "GD25LQ80C"%string      0xc8 0x60140000 (64 * 1024) 16   0 1.65%Q 2.10%Q ::
  mk_chip_info "GD25LQ16C"%string      0xc8 0x60150000 (64 * 1024) 32   0 1.65%Q 2.10%Q ::
  mk_chip_info "GD25LQ32E"%string      0xc8 0x60160000 (64 * 1024) 64   0 1.65%Q 2.10%Q ::
  mk_chip_info "GD25LQ64E"%string      0xc8 0x60170000 (64 * 1024) 128  0 1.65%Q 2.00%Q ::
  mk_chip_info "GD25LQ128"%string      0xc8 0x6018c840 (64 * 1024) 256  0 1.65%Q 2.00%Q ::
  mk_chip_info "GD25LQ256D"%string     0xc8 0x60190000 (64 * 1024) 512  1 1.65%Q 2.00%Q ::
  mk_chip_info "GD25WD05C"%string      0xc8 0x64100000 (64 * 1024) 1    0 1.65%Q 3.60%Q ::
  mk_chip_info "GD25WD10C"%string      0xc8 0x64110000 (64 * 1024) 2    0 1.65%Q 3.60%Q ::
  mk_chip_info "GD25WD20E"%string      0xc8 0x64120000 (64 * 1024) 4    0 1.65%Q 3.60%Q ::
  mk_chip_info "GD25WD40E"%string      0xc8 0x64130000 (64 * 1024) 8    0 1.65%Q 3.60%Q ::
  mk_chip_info "GD25WD80C"%string      0xc8 0x64140000 (64 * 1024) 16   0 1.65%Q 3.60%Q ::
  mk_chip_info "GD25WQ20E"%string      0xc8 0x65120000 (64 * 1024) 4    0 1.65%Q 3.60%Q ::
  mk_chip_info "GD25WQ40E"%string      0xc8 0x65130000 (64 * 1024) 8    0 1.65%Q 3.60%Q ::
  mk_chip_info "GD25WQ80E"%string      0xc8 0x65140000 (64 * 1024) 16   0 1.65%Q 3.60%Q ::
  mk_chip_info "GD25WQ16E"%string      0xc8 0x65150000 (64 * 1024) 32   0 1.65%Q 3.60%Q ::
  mk_chip_info "GD25WQ32E"%string      0xc8 0x65160000 (64 * 1024) 64   0 1.65%Q 3.60%Q ::
  mk_chip_info "GD25WQ64E"%string      0xc8 0x65170000 (64 * 1024) 128  0 1.65%Q 3.60%Q ::
  mk_chip_info "GD25WQ128E"%string     0xc8 0x65180000 (64 * 1024) 256  0 1.65%Q 3.60%Q ::
  mk_chip_info "GD25WB256E"%string     0xc8 0x65190000 (64 * 1024) 512  1 1.65%Q 3.60%Q ::
  mk_chip_info "GD25LB512ME"%string    0xc8 0x671a0000 (64 * 1024) 1024 1 1.65%Q 2.00%Q ::
  mk_chip_info "YC25Q128"%string       0xd8 0x4018c840 (64 * 1024) 256  0 2.70%Q 3.60%Q ::
  mk_chip_info "PN25F08"%string        0xe0 0x40140000 (64 * 1024) 16   0 2.70%Q 3.60%Q ::
  mk_chip_info "PN25F16"%string        0xe0 0x40150000 (64 * 1024) 32   0 2.70%Q 3.60%Q ::
  mk_chip_info "PN25F32"%string        0xe0 0x40160000 (64 * 1024) 64   0 2.70%Q 3.60%Q ::
  mk_chip_info "PN25F64"%string        0xe0 0x40170000 (64 * 1024) 128  0 2.70%Q 3.60%Q ::
  mk_chip_info "PN25F128"%string       0xe0 0x40180000 (64 * 1024) 256  0 2.70%Q 3.60%Q ::
  mk_chip_info "W25P80"%string         0xef 0x20140000 (64 * 1024) 16   0 2.70%Q 3.60%Q ::
  mk_chip_info "W25P16"%string         0xef 0x20150000 (64 * 1024) 32   0 2.70%Q 3.60%Q ::
  mk_chip_info "W25P32"%string         0xef 0x20160000 (64 * 1024) 64   0 2.70%Q 3.60%Q ::
  mk_chip_info "W25X05"%string         0xef 0x30100000 (64 * 1024) 1    0 2.30%Q 3.60%Q ::
  mk_chip_info "W25X10"%string         0xef 0x30110000 (64 * 1024) 2    0 2.70%Q 3.60%Q ::
  mk_chip_info "W25X20"%string         0xef 0x30120000 (64 * 1024) 4    0 2.70%Q 3.60%Q ::
  mk_chip_info "W25X40"%string         0xef 0x30130000 (64 * 1024) 8    0 2.70%Q 3.60%Q ::
  mk_chip_info "W25X80"%string         0xef 0x30140000 (64 * 1024) 16   0 2.70%Q 3.60%Q ::
  mk_chip_info "W25X16"%string         0xef 0x30150000 (64 * 1024) 32   0 2.70%Q 3.60%Q ::
  mk_chip_info "W25X32VS"%string       0xef 0x30160000 (64 * 1024) 64   0 2.70%Q 3.60%Q ::
  mk_chip_info "W25X64"%string         0xef 0x30170000 (64 * 1024) 128  0 2.70%Q 3.60%Q ::
  mk_chip_info "W25Q20CL"%string       0xef 0x40120000 (64 * 1024) 4    0 2.30%Q 3.60%Q ::
  mk_chip_info "W25Q40BV"%string       0xef 0x40130000 (64 * 1024) 8    0 2.70%Q 3.60%Q ::
  mk_chip_info "W25Q80BL"%string       0xef 0x40140000 (64 * 1024) 16   0 2.30%Q 3.60%Q ::
  mk_chip_info "W25Q16DV"%string       0xef 0x40150000 (64 * 1024) 32   0 2.70%Q 3.60%Q ::
  mk_chip_info "W25Q32BV"%string       0xef 0x40160000 (64 * 1024) 64   0 2.70%Q 3.60%Q ::
  mk_chip_info "W25Q64BV"%string       0xef 0x40170000 (64 * 1024) 128  0 2.70%Q 3.60%Q ::
  mk_chip_info "W25Q128BV"%string      0xef 0x40180000 (64 * 1024) 256  0 2.70%Q 3.60%Q ::
  mk_chip_info "W25Q256FV"%string      0xef 0x40190000 (64 * 1024) 512  1 2.70%Q 3.60%Q ::
  mk_chip_info "W25Q20BW"%string       0xef 0x50120000 (64 * 1024) 4    0 1.65%Q 1.95%Q ::
  mk_chip_info "W25Q80"%string         0xef 0x50140000 (64 * 1024) 16   0 2.30%Q 3.60%Q ::
  mk_chip_info "W25Q10EW"%string       0xef 0x60110000 (64 * 1024) 2    0 1.65%Q 1.95%Q ::
  mk_chip_info "W25Q20EW"%string       0xef 0x60120000 (64 * 1024) 4    0 1.65%Q 1.95%Q ::
  mk_chip_info "W25Q40EW"%string       0xef 0x60130000 (64 * 1024) 8    0 1.65%Q 1.95%Q ::
  mk_chip_info "W25Q80EW"%string       0xef 0x60140000 (64 * 1024) 16   0 1.65%Q 1.95%Q ::
  mk_chip_info "W25Q16JW"%string       0xef 0x60150000 (64 * 1024) 32   0 1.65%Q 1.95%Q ::
  mk_chip_info "W25Q32FW"%string       0xef 0x60160000 (64 * 1024) 64   0 1.65%Q 1.95%Q ::
  mk_chip_info "W25Q64DW"%string       0xef 0x60170000 (64 * 1024) 128  0 1.70%Q 1.95%Q ::
  mk_chip_info "W25Q128FW"%string      0xef 0x60180000 (64 * 1024) 256  0 1.65%Q 1.95%Q ::
  mk_chip_info "W25Q256JW"%string      0xef 0x60190000 (64 * 1024) 512  1 1.70%Q 1.95%Q ::
  mk_chip_info "W25M512JW"%string      0xef 0x61190000 (64 * 1024) 1024 1 1.70%Q 1.95%Q ::
  mk_chip_info "W25Q512JV"%string      0xef 0x70200000 (64 * 1024) 1024 1 2.70%Q 3.60%Q ::
  mk_chip_info "W25M512JV"%string      0xef 0x71190000 (64 * 1024) 1024 1 2.70%Q 3.60%Q ::
  mk_chip_info "W25Q32JW"%string       0xef 0x80160000 (64 * 1024) 64   0 1.70%Q 1.95%Q ::
  mk_chip_info "FM25Q04A"%string       0xf8 0x32130000 (64 * 1024) 8    0 2.70%Q 3.60%Q ::
  mk_chip_info "FM25Q08A"%string       0xf8 0x32140000 (64 * 1024) 16   0 2.70%Q 3.60%Q ::
  mk_chip_info "FM25Q16A"%string       0xf8 0x32150000 (64 * 1024) 32   0 2.70%Q 3.60%Q ::
  mk_chip_info "FM25Q32A"%string       0xf8 0x32160000 (64 * 1024) 64   0 2.70%Q 3.60%Q ::
  mk_chip_info "FM25Q64A"%string       0xf8 0x32170000 (64 * 1024) 128  0 2.70%Q 3.60%Q ::
  mk_chip_info "FM25Q128A"%string      0xf8 0x32180000 (64 * 1024) 256  0 2.70%Q 3.60%Q ::
  mk_chip_info "FM25M04A"%string       0xf8 0x42130000 (64 * 1024) 8    0 1.65%Q 1.95%Q ::
  mk_chip_info "FM25M08A"%string       0xf8 0x42140000 (64 * 1024) 16   0 1.65%Q 1.95%Q ::
  mk_chip_info "FM25M16A"%string       0xf8 0x42150000 (64 * 1024) 32   0 1.65%Q 1.95%Q ::
  mk_chip_info "FM25M32B"%string       0xf8 0x42160000 (64 * 1024) 64   0 1.65%Q 1.95%Q ::
  mk_chip_info "FM25M64A"%string       0xf8 0x42170000 (64 * 1024) 128  0 1.65%Q 1.95%Q :: [].

(** sizeof(chips_data)/sizeof(chips_data[0]) *)
Definition n_chips : nat := Eval vm_compute in length chips_data.

(** ** The SPI transport (external)

    spi_controller.h is not part of the driver.  Every call the driver makes
    on the controller is an [event]; a run of the driver is observed as the
    list of its events.  A pointer argument is recorded as what it points
    to: a local of the driver (with the byte it holds, when the byte is
    sent) or an offset into the caller's buffer. *)

Inductive dest :=
| ToLocal
| ToBuf (off : Z).

Inductive source :=
| FromLocal (v : Z)
| FromBuf (off : Z).

Inductive event :=
| Chip_Select_Low
| Chip_Select_High
| Write_One_Byte (data : Z)
| Read_NByte (dst : dest) (len : Z)
| Write_NByte (src : source) (len : Z)
| usleep (us : Z).

Definition trace := list event.

(** What the controller answers: a return code for every transfer and the
    bytes an N-byte read stores.  The answer may depend on everything that
    happened on the bus before the call. *)
Record transport := mk_transport {
  write_one_byte : trace -> Z -> Z;
  read_nbyte : trace -> dest -> Z -> Z * list Z;
  write_nbyte : trace -> source -> Z -> Z
}.

(** ** Driver computations

    A computation reads the history of the bus and yields a result together
    with the events it adds. *)

Definition M (A : Type) : Type := trace -> A * trace.

Definition ret {A} (a : A) : M A := fun _ => (a, []).

Definition bind {A B} (m : M A) (k : A -> M B) : M B :=
  fun h =>
    let r1 := m h in
    let r2 := k (fst r1) (h ++ snd r1) in
    (fst r2, snd r1 ++ snd r2).

Notation "x <- m ;; k" := (bind m (fun x => k))
  (at level 61, m at next level, right associativity).
Notation "m ;;; k" := (bind m (fun _ => k))
  (at level 61, right associativity).

(** if (c) stmt; *)
Definition when {A} (c : bool) (m : M A) : M unit :=
  if c then m ;;; ret tt else ret tt.

(** C truth value of an integer *)
Definition truthy (x : Z) : bool := negb (x =? 0).

(** A one-byte read stores into a local: the byte, when the controller
    stored one, else what the local held. *)
Definition stored (old : Z) (data : list Z) : Z :=
  match data with
  | b :: _ => u8 b
  | [] => old
  end.

(** How a loop of the driver ends: it falls out of the loop, it returns from
    inside, or (model only) the iteration budget is used up, with the live
    loop variables. *)
Inductive loop_result (S : Type) :=
| Exit (s : S)
| Return (rv : Z)
| Running (s : S).
Arguments Exit {S} s.
Arguments Return {S} rv.
Arguments Running {S} s.

Section Driver.

Variable T : transport.

Definition SPI_CONTROLLER_Chip_Select_Low : M unit :=
  fun _ => (tt, [Chip_Select_Low]).
Definition SPI_CONTROLLER_Chip_Select_High : M unit :=
  fun _ => (tt, [Chip_Select_High]).
Definition SPI_CONTROLLER_Write_One_Byte (data : Z) : M Z :=
  fun h => (write_one_byte T h data, [Write_One_Byte data]).
Definition SPI_CONTROLLER_Read_NByte (dst : dest) (len : Z) : M (Z * list Z) :=
  fun h => (read_nbyte T h dst len, [Read_NByte dst len]).
Definition SPI_CONTROLLER_Write_NByte (src : source) (len : Z) : M Z :=
  fun h => (write_nbyte T h src len, [Write_NByte src len]).
Definition udelay (us : Z) : M unit :=
  fun _ => (tt, [usleep us]).

Definition snor_write_enable : M unit :=
  SPI_CONTROLLER_Chip_Select_Low ;;;
  SPI_CONTROLLER_Write_One_Byte OPCODE_WREN ;;;
  SPI_CONTROLLER_Chip_Select_High.

Definition snor_write_disable : M unit :=
  SPI_CONTROLLER_Chip_Select_Low ;;;
  SPI_CONTROLLER_Write_One_Byte OPCODE_WRDI ;;;
  SPI_CONTROLLER_Chip_Select_High.

(** snor_read_sr(u8 *val): the result pairs the return value with *val. *)
Definition snor_read_sr (val : Z) : M (Z * Z) :=
  SPI_CONTROLLER_Chip_Select_Low ;;;
  SPI_CONTROLLER_Write_One_Byte OPCODE_RDSR ;;;
  r <- SPI_CONTROLLER_Read_NByte ToLocal 1 ;;
  SPI_CONTROLLER_Chip_Select_High ;;;
  let retval := fst r in
  let val := stored val (snd r) in
  if truthy retval then ret (retval, val) else ret (0, val).

Definition snor_write_sr (val : Z) : M Z :=
  SPI_CONTROLLER_Chip_Select_Low ;;;
  SPI_CONTROLLER_Write_One_Byte OPCODE_WRSR ;;;
  retval <- SPI_CONTROLLER_Write_NByte (FromLocal val) 1 ;;
  SPI_CONTROLLER_Chip_Select_High ;;;
  if truthy retval then ret retval else ret 0.

Definition snor_read_rg (code : Z) (val : Z) : M (Z * Z) :=
  SPI_CONTROLLER_Chip_Select_Low ;;;
  SPI_CONTROLLER_Write_One_Byte code ;;;
  r <- SPI_CONTROLLER_Read_NByte ToLocal 1 ;;
  SPI_CONTROLLER_Chip_Select_High ;;;
  let retval := fst r in
  let val := stored val (snd r) in
  if truthy retval then ret (-1, val) else ret (0, val).

Definition snor_write_rg (code : Z) (val : Z) : M Z :=
  SPI_CONTROLLER_Chip_Select_Low ;;;
  SPI_CONTROLLER_Write_One_Byte code ;;;
  retval <- SPI_CONTROLLER_Write_NByte (FromLocal val) 1 ;;
  SPI_CONTROLLER_Chip_Select_High ;;;
  if truthy retval then ret (-1) else ret 0.

Definition snor_unprotect : M Z :=
  r <- snor_read_sr 0 ;;
  let sr := snd r in
  if fst r <? 0 then ret (-1)
  else
    when (truthy (Z.land sr (Z.lor SR_BP0 (Z.lor SR_BP1 SR_BP2))))
         (snor_write_sr 0) ;;;
    ret 0.

(** The body of the for loop of snor_wait_ready, [n] iterations left.  [sr]
    is an int whose low byte (little-endian host) the status read
    overwrites; it starts at 0, so it always holds the last byte stored. *)
Fixpoint snor_wait_ready_loop (n : nat) (sr : Z) : M Z :=
  match n with
  | O => ret (-1)
  | S n' =>
      r <- snor_read_sr sr ;;
      let sr := snd r in
      if fst r <? 0 then ret (-1)
      else if negb (truthy (Z.land sr (Z.lor SR_WIP (Z.lor SR_EPE SR_WEL))))
      then ret 0
      else udelay 500 ;;; snor_wait_ready_loop n' sr
  end.

(** for (count = 0; count < ((sleep_ms + 1) * 1000); count++) *)
Definition snor_wait_ready (sleep_ms : Z) : M Z :=
  snor_wait_ready_loop (Z.to_nat ((sleep_ms + 1) * 1000)) 0.

(** chip_prob: the probe returns a pointer into chips_data, here the index
    of the row, or NULL.  [weight] and [match_] track the closest row; the
    function drops them before it returns. *)
Fixpoint chip_prob_loop (rows : list chip_info) (i : nat)
    (buf0 jedec jedec_strip weight : Z) (match_ : nat) : option nat :=
  match rows with
  | [] => None
  | info :: rows' =>
      if id info =? buf0 then
        if (jedec_id info =? jedec)
           || (Z.land (jedec_id info) 0xffff0000 =? jedec_strip)
        then Some i
        else if weight >? Z.lxor (jedec_id info) jedec
        then chip_prob_loop rows' (S i) buf0 jedec jedec_strip
                            (Z.lxor (jedec_id info) jedec) i
        else chip_prob_loop rows' (S i) buf0 jedec jedec_strip weight match_
      else chip_prob_loop rows' (S i) buf0 jedec jedec_strip weight match_
  end.

Definition snor_read_devid (n_rx : Z) : M (Z * list Z) :=
  SPI_CONTROLLER_Chip_Select_Low ;;;
  SPI_CONTROLLER_Write_One_Byte OPCODE_RDID ;;;
  r <- SPI_CONTROLLER_Read_NByte ToLocal n_rx ;;
  SPI_CONTROLLER_Chip_Select_High ;;;
  ret r.

(** u8 buf[5] is not initialised; a byte the controller did not store is
    read as 0 here. *)
Definition buf_at (buf : list Z) (i : nat) : Z := u8 (nth i buf 0).

Definition jedec_of (buf : list Z) : Z :=
  u32 (Z.lor (u32 (Z.shiftl (buf_at buf 1) 24))
      (Z.lor (u32 (Z.shiftl (buf_at buf 2) 16))
      (Z.lor (u32 (Z.shiftl (buf_at buf 3) 8))
             (u32 (buf_at buf 4))))).

Definition chip_prob : M (option nat) :=
  r <- snor_read_devid 5 ;;
  let buf := snd r in
  let jedec := jedec_of buf in
  let jedec_strip := Z.land jedec 0xffff0000 in
  ret (chip_prob_loop chips_data 0 (buf_at buf 0) jedec jedec_strip
                      0xffffffff 0).

(** snor_init: the capacity of the detected chip, or -1. *)
Definition snor_init : M (Z * option chip_info) :=
  p <- chip_prob ;;
  match p with
  | None => ret (-1, None)
  | Some i =>
      match nth_error chips_data i with
      | Some c => ret (ulong (sector_size c * n_sectors c), Some c)
      | None => ret (-1, None)
      end
  end.

(** The remaining functions work on the detected chip, the global
    [spi_chip_info]. *)
Variable spi_chip_info : chip_info.

Definition snor_4byte_mode (enable : Z) : M Z :=
  r <- snor_wait_ready 1 ;;
  if truthy r then ret (-1)
  else if id spi_chip_info =? 0x1 then
    let br := if truthy enable then 0x81 else 0 in
    snor_write_rg OPCODE_BRWR br ;;;
    c <- snor_read_rg OPCODE_BRRD 0 ;;
    let br_cfn := snd c in
    if negb (br_cfn =? br) then ret (-1) else ret 0
  else
    let code := if truthy enable then 0xb7 else 0xe9 in
    SPI_CONTROLLER_Chip_Select_Low ;;;
    retval <- SPI_CONTROLLER_Write_One_Byte code ;;
    SPI_CONTROLLER_Chip_Select_High ;;;
    if truthy retval then ret (-1)
    else
      when (negb (truthy enable) && (id spi_chip_info =? 0xef))
           (snor_write_enable ;;; snor_write_rg 0xc5 0) ;;;
      ret 0.

(** The opcode and the big-endian address bytes of an addressed command
    (snor_erase_sector, snor_read and snor_write each write these lines
    out). *)
Definition send_address (opcode addr : Z) : M unit :=
  SPI_CONTROLLER_Write_One_Byte opcode ;;;
  when (truthy (addr4b spi_chip_info))
       (SPI_CONTROLLER_Write_One_Byte (Z.land (Z.shiftr addr 24) 0xff)) ;;;
  SPI_CONTROLLER_Write_One_Byte (Z.land (Z.shiftr addr 16) 0xff) ;;;
  SPI_CONTROLLER_Write_One_Byte (Z.land (Z.shiftr addr 8) 0xff) ;;;
  SPI_CONTROLLER_Write_One_Byte (Z.land addr 0xff) ;;;
  ret tt.

Definition snor_erase_sector (offset : Z) : M Z :=
  r <- snor_wait_ready 950 ;;
  if truthy r then ret (-1)
  else
    when (truthy (addr4b spi_chip_info)) (snor_4byte_mode 1) ;;;
    snor_write_enable ;;;
    SPI_CONTROLLER_Chip_Select_Low ;;;
    send_address OPCODE_SE offset ;;;
    SPI_CONTROLLER_Chip_Select_High ;;;
    snor_wait_ready 950 ;;;
    when (truthy (addr4b spi_chip_info)) (snor_4byte_mode 0) ;;;
    ret 0.

Definition full_erase_chip : M Z :=
  r <- snor_wait_ready 3 ;;
  if truthy r then ret (-1)
  else
    snor_write_enable ;;;
    snor_unprotect ;;;
    SPI_CONTROLLER_Chip_Select_Low ;;;
    SPI_CONTROLLER_Write_One_Byte OPCODE_BE1 ;;;
    SPI_CONTROLLER_Chip_Select_High ;;;
    snor_wait_ready 950 ;;;
    snor_write_disable ;;;
    ret 0.

(** while (len > 0) of snor_erase; the loop variables are (offs, len). *)
Fixpoint snor_erase_loop (fuel : nat) (offs len : Z) : M (loop_result (Z * Z)) :=
  match fuel with
  | O => ret (Running (offs, len))
  | S fuel' =>
      if len >? 0 then
        r <- snor_erase_sector offs ;;
        if truthy r then ret (Return (-1))
        else snor_erase_loop fuel'
               (ulong (offs + sector_size spi_chip_info))
               (ulong (len - sector_size spi_chip_info))
      else ret (Exit (offs, len))
  end.

(** snor_erase; [None] when the loop is still running after [fuel]
    iterations. *)
Definition snor_erase (fuel : nat) (offs len : Z) : M (option Z) :=
  if len =? 0 then ret (Some (-1))
  else if negb (truthy offs)
          && (len =? ulong (sector_size spi_chip_info * n_sectors spi_chip_info))
  then r <- full_erase_chip ;; ret (Some r)
  else
    snor_unprotect ;;;
    o <- snor_erase_loop fuel offs len ;;
    match o with
    | Exit _ => ret (Some 0)
    | Return rv => ret (Some rv)
    | Running _ => ret None
    end.

(** while (remain_len > 0) of snor_read; the loop variables are
    (read_addr, remain_len), both u32. *)
Fixpoint snor_read_loop (fuel : nat) (len read_addr remain_len : Z)
    : M (loop_result (Z * Z)) :=
  match fuel with
  | O => ret (Running (read_addr, remain_len))
  | S fuel' =>
      if remain_len >? 0 then
        let physical_read_addr := read_addr in
        let data_offset :=
          u32 (physical_read_addr mod sector_size spi_chip_info) in
        when (truthy (addr4b spi_chip_info)) (snor_4byte_mode 1) ;;;
        SPI_CONTROLLER_Chip_Select_Low ;;;
        send_address OPCODE_READ physical_read_addr ;;;
        if u32 (data_offset + remain_len) <? sector_size spi_chip_info then
          rc <- SPI_CONTROLLER_Read_NByte
                  (ToBuf (ulong (len - remain_len))) remain_len ;;
          if truthy (fst rc) then
            SPI_CONTROLLER_Chip_Select_High ;;;
            when (truthy (addr4b spi_chip_info)) (snor_4byte_mode 0) ;;;
            ret (Return (int (ulong (-1))))
          else
            SPI_CONTROLLER_Chip_Select_High ;;;
            when (truthy (addr4b spi_chip_info)) (snor_4byte_mode 0) ;;;
            snor_read_loop fuel' len read_addr 0
        else
          let n := ulong (sector_size spi_chip_info - data_offset) in
          rc <- SPI_CONTROLLER_Read_NByte
                  (ToBuf (ulong (len - remain_len))) n ;;
          if truthy (fst rc) then
            SPI_CONTROLLER_Chip_Select_High ;;;
            when (truthy (addr4b spi_chip_info)) (snor_4byte_mode 0) ;;;
            ret (Return (int (ulong (-1))))
          else
            SPI_CONTROLLER_Chip_Select_High ;;;
            when (truthy (addr4b spi_chip_info)) (snor_4byte_mode 0) ;;;
            snor_read_loop fuel' len (u32 (read_addr + n)) (u32 (remain_len - n))
      else ret (Exit (read_addr, remain_len))
  end.

Definition snor_read (fuel : nat) (from len : Z) : M (option Z) :=
  if len =? 0 then ret (Some 0)
  else
    r <- snor_wait_ready 1 ;;
    if truthy r then ret (Some (-1))
    else
      o <- snor_read_loop fuel len (u32 from) (u32 len) ;;
      match o with
      | Exit _ => ret (Some (int len))
      | Return rv => ret (Some rv)
      | Running _ => ret None
      end.

(** The loop variables of while (len > 0) in snor_write.  [buf] is the
    offset the buf pointer has advanced from the caller's buffer. *)
Record write_vars := mk_write_vars {
  w_to : Z;            (* unsigned long *)
  w_len : Z;           (* unsigned long *)
  w_page_offset : Z;   (* u32 *)
  w_retlen : Z;        (* int *)
  w_buf : Z
}.

Fixpoint snor_write_loop (fuel : nat) (v : write_vars)
    : M (loop_result write_vars) :=
  match fuel with
  | O => ret (Running v)
  | S fuel' =>
      if w_len v >? 0 then
        let page_size :=
          u32 (min (w_len v) (u32 (FLASH_PAGESIZE - w_page_offset v))) in
        snor_wait_ready 3 ;;;
        snor_write_enable ;;;
        snor_unprotect ;;;
        SPI_CONTROLLER_Chip_Select_Low ;;;
        send_address OPCODE_PP (w_to v) ;;;
        r <- SPI_CONTROLLER_Write_NByte (FromBuf (w_buf v)) page_size ;;
        let rc := if negb (truthy r) then int page_size else 1 in
        SPI_CONTROLLER_Chip_Select_High ;;;
        let retlen := if rc >? 0 then int (w_retlen v + rc) else w_retlen v in
        if (rc >? 0) && (u32 rc <? page_size) then
          snor_write_disable ;;;
          ret (Return (int (retlen - rc)))
        else
          snor_write_loop fuel'
            (mk_write_vars (ulong (w_to v + page_size))
                           (ulong (w_len v - page_size))
                           0 retlen (w_buf v + page_size))
      else ret (Exit v)
  end.

Definition snor_write (fuel : nat) (to len : Z) : M (option Z) :=
  if len =? 0 then ret (Some 0)
  else if ulong (to + len)
            >? ulong (sector_size spi_chip_info * n_sectors spi_chip_info)
  then ret (Some (-1))
  else
    r <- snor_wait_ready 2 ;;
    if truthy r then ret (Some (-1))
    else
      let page_offset := u32 (to mod FLASH_PAGESIZE) in
      when (truthy (addr4b spi_chip_info)) (snor_4byte_mode 1) ;;;
      o <- snor_write_loop fuel (mk_write_vars to len page_offset 0 0) ;;
      match o with
      | Exit v =>
          when (truthy (addr4b spi_chip_info)) (snor_4byte_mode 0) ;;;
          snor_write_disable ;;;
          ret (Some (w_retlen v))
      | Return rv => ret (Some rv)
      | Running _ => ret None
      end.

End Driver.

(** ** Observing the bus

    A command is what the driver sends between Chip_Select_Low and
    Chip_Select_High.  [scan] cuts a trace into its commands; [cur] is the
    command that is open, if any. *)

Fixpoint scan (cur : option (list event)) (d : trace)
    : list (list event) * option (list event) :=
  match d with
  | [] => ([], cur)
  | Chip_Select_Low :: d' => scan (Some []) d'
  | Chip_Select_High :: d' =>
      match cur with
      | Some f => let r := scan None d' in (f :: fst r, snd r)
      | None => scan None d'
      end
  | e :: d' =>
      match cur with
      | Some f => scan (Some (f ++ [e])) d'
      | None => scan None d'
      end
  end.

Definition commands (d : trace) : list (list event) := fst (scan None d).

(** Chip select is released at the end of the trace. *)
Definition balanced (d : trace) : Prop := snd (scan None d) = None.

(** The first byte of a command is its opcode. *)
Definition opcode_of (f : list event) : list Z :=
  match f with
  | Write_One_Byte op :: _ => [op]
  | _ => []
  end.

Definition opcodes (d : trace) : list Z := flat_map opcode_of (commands d).

(** The address a command carries: its leading single bytes, big-endian. *)
Fixpoint be_value (acc : Z) (f : list event) : Z * list event :=
  match f with
  | Write_One_Byte b :: f' => be_value (acc * 256 + b) f'
  | _ => (acc, f)
  end.

(** A sector erase: opcode D8 and an address. *)
Definition sector_erase_of (f : list event) : list Z :=
  match f with
  | Write_One_Byte op :: f' =>
      if op =? OPCODE_SE then
        match be_value 0 f' with
        | (a, []) => [a]
        | _ => []
        end
      else []
  | _ => []
  end.

(** A page program: opcode 02, an address and one N-byte write from the
    caller's buffer; observed as (address, buffer offset, length). *)
Definition page_program_of (f : list event) : list (Z * Z * Z) :=
  match f with
  | Write_One_Byte op :: f' =>
      if op =? OPCODE_PP then
        match be_value 0 f' with
        | (a, [Write_NByte (FromBuf off) n]) => [(a, off, n)]
        | _ => []
        end
      else []
  | _ => []
  end.

(** A read: opcode 03, an address and one N-byte read into the caller's
    buffer; observed as (address, buffer offset, length). *)
Definition read_of (f : list event) : list (Z * Z * Z) :=
  match f with
  | Write_One_Byte op :: f' =>
      if op =? OPCODE_READ then
        match be_value 0 f' with
        | (a, [Read_NByte (ToBuf off) n]) => [(a, off, n)]
        | _ => []
        end
      else []
  | _ => []
  end.

Definition sector_erases (d : trace) : list Z :=
  flat_map sector_erase_of (commands d).
Definition page_programs (d : trace) : list (Z * Z * Z) :=
  flat_map page_program_of (commands d).
Definition reads (d : trace) : list (Z * Z * Z) :=
  flat_map read_of (commands d).

(** The commands of the sequencer: status register access, write
    enable/disable and the addressing-mode switches. *)
Definition is_control (f : list event) : bool :=
  match f with
  | Write_One_Byte op :: _ =>
      existsb (Z.eqb op)
        [OPCODE_WREN; OPCODE_WRDI; OPCODE_RDSR; OPCODE_WRSR;
         OPCODE_BRRD; OPCODE_BRWR; 0xb7; 0xe9; 0xc5]
  | _ => false
  end.

(** Every command of the trace satisfies [P] and chip select is released at
    its end. *)
Definition framed (P : list event -> Prop) (d : trace) : Prop :=
  balanced d /\ Forall P (commands d).

Definition quiet (d : trace) : Prop :=
  framed (fun f => is_control f = true) d.

(** The address as it goes out on the bus: 3 bytes, or 4 for a chip with
    [addr4b]. *)
Definition wire (c : chip_info) (addr : Z) : Z :=
  if truthy (addr4b c) then addr mod 2 ^ 32 else addr mod 2 ^ 24.

(** One status read, as it appears on the bus. *)
Definition read_sr_events : trace :=
  [Chip_Select_Low; Write_One_Byte OPCODE_RDSR; Read_NByte ToLocal 1;
   Chip_Select_High].

(** ** Transports used in examples *)

(** The device is idle and every transfer succeeds. *)
Definition T_idle : transport :=
  mk_transport (fun _ _ => 0) (fun _ _ _ => (0, [0])) (fun _ _ _ => 0).

(** The device is idle but every N-byte write fails. *)
Definition T_write_fails : transport :=
  mk_transport (fun _ _ => 0) (fun _ _ _ => (0, [0])) (fun _ _ _ => -1).

(** The device never leaves the busy state. *)
Definition T_busy : transport :=
  mk_transport (fun _ _ => 0) (fun _ _ _ => (0, [SR_WIP])) (fun _ _ _ => 0).

(** The device answers the identification read with the given bytes. *)
Definition T_id (bytes : list Z) : transport :=
  mk_transport (fun _ _ => 0) (fun _ _ _ => (0, bytes)) (fun _ _ _ => 0).

Definition W25Q128BV : chip_info :=
  mk_chip_info "W25Q128BV"%string 0xef 0x40180000 (64 * 1024) 256 0 2.70%Q 3.60%Q.

Definition W25Q256FV : chip_info :=
  mk_chip_info "W25Q256FV"%string 0xef 0x40190000 (64 * 1024) 512 1 2.70%Q 3.60%Q.

Definition W25Q64BV : chip_info :=
  mk_chip_info "W25Q64BV"%string 0xef 0x40170000 (64 * 1024) 128 0 2.70%Q 3.60%Q.

(** The device is idle and write protected: BP0, BP1 and BP2 are set. *)
Definition T_protected : transport :=
  mk_transport (fun _ _ => 0) (fun _ _ _ => (0, [0x1c])) (fun _ _ _ => 0).

(** The device is idle but every block read into the caller's buffer
    fails. *)
Definition T_read_fails : transport :=
  mk_transport (fun _ _ => 0)
    (fun _ dst _ => match dst with
                    | ToLocal => (0, [0])
                    | ToBuf _ => (-1, [])
                    end)
    (fun _ _ _ => 0).

Definition S25FL256S : chip_info :=
  mk_chip_info "S25FL256S"%string 0x01 0x02194d01 (64 * 1024) 512 1 2.70%Q 3.60%Q.

(** The transport accepts one page program and refuses the next. *)
Definition T_second_fails : transport :=
  mk_transport (fun _ _ => 0) (fun _ _ _ => (0, [0]))
    (fun h _ _ => if (length (page_programs h) <? 1)%nat then 0 else -1).

(** Every N-byte read fails with the positive code 1 and stores nothing. *)
Definition T_status_fails : transport :=
  mk_transport (fun _ _ => 0) (fun _ _ _ => (1, [])) (fun _ _ _ => 0).

(** ** Vocabulary of the properties

    What the claims speak of, defined on the trace and on the transport's
    answers. *)

Section Observed.

Variable T : transport.
Variable c : chip_info.

(** What the status read that starts after history [h] answers. *)
Definition sr_answer (h : trace) : Z * list Z :=
  read_nbyte T (h ++ [Chip_Select_Low; Write_One_Byte OPCODE_RDSR]) ToLocal 1.

(** The bits snor_wait_ready waits for. *)
Definition SR_BUSY : Z := Z.lor SR_WIP (Z.lor SR_EPE SR_WEL).

(** Poll number [k] of a ready-wait that starts after history [h] with [sr]
    in the local: the return code of its status read and the local after
    it.  Every earlier poll is followed by the 500 us delay. *)
Fixpoint poll (h : trace) (sr : Z) (k : nat) : Z * Z :=
  let a := sr_answer h in
  match k with
  | O => (fst a, stored sr (snd a))
  | S k' => poll (h ++ read_sr_events ++ [usleep 500]) (stored sr (snd a)) k'
  end.

(** The status read of poll [k] returned no negative code: snor_read_sr < 0
    is the only failure snor_wait_ready tests.  A positive code, which
    snor_read_sr itself reports as a failure, passes this test. *)
Definition poll_ok (h : trace) (sr : Z) (k : nat) : Prop :=
  0 <= fst (poll h sr k).

(** Poll [k] sees WIP, WEL and EPE clear. *)
Definition poll_clear (h : trace) (sr : Z) (k : nat) : Prop :=
  Z.land (snd (poll h sr k)) SR_BUSY = 0.

(** Poll [k] is the first that finds the device ready: its status read
    returns no negative code and leaves WIP, WEL and EPE clear in sr, and
    every poll before it returned no negative code and left a bit set. *)
Definition ready_at (h : trace) (sr : Z) (k : nat) : Prop :=
  poll_ok h sr k /\ poll_clear h sr k /\
  forall j, (j < k)%nat -> poll_ok h sr j /\ ~ poll_clear h sr j.

(** The device becomes ready within the shortest wait the driver uses
    (sleep_ms = 1: 2000 polls), whenever it is asked. *)
Definition responsive : Prop :=
  forall h, exists k, (k < 2000)%nat /\ ready_at h 0 k.

(** The transport accepts every N-byte write. *)
Definition accepting : Prop :=
  forall h src len, write_nbyte T h src len = 0.

(** The transport delivers every N-byte read into the caller's buffer. *)
Definition delivering : Prop :=
  forall h off len, fst (read_nbyte T h (ToBuf off) len) = 0.

(** sector_size * n_sectors, as the driver computes it. *)
Definition capacity : Z := ulong (sector_size c * n_sectors c).

(** The address bytes send_address puts on the bus. *)
Definition address_events (addr : Z) : list event :=
  (if truthy (addr4b c)
   then [Write_One_Byte (Z.land (Z.shiftr addr 24) 0xff)] else []) ++
  [Write_One_Byte (Z.land (Z.shiftr addr 16) 0xff);
   Write_One_Byte (Z.land (Z.shiftr addr 8) 0xff);
   Write_One_Byte (Z.land addr 0xff)].

Definition sector_erase_events (offset : Z) : trace :=
  Chip_Select_Low :: Write_One_Byte OPCODE_SE ::
  address_events offset ++ [Chip_Select_High].

Definition page_program_events (to off n : Z) : trace :=
  Chip_Select_Low :: Write_One_Byte OPCODE_PP ::
  address_events to ++ [Write_NByte (FromBuf off) n; Chip_Select_High].

Definition read_events (addr off n : Z) : trace :=
  Chip_Select_Low :: Write_One_Byte OPCODE_READ ::
  address_events addr ++ [Read_NByte (ToBuf off) n; Chip_Select_High].

(** The branch snor_read takes and the length it transfers, from the loop
    variables. *)
Definition read_whole (ra rl : Z) : bool :=
  u32 (u32 (ra mod sector_size c) + rl) <? sector_size c.

Definition read_size (ra rl : Z) : Z :=
  if read_whole ra rl then rl
  else ulong (sector_size c - u32 (ra mod sector_size c)).

End Observed.

(** The command of a status read. *)
Definition read_sr_command : list event :=
  [Write_One_Byte OPCODE_RDSR; Read_NByte ToLocal 1].

(** No chip select event inside. *)
Definition plain (f : list event) : bool :=
  forallb (fun e => match e with
                    | Chip_Select_Low | Chip_Select_High => false
                    | _ => true
                    end) f.

(** The commands of the sector-erase path. *)
Definition erase_command (f : list event) : Prop :=
  is_control f = true \/ opcode_of f = [OPCODE_SE].

(** The page size and the next loop variables of one iteration of
    snor_write. *)
Definition write_page_size (v : write_vars) : Z :=
  u32 (min (w_len v) (u32 (FLASH_PAGESIZE - w_page_offset v))).

Definition write_next (v : write_vars) (retlen : Z) : write_vars :=
  mk_write_vars (ulong (w_to v + write_page_size v))
                (ulong (w_len v - write_page_size v))
                0 retlen (w_buf v + write_page_size v).

(** The page programs of a write of [rem] bytes to address [to], in the
    words of the specification: a chunk is min(remaining, 256 - (to mod
    256)) bytes, and a chunk that another one follows ends on a page
    boundary.  [off] is the chunk's place in the caller's buffer. *)
Fixpoint page_split (c : chip_info) (to rem off : Z) (l : list (Z * Z * Z))
    : Prop :=
  match l with
  | [] => True
  | (a, o, n) :: l' =>
      a = wire c to /\ o = off /\
      n = Z.min rem (FLASH_PAGESIZE - to mod FLASH_PAGESIZE) /\
      0 < n /\
      (l' <> [] -> (to + n) mod FLASH_PAGESIZE = 0) /\
      page_split c (to + n) (rem - n) (off + n) l'
  end.

(** The transactions of a read of [rem] bytes from address [addr] on a chip
    with sectors of [ss] bytes, in the words of the specification: a
    transaction is min(remaining, ss - (addr mod ss)) bytes and ends in the
    sector it starts in; the next one starts where it ends. *)
Fixpoint sector_split (c : chip_info) (ss addr rem off : Z)
    (l : list (Z * Z * Z)) : Prop :=
  match l with
  | [] => True
  | (a, o, n) :: l' =>
      a = wire c addr /\ o = off /\
      n = Z.min rem (ss - addr mod ss) /\
      0 < n /\
      (addr + n - 1) / ss = addr / ss /\
      sector_split c ss (addr + n) (rem - n) (off + n) l'
  end.

(** The bytes a list of transfers moves. *)
Definition total (l : list (Z * Z * Z)) : Z :=
  fold_right (fun x s => snd x + s) 0 l.

(** A catalog row answers to the identification bytes: same manufacturer,
    and the same JEDEC id or the same family. *)
Definition id_matches (buf0 jedec : Z) (row : chip_info) : Prop :=
  id row = buf0 /\
  (jedec_id row = jedec \/
   Z.land (jedec_id row) 0xFFFF0000 = Z.land jedec 0xFFFF0000).

(** Two rows carry the same (manufacturer, JEDEC id) pair. *)
Definition same_ids (r1 r2 : chip_info) : bool :=
  (id r1 =? id r2) && (jedec_id r1 =? jedec_id r2).

Definition Q_eqb (x y : Q) : bool :=
  (Qnum x =? Qnum y) && (Qden x =? Qden y)%positive.

(** Two rows describe the same part under two names. *)
Definition same_part (r1 r2 : chip_info) : bool :=
  (sector_size r1 =? sector_size r2) && (n_sectors r1 =? n_sectors r2)
  && (addr4b r1 =? addr4b r2)
  && Q_eqb (vcc_min r1) (vcc_min r2) && Q_eqb (vcc_max r1) (vcc_max r2).

(** ** Further vocabulary

    What the properties beyond the claims speak of. *)

(** The state of chip select after a trace that starts with chip select in
    state [low], if the trace keeps the discipline: select is asserted only
    when released and released only when asserted, a byte or block transfer
    happens only while it is asserted, and the driver sleeps only while it
    is released. *)
Fixpoint select (low : bool) (d : trace) : option bool :=
  match d with
  | [] => Some low
  | Chip_Select_Low :: d' => if low then None else select true d'
  | Chip_Select_High :: d' => if low then select false d' else None
  | usleep _ :: d' => if low then None else select false d'
  | _ :: d' => if low then select true d' else None
  end.

(** The trace keeps the discipline and leaves chip select released. *)
Definition scoped (d : trace) : Prop := select false d = Some false.

(** A computation that takes chip select from [b] to [b'], whatever the
    history and whatever the transport answers. *)
Definition selects {A} (b b' : bool) (m : M A) : Prop :=
  forall h, select b (snd (m h)) = Some b'.

(** The microseconds the driver sleeps in a trace. *)
Fixpoint slept (d : trace) : Z :=
  match d with
  | [] => 0
  | usleep us :: d' => us + slept d'
  | _ :: d' => slept d'
  end.

(** One status write, as it appears on the bus. *)
Definition write_sr_events (val : Z) : trace :=
  [Chip_Select_Low; Write_One_Byte OPCODE_WRSR; Write_NByte (FromLocal val) 1;
   Chip_Select_High].

(** Two rows of one manufacturer and one family: the same id and the same
    upper 16 bits of the JEDEC id. *)
Definition same_family (r1 r2 : chip_info) : bool :=
  (id r1 =? id r2) &&
  (Z.land (jedec_id r1) 0xffff0000 =? Z.land (jedec_id r2) 0xffff0000).

(** Row [i] of the catalog stands behind an earlier row of its manufacturer
    and family. *)
Definition shadowed (i : nat) : bool :=
  match nth_error chips_data i with
  | Some r => existsb (same_family r) (firstn i chips_data)
  | None => false
  end.

(** The five identification bytes of a part that answers with the ids of a
    row: the manufacturer id, then the JEDEC id, most significant byte
    first. *)
Definition id_bytes (r : chip_info) : list Z :=
  [id r;
   Z.land (Z.shiftr (jedec_id r) 24) 0xff;
   Z.land (Z.shiftr (jedec_id r) 16) 0xff;
   Z.land (Z.shiftr (jedec_id r) 8) 0xff;
   Z.land (jedec_id r) 0xff].

Definition option_nat_eqb (a b : option nat) : bool :=
  match a, b with
  | Some x, Some y => Nat.eqb x y
  | None, None => true
  | _, _ => false
  end.

(** The geometry a row of the catalog may have: sectors of 64 KiB, 1 to
    1024 of them, and 4-byte addresses exactly when the part is larger than
    16 MiB. *)
Definition geometry_ok (c : chip_info) : bool :=
  (sector_size c =? 64 * 1024)
  && (1 <=? n_sectors c) && (n_sectors c <=? 1024)
  && Bool.eqb (truthy (addr4b c)) (2 ^ 24 <? sector_size c * n_sectors c).

(** The row a part is detected as when it answers with the ids of row
    [r]. *)
Definition detected_as (r : chip_info) : option chip_info :=
  match fst (chip_prob (T_id (id_bytes r)) []) with
  | Some i => nth_error chips_data i
  | None => None
  end.

(** A part of the catalog is detected with its own geometry and supply
    range, or it is one of the two AMIC rows that are not. *)
Definition detected_ok (r : chip_info) : bool :=
  match detected_as r with
  | Some row =>
      same_family r row
      && (same_part r row
          || String.eqb (name r) "A25L40PU" || String.eqb (name r) "A25L40PT")
  | None => false
  end.

(** The verbs of a trace: the opcodes of its commands other than the reads
    and writes of the status register. *)
Definition verbs (d : trace) : list Z :=
  filter (fun op => negb ((op =? OPCODE_RDSR) || (op =? OPCODE_WRSR)))
         (opcodes d).

(** The controller reports success for every single byte it sends. *)
Definition byte_accepting (T : transport) : Prop :=
  forall h b, write_one_byte T h b = 0.

(** The verbs of an addressing-mode switch that goes through: the bank
    register write and read-back on Spansion, else B7 to enter and E9 to
    leave, with write enable and a write to register C5 after E9 on
    Winbond. *)
Definition mode_verbs (c : chip_info) (enable : bool) : list Z :=
  if id c =? 0x1 then [OPCODE_BRWR; OPCODE_BRRD]
  else if enable then [0xb7]
  else if id c =? 0xef then [0xe9; OPCODE_WREN; 0xc5]
  else [0xe9].

(** The mode switch around an addressed command: none on a chip with
    3-byte addresses. *)
Definition bracket (c : chip_info) (enable : bool) : list Z :=
  if truthy (addr4b c) then mode_verbs c enable else [].

(** The transport accepts the block write of the first [m] page programs
    that follow history [h] and refuses every later one. *)
Definition accepts_first (T : transport) (h : trace) (m : nat) : Prop :=
  forall h' src n,
    write_nbyte T (h ++ h') src n = 0 <-> (length (page_programs h') < m)%nat.

(** The bytes the first [m] chunks of a write of [len] bytes to [to] hold:
    a chunk is min(remaining, 256 - (to mod 256)) bytes. *)
Fixpoint written (m : nat) (to len : Z) : Z :=
  match m with
  | O => 0
  | S m' =>
      let n := Z.min len (FLASH_PAGESIZE - to mod FLASH_PAGESIZE) in
      n + written m' (to + n) (len - n)
  end.

(** The transfers cover the caller's buffer from offset [start] on, one
    after the other, without gap or overlap. *)
Fixpoint tiles (start : Z) (l : list (Z * Z * Z)) : Prop :=
  match l with
  | [] => True
  | (_, o, n) :: l' => o = start /\ 0 < n /\ tiles (start + n) l'
  end.

(** ** Proof tools *)

Ltac prim :=
  unfold bind, ret, SPI_CONTROLLER_Chip_Select_Low,
    SPI_CONTROLLER_Chip_Select_High, SPI_CONTROLLER_Write_One_Byte,
    SPI_CONTROLLER_Read_NByte, SPI_CONTROLLER_Write_NByte, udelay;
  cbn [fst snd app].

Ltac norm_app := repeat first [progress cbn [app] | rewrite <- app_assoc].

Ltac step_bind a d E :=
  match goal with
  | |- context [bind ?m ?k ?h] =>
      change (bind m k h)
        with (fst (k (fst (m h)) (h ++ snd (m h))),
              snd (m h) ++ snd (k (fst (m h)) (h ++ snd (m h))));
      destruct (m h) as [a d] eqn:E; cbv beta; cbn [fst snd]
  end.

(** * Verification *)

(** ** Traces and commands *)

Lemma scan_app (d1 d2 : trace) (cur : option (list event)) :
  scan cur (d1 ++ d2) =
  (fst (scan cur d1) ++ fst (scan (snd (scan cur d1)) d2),
   snd (scan (snd (scan cur d1)) d2)).
Proof.
  revert cur.
  induction d1 as [|e d1 IH]; intros cur; simpl.
  - destruct (scan cur d2); reflexivity.
  - destruct e, cur; simpl; rewrite ?IH; reflexivity.
Qed.

Lemma commands_app (d1 d2 : trace) :
  balanced d1 -> commands (d1 ++ d2) = commands d1 ++ commands d2.
Proof.
  unfold balanced, commands. intros H.
  rewrite scan_app, H. reflexivity.
Qed.

Lemma balanced_app (d1 d2 : trace) :
  balanced d1 -> balanced d2 -> balanced (d1 ++ d2).
Proof.
  unfold balanced. intros H1 H2.
  rewrite scan_app, H1. exact H2.
Qed.

Lemma framed_nil (P : list event -> Prop) : framed P [].
Proof. split; [reflexivity | constructor]. Qed.

Lemma framed_app (P : list event -> Prop) (d1 d2 : trace) :
  framed P d1 -> framed P d2 -> framed P (d1 ++ d2).
Proof.
  intros [B1 F1] [B2 F2]. split.
  - apply balanced_app; assumption.
  - rewrite commands_app by assumption. apply Forall_app. split; assumption.
Qed.

Lemma framed_weaken (P Q : list event -> Prop) (d : trace) :
  (forall f, P f -> Q f) -> framed P d -> framed Q d.
Proof.
  intros HPQ [B F]. split; [assumption|].
  eapply Forall_impl; eauto.
Qed.

Lemma framed_usleep (P : list event -> Prop) (us : Z) (d : trace) :
  framed P d -> framed P (usleep us :: d).
Proof. intros H. exact H. Qed.

(** What the observers see in a trace that holds only sequencer commands. *)
Lemma flat_map_nil {A B} (g : A -> list B) (l : list A) :
  Forall (fun a => g a = []) l -> flat_map g l = [].
Proof.
  induction 1 as [|a l Ha _ IH]; simpl; [reflexivity|].
  rewrite Ha, IH. reflexivity.
Qed.

Lemma control_opcode (f : list event) (op : Z) :
  is_control f = true ->
  In op (opcode_of f) ->
  In op [OPCODE_WREN; OPCODE_WRDI; OPCODE_RDSR; OPCODE_WRSR;
         OPCODE_BRRD; OPCODE_BRWR; 0xb7; 0xe9; 0xc5].
Proof.
  destruct f as [|[] f]; simpl; try discriminate; try tauto.
  intros H [<-|[]].
  repeat match type of H with
         | (?a =? ?b) || _ = true =>
             destruct (Z.eqb_spec a b) as [->|_]; [simpl; tauto|simpl in H]
         end.
  discriminate.
Qed.

Lemma control_not_addressed (f : list event) :
  is_control f = true ->
  sector_erase_of f = [] /\ page_program_of f = [] /\ read_of f = [].
Proof.
  intros H.
  destruct f as [|e f]; [discriminate|].
  destruct e; try discriminate.
  assert (Hin : In data [OPCODE_WREN; OPCODE_WRDI; OPCODE_RDSR; OPCODE_WRSR;
                          OPCODE_BRRD; OPCODE_BRWR; 0xb7; 0xe9; 0xc5])
    by (apply (control_opcode (Write_One_Byte data :: f)); simpl; auto).
  simpl in Hin.
  repeat (destruct Hin as [<-|Hin]; [repeat split; reflexivity|]).
  contradiction.
Qed.

Lemma quiet_sector_erases (d : trace) : quiet d -> sector_erases d = [].
Proof.
  intros [_ F]. apply flat_map_nil.
  eapply Forall_impl; [|exact F]. intros f Hf.
  apply control_not_addressed, Hf.
Qed.

Lemma quiet_page_programs (d : trace) : quiet d -> page_programs d = [].
Proof.
  intros [_ F]. apply flat_map_nil.
  eapply Forall_impl; [|exact F]. intros f Hf.
  apply control_not_addressed, Hf.
Qed.

Lemma quiet_reads (d : trace) : quiet d -> reads d = [].
Proof.
  intros [_ F]. apply flat_map_nil.
  eapply Forall_impl; [|exact F]. intros f Hf.
  apply control_not_addressed, Hf.
Qed.

Lemma quiet_opcodes (d : trace) (op : Z) :
  quiet d -> In op (opcodes d) ->
  In op [OPCODE_WREN; OPCODE_WRDI; OPCODE_RDSR; OPCODE_WRSR;
         OPCODE_BRRD; OPCODE_BRWR; 0xb7; 0xe9; 0xc5].
Proof.
  intros [_ F] Hin. unfold opcodes in Hin.
  apply in_flat_map in Hin. destruct Hin as [f [Hf Hop]].
  rewrite Forall_forall in F.
  eapply control_opcode; eauto.
Qed.

Lemma bind_run {A B} (m : M A) (k : A -> M B) (h : trace) (a : A) (d : trace) :
  m h = (a, d) ->
  bind m k h = (fst (k a (h ++ d)), d ++ snd (k a (h ++ d))).
Proof. intros E. unfold bind. rewrite E. reflexivity. Qed.

Lemma sector_erases_app (d1 d2 : trace) :
  balanced d1 -> sector_erases (d1 ++ d2) = sector_erases d1 ++ sector_erases d2.
Proof.
  intros B. unfold sector_erases. rewrite commands_app by assumption.
  apply flat_map_app.
Qed.

Lemma page_programs_app (d1 d2 : trace) :
  balanced d1 -> page_programs (d1 ++ d2) = page_programs d1 ++ page_programs d2.
Proof.
  intros B. unfold page_programs. rewrite commands_app by assumption.
  apply flat_map_app.
Qed.

Lemma reads_app (d1 d2 : trace) :
  balanced d1 -> reads (d1 ++ d2) = reads d1 ++ reads d2.
Proof.
  intros B. unfold reads. rewrite commands_app by assumption.
  apply flat_map_app.
Qed.

Lemma opcodes_app (d1 d2 : trace) :
  balanced d1 -> opcodes (d1 ++ d2) = opcodes d1 ++ opcodes d2.
Proof.
  intros B. unfold opcodes. rewrite commands_app by assumption.
  apply flat_map_app.
Qed.

(** ** The command sequencer

    What each elementary verb puts on the bus, and what it returns, for an
    arbitrary transport. *)

Section Sequencer.
Variable T : transport.

Lemma snor_write_enable_run h :
  snor_write_enable T h =
  (tt, [Chip_Select_Low; Write_One_Byte OPCODE_WREN; Chip_Select_High]).
Proof. reflexivity. Qed.

Lemma snor_write_disable_run h :
  snor_write_disable T h =
  (tt, [Chip_Select_Low; Write_One_Byte OPCODE_WRDI; Chip_Select_High]).
Proof. reflexivity. Qed.

Lemma snor_read_sr_run val h :
  snor_read_sr T val h =
  ((fst (sr_answer T h), stored val (snd (sr_answer T h))), read_sr_events).
Proof.
  unfold snor_read_sr, sr_answer; prim. rewrite <- app_assoc. cbn [app].
  destruct (read_nbyte _ _ _ _) as [rv data]. cbn.
  unfold truthy. destruct (Z.eqb_spec rv 0) as [->|]; reflexivity.
Qed.

Lemma snor_write_sr_trace val h :
  snd (snor_write_sr T val h) =
  [Chip_Select_Low; Write_One_Byte OPCODE_WRSR; Write_NByte (FromLocal val) 1;
   Chip_Select_High].
Proof.
  unfold snor_write_sr; prim. destruct (truthy _); reflexivity.
Qed.

Lemma snor_read_rg_trace code val h :
  snd (snor_read_rg T code val h) =
  [Chip_Select_Low; Write_One_Byte code; Read_NByte ToLocal 1;
   Chip_Select_High].
Proof.
  unfold snor_read_rg; prim. destruct (truthy _); reflexivity.
Qed.

Lemma snor_write_rg_trace code val h :
  snd (snor_write_rg T code val h) =
  [Chip_Select_Low; Write_One_Byte code; Write_NByte (FromLocal val) 1;
   Chip_Select_High].
Proof.
  unfold snor_write_rg; prim. destruct (truthy _); reflexivity.
Qed.

Lemma scan_open (d : trace) (f acc : list event) :
  plain f = true ->
  scan (Some acc) (f ++ Chip_Select_High :: d) =
  ((acc ++ f) :: fst (scan None d), snd (scan None d)).
Proof.
  revert acc. induction f as [|e f IH]; intros acc Hf; cbn [app scan].
  - rewrite app_nil_r. reflexivity.
  - cbn in Hf. apply andb_prop in Hf. destruct Hf as [He Hf].
    destruct e; try discriminate; rewrite IH by assumption;
      rewrite <- app_assoc; reflexivity.
Qed.

Lemma commands_command (f : list event) (d : trace) :
  plain f = true ->
  commands (Chip_Select_Low :: f ++ Chip_Select_High :: d) = f :: commands d.
Proof.
  intros Hf. unfold commands. cbn [scan]. rewrite scan_open by assumption.
  reflexivity.
Qed.

Lemma balanced_command (f : list event) (d : trace) :
  plain f = true ->
  balanced d -> balanced (Chip_Select_Low :: f ++ Chip_Select_High :: d).
Proof.
  intros Hf B. unfold balanced. cbn [scan]. rewrite scan_open by assumption.
  exact B.
Qed.

Lemma framed_command (P : list event -> Prop) (f : list event) (d : trace) :
  plain f = true -> P f -> framed P d ->
  framed P (Chip_Select_Low :: f ++ Chip_Select_High :: d).
Proof.
  intros Hf Pf [B F]. split.
  - apply balanced_command; assumption.
  - rewrite commands_command by assumption. constructor; assumption.
Qed.

Lemma quiet_command (f : list event) (d : trace) :
  plain f = true ->
  is_control f = true ->
  quiet d ->
  quiet (Chip_Select_Low :: f ++ Chip_Select_High :: d).
Proof. exact (framed_command (fun f => is_control f = true) f d). Qed.

Lemma ready_at_S h sr k :
  ready_at T h sr (S k) <->
  (0 <= fst (sr_answer T h) /\
   Z.land (stored sr (snd (sr_answer T h))) SR_BUSY <> 0) /\
  ready_at T (h ++ read_sr_events ++ [usleep 500])
           (stored sr (snd (sr_answer T h))) k.
Proof.
  unfold ready_at, poll_ok, poll_clear. split.
  - intros (Hok & Hcl & Hj). split.
    + apply (Hj O). lia.
    + split; [exact Hok|]. split; [exact Hcl|].
      intros j Hlt. apply (Hj (S j)). lia.
  - intros ((H0 & H0') & Hok & Hcl & Hj).
    split; [exact Hok|]. split; [exact Hcl|].
    intros [|j] Hlt; [split; assumption|].
    apply Hj. lia.
Qed.

Lemma snor_wait_ready_loop_spec (n : nat) : forall (sr : Z) (h : trace),
  let r := snor_wait_ready_loop T n sr h in
  (fst r = 0 <-> exists k, (k < n)%nat /\ ready_at T h sr k) /\
  (fst r = 0 \/ fst r = -1) /\
  balanced (snd r) /\
  exists m, (m <= n)%nat /\ commands (snd r) = repeat read_sr_command m.
Proof.
  induction n as [|n IH]; intros sr h; cbn zeta.
  - cbn. split; [|split; [|split]].
    + split; [discriminate|]. intros [k [Hk _]]. lia.
    + right; reflexivity.
    + reflexivity.
    + exists O. split; [lia|reflexivity].
  - cbn [snor_wait_ready_loop].
    rewrite (bind_run _ _ _ _ _ (snor_read_sr_run sr h)). cbn [fst snd].
    set (rv := fst (sr_answer T h)).
    set (sr' := stored sr (snd (sr_answer T h))).
    destruct (Z.ltb_spec rv 0) as [Hneg|Hok].
    + cbn. split; [|split; [|split]].
      * split; [discriminate|].
        intros [[|k] [_ Hr]].
        -- destruct Hr as [Hr _]. unfold poll_ok in Hr. cbn in Hr. fold rv in Hr. lia.
        -- apply ready_at_S in Hr. fold rv in Hr. lia.
      * right; reflexivity.
      * reflexivity.
      * exists 1%nat. split; [lia|reflexivity].
    + unfold truthy. rewrite negb_involutive.
      change (Z.lor SR_WIP (Z.lor SR_EPE SR_WEL)) with SR_BUSY.
      destruct (Z.eqb_spec (Z.land sr' SR_BUSY) 0) as [Hclear|Hbusy].
      * cbn. split; [|split; [|split]].
        -- split; [|reflexivity]. intros _. exists O. split; [lia|].
           split; [exact Hok|]. split; [exact Hclear|]. intros j Hj; lia.
        -- left; reflexivity.
        -- reflexivity.
        -- exists 1%nat. split; [lia|reflexivity].
      * rewrite (bind_run _ _ _ _ _ (eq_refl : udelay 500 _ = (tt, [usleep 500]))).
        rewrite <- app_assoc.
        specialize (IH sr' (h ++ read_sr_events ++ [usleep 500])).
        cbn zeta in IH.
        destruct (snor_wait_ready_loop T n sr' _) as [rv' d'].
        cbn [fst snd] in *.
        destruct IH as (IH1 & IH2 & IH3 & m & Hm & IH4).
        split; [|split; [|split]].
        -- rewrite IH1. split.
           ++ intros [k [Hk Hr]]. exists (S k). split; [lia|].
              apply ready_at_S. split; [split; assumption|assumption].
           ++ intros [[|k] [Hk Hr]].
              ** destruct Hr as (_ & Hc & _). unfold poll_clear in Hc.
                 cbn in Hc. contradiction.
              ** apply ready_at_S in Hr. exists k. split; [lia|apply Hr].
        -- exact IH2.
        -- exact IH3.
        -- exists (S m). split; [lia|].
           unfold commands in *. cbn. rewrite IH4. reflexivity.
Qed.

Lemma snor_wait_ready_spec (sleep_ms : Z) (h : trace) :
  let r := snor_wait_ready T sleep_ms h in
  (fst r = 0 <->
   exists k, (k < Z.to_nat ((sleep_ms + 1) * 1000))%nat /\ ready_at T h 0 k) /\
  (fst r = 0 \/ fst r = -1) /\
  balanced (snd r) /\
  exists m, (m <= Z.to_nat ((sleep_ms + 1) * 1000))%nat /\
            commands (snd r) = repeat read_sr_command m.
Proof. apply snor_wait_ready_loop_spec. Qed.

Lemma snor_wait_ready_quiet (sleep_ms : Z) (h : trace) :
  quiet (snd (snor_wait_ready T sleep_ms h)).
Proof.
  destruct (snor_wait_ready_spec sleep_ms h) as (_ & _ & B & m & _ & C).
  split; [exact B|]. rewrite C. apply Forall_forall.
  intros f Hf. apply repeat_spec in Hf. subst f. reflexivity.
Qed.

Lemma snor_wait_ready_responsive (sleep_ms : Z) (h : trace) :
  responsive T -> 1 <= sleep_ms ->
  fst (snor_wait_ready T sleep_ms h) = 0.
Proof.
  intros R Hms. apply snor_wait_ready_spec.
  destruct (R h) as [k [Hk Hr]]. exists k. split; [|exact Hr].
  assert (2000 <= Z.to_nat ((sleep_ms + 1) * 1000))%nat by lia. lia.
Qed.

Lemma snor_unprotect_quiet (h : trace) : quiet (snd (snor_unprotect T h)).
Proof.
  unfold snor_unprotect.
  rewrite (bind_run _ _ _ _ _ (snor_read_sr_run 0 h)). cbn [fst snd].
  apply framed_app.
  - unfold read_sr_events. apply (quiet_command [_; _]); [reflexivity..|apply framed_nil].
  - destruct (_ <? 0); [apply framed_nil|].
    unfold when. destruct (truthy _).
    + unfold bind; cbn [fst snd ret]. rewrite snor_write_sr_trace.
      rewrite !app_nil_r.
      apply (quiet_command [_; _]); [reflexivity..|apply framed_nil].
    + apply framed_nil.
Qed.

Lemma snor_unprotect_starts (h : trace) :
  exists d, snd (snor_unprotect T h) = read_sr_events ++ d.
Proof.
  unfold snor_unprotect.
  rewrite (bind_run _ _ _ _ _ (snor_read_sr_run 0 h)). cbn [fst snd].
  eexists. reflexivity.
Qed.

Variable c : chip_info.

Lemma send_address_run (opcode addr : Z) (h : trace) :
  send_address T c opcode addr h =
  (tt, Write_One_Byte opcode :: address_events c addr).
Proof.
  unfold send_address, address_events, when.
  destruct (truthy (addr4b c)); reflexivity.
Qed.

Lemma byte_of (a n : Z) :
  0 <= n -> Z.land (Z.shiftr a n) 0xff = (a / 2 ^ n) mod 256.
Proof.
  intros Hn. change 0xff with (Z.ones 8).
  rewrite Z.land_ones by lia. rewrite Z.shiftr_div_pow2 by lia. reflexivity.
Qed.

Lemma be_value_address (addr : Z) (rest : list event) :
  match rest with Write_One_Byte _ :: _ => False | _ => True end ->
  be_value 0 (address_events c addr ++ rest) = (wire c addr, rest).
Proof.
  intros Hrest.
  assert (E0 : Z.land addr 0xff = addr mod 256).
  { change 0xff with (Z.ones 8). apply Z.land_ones. lia. }
  pose proof (byte_of addr 8 ltac:(lia)) as E1.
  pose proof (byte_of addr 16 ltac:(lia)) as E2.
  pose proof (byte_of addr 24 ltac:(lia)) as E3.
  assert (D1 : addr / 2 ^ 16 = addr / 2 ^ 8 / 256)
    by (rewrite Z.div_div by lia; reflexivity).
  assert (D2 : addr / 2 ^ 24 = addr / 2 ^ 16 / 256)
    by (rewrite Z.div_div by lia; reflexivity).
  assert (D3 : addr / 2 ^ 32 = addr / 2 ^ 24 / 256)
    by (rewrite Z.div_div by lia; reflexivity).
  pose proof (Z.div_mod addr 256 ltac:(lia)) as M0.
  pose proof (Z.div_mod (addr / 2 ^ 8) 256 ltac:(lia)) as M1.
  pose proof (Z.div_mod (addr / 2 ^ 16) 256 ltac:(lia)) as M2.
  pose proof (Z.div_mod (addr / 2 ^ 24) 256 ltac:(lia)) as M3.
  change (2 ^ 8) with 256 in *.
  unfold address_events, wire.
  destruct (truthy (addr4b c)); cbn [app be_value];
    rewrite ?E0, ?E1, ?E2, ?E3.
  - assert (V : (((0 * 256 + (addr / 2 ^ 24) mod 256) * 256
                  + (addr / 2 ^ 16) mod 256) * 256
                 + (addr / 256) mod 256) * 256 + addr mod 256
                = addr mod 2 ^ 32).
    { rewrite (Z.mod_eq addr (2 ^ 32)) by lia. lia. }
    rewrite <- V. destruct rest as [|[] rest]; try reflexivity. contradiction.
  - assert (V : ((0 * 256 + (addr / 2 ^ 16) mod 256) * 256
                 + (addr / 256) mod 256) * 256 + addr mod 256
                = addr mod 2 ^ 24).
    { rewrite (Z.mod_eq addr (2 ^ 24)) by lia. lia. }
    rewrite <- V. destruct rest as [|[] rest]; try reflexivity. contradiction.
Qed.

Lemma address_events_plain (addr : Z) :
  plain (address_events c addr) = true.
Proof. unfold address_events. destruct (truthy (addr4b c)); reflexivity. Qed.

Lemma snor_4byte_mode_quiet (enable : Z) (h : trace) :
  quiet (snd (snor_4byte_mode T c enable h)).
Proof.
  unfold snor_4byte_mode.
  unfold bind at 1. cbn [fst snd].
  apply framed_app; [apply snor_wait_ready_quiet|].
  destruct (truthy (fst _)); [apply framed_nil|].
  destruct (id c =? 1).
  - unfold bind; cbn [fst snd].
    rewrite snor_write_rg_trace, snor_read_rg_trace.
    destruct (negb _); cbn [ret snd app];
      apply (quiet_command [_; _]); try reflexivity;
      apply (quiet_command [_; _]); try reflexivity; apply framed_nil.
  - unfold bind at 1 2 3. 
    unfold SPI_CONTROLLER_Chip_Select_Low, SPI_CONTROLLER_Chip_Select_High,
      SPI_CONTROLLER_Write_One_Byte. cbn [fst snd app].
    destruct (truthy (write_one_byte _ _ _)).
    + destruct (truthy enable); apply (quiet_command [_]); try reflexivity; apply framed_nil.
    + unfold when.
      destruct (negb (truthy enable) && _) eqn:E.
      * unfold bind; cbn [fst snd ret]. rewrite snor_write_rg_trace.
        cbn [snor_write_enable bind fst snd app SPI_CONTROLLER_Chip_Select_Low SPI_CONTROLLER_Chip_Select_High
             SPI_CONTROLLER_Write_One_Byte].
        destruct (truthy enable); [discriminate|].
        apply (quiet_command [_]); try reflexivity.
        apply (quiet_command [_]); try reflexivity.
        apply (quiet_command [_; _]); try reflexivity. apply framed_nil.
      * unfold bind; cbn [fst snd ret app].
        destruct (truthy enable); apply (quiet_command [_]); try reflexivity; apply framed_nil.
Qed.

Lemma when_quiet {A} (b : bool) (m : M A) (h : trace) :
  (forall h', quiet (snd (m h'))) -> quiet (snd (when b m h)).
Proof.
  intros Hm. unfold when. destruct b; [|apply framed_nil].
  unfold bind, ret; cbn [fst snd]. rewrite app_nil_r. apply Hm.
Qed.

Lemma snor_erase_sector_spec (offset : Z) (h : trace) :
  let r := snor_erase_sector T c offset h in
  (fst (snor_wait_ready T 950 h) <> 0 ->
   fst r = -1 /\ snd r = snd (snor_wait_ready T 950 h)) /\
  (fst (snor_wait_ready T 950 h) = 0 ->
   fst r = 0 /\
   exists q1 q2, quiet q1 /\ quiet q2 /\
                 snd r = q1 ++ sector_erase_events c offset ++ q2).
Proof.
  cbn zeta. unfold snor_erase_sector.
  pose proof (snor_wait_ready_quiet 950 h) as Q0.
  step_bind rv d0 E0.
  unfold truthy. destruct (Z.eqb_spec rv 0) as [->|Hrv]; cbn [negb].
  - split; [intros H; contradiction|]. intros _.
    step_bind u1 q1 E1.
    assert (Qq1 : quiet q1).
    { replace q1 with (snd (when (truthy (addr4b c)) (snor_4byte_mode T c 1) (h ++ d0)))
        by (unfold truthy; rewrite E1; reflexivity).
      apply when_quiet, snor_4byte_mode_quiet. }
    rewrite (bind_run _ _ _ _ _ (snor_write_enable_run _)).
    rewrite (bind_run _ _ _ _ _ (eq_refl : SPI_CONTROLLER_Chip_Select_Low _ = (tt, [Chip_Select_Low]))).
    rewrite (bind_run _ _ _ _ _ (send_address_run _ _ _)).
    rewrite (bind_run _ _ _ _ _ (eq_refl : SPI_CONTROLLER_Chip_Select_High _ = (tt, [Chip_Select_High]))).
    cbn [fst snd].
    step_bind rv2 q2 E2.
    assert (Qq2 : quiet q2).
    { pose proof (snor_wait_ready_quiet 950 ((((((h ++ d0) ++ q1) ++
         [Chip_Select_Low; Write_One_Byte OPCODE_WREN; Chip_Select_High]) ++
         [Chip_Select_Low]) ++ Write_One_Byte OPCODE_SE :: address_events c offset) ++
         [Chip_Select_High])) as Q.
      rewrite E2 in Q. exact Q. }
    step_bind u3 q3 E3.
    assert (Qq3 : quiet q3).
    { match type of E3 with when ?b ?m ?hh = _ =>
        pose proof (when_quiet b m hh (snor_4byte_mode_quiet 0)) as Q end.
      rewrite E3 in Q. exact Q. }
    cbn [ret fst snd]. split; [reflexivity|].
    exists (d0 ++ q1 ++ [Chip_Select_Low; Write_One_Byte OPCODE_WREN; Chip_Select_High]).
    exists (q2 ++ q3). split; [|split].
    + apply framed_app; [assumption|]. apply framed_app; [assumption|].
      apply (quiet_command [_]); try reflexivity. apply framed_nil.
    + apply framed_app; assumption.
    + unfold sector_erase_events. rewrite !app_nil_r.
      rewrite <- !app_assoc. cbn [app]. rewrite <- !app_assoc. reflexivity.
  - split; [|intros H; contradiction]. intros _. cbn.
    rewrite app_nil_r. split; reflexivity.
Qed.

Lemma sector_erase_events_seen (offset : Z) (q1 q2 : trace) :
  quiet q1 -> quiet q2 ->
  balanced (q1 ++ sector_erase_events c offset ++ q2) /\
  commands (q1 ++ sector_erase_events c offset ++ q2) =
    commands q1 ++ (Write_One_Byte OPCODE_SE :: address_events c offset)
                :: commands q2.
Proof.
  intros Q1 Q2.
  assert (P : plain (Write_One_Byte OPCODE_SE :: address_events c offset) = true)
    by (cbn; apply address_events_plain).
  unfold sector_erase_events. cbn [app]. rewrite <- app_assoc. cbn [app].
  split.
  - apply balanced_app; [apply Q1|].
    apply (balanced_command (_ :: _)); [exact P|apply Q2].
  - rewrite commands_app by apply Q1.
    pose proof (commands_command _ q2 P) as C. cbn [app] in C.
    rewrite C. reflexivity.
Qed.

Lemma sector_erase_events_erases (offset : Z) (q1 q2 : trace) :
  quiet q1 -> quiet q2 ->
  sector_erases (q1 ++ sector_erase_events c offset ++ q2) = [wire c offset].
Proof.
  intros Q1 Q2. unfold sector_erases.
  destruct (sector_erase_events_seen offset q1 q2 Q1 Q2) as [_ ->].
  rewrite flat_map_app. cbn [flat_map].
  fold (sector_erases q1). fold (sector_erases q2).
  rewrite (quiet_sector_erases q1 Q1), (quiet_sector_erases q2 Q2).
  cbn [app sector_erase_of]. change (OPCODE_SE =? OPCODE_SE) with true. cbn match.
  pose proof (be_value_address offset [] I) as E. rewrite app_nil_r in E.
  rewrite E. reflexivity.
Qed.

Lemma ulong_idem (x : Z) : 0 <= x < 2 ^ 64 -> ulong x = x.
Proof. intros H. unfold ulong. apply Z.mod_small. exact H. Qed.

Lemma ulong_range (x : Z) : 0 <= ulong x < 2 ^ 64.
Proof. unfold ulong. apply Z.mod_pos_bound. lia. Qed.

Lemma ulong_add_l (x y : Z) : ulong (ulong x + y) = ulong (x + y).
Proof. unfold ulong. apply Zplus_mod_idemp_l. Qed.

Lemma ulong_sub_l (x y : Z) : ulong (ulong x - y) = ulong (x - y).
Proof. unfold ulong. apply Zminus_mod_idemp_l. Qed.

Lemma wire_ulong (x : Z) : wire c (ulong x) = wire c x.
Proof.
  unfold wire, ulong.
  destruct (truthy (addr4b c)).
  - apply Z.mod_mod_divide. exists (2 ^ 32). reflexivity.
  - apply Z.mod_mod_divide. exists (2 ^ 40). reflexivity.
Qed.

(** After [n] completed iterations the erase loop has advanced by exactly
    [n] sectors and has erased at each stride. *)
Lemma snor_erase_loop_running (n : nat) :
  forall (offs len : Z) (h : trace) (o l : Z) (d : trace),
  0 <= offs < 2 ^ 64 -> 0 <= len < 2 ^ 64 ->
  snor_erase_loop T c n offs len h = (Running (o, l), d) ->
  o = ulong (offs + Z.of_nat n * sector_size c) /\
  l = ulong (len - Z.of_nat n * sector_size c) /\
  balanced d /\
  sector_erases d =
    map (fun i => wire c (offs + Z.of_nat i * sector_size c)) (seq 0 n).
Proof.
  induction n as [|n IH]; intros offs len h o l d Ho Hl E.
  - cbn in E. injection E as <- <- <-.
    rewrite Z.add_0_r, Z.sub_0_r, !ulong_idem by assumption.
    repeat split; reflexivity.
  - cbn [snor_erase_loop] in E.
    destruct (len >? 0); [|discriminate].
    revert E. 
    pose proof (snor_erase_sector_spec offs h) as S. cbn zeta in S.
    step_bind r d1 E1. cbn [fst snd] in S.
    unfold truthy. destruct (Z.eqb_spec r 0) as [->|Hr]; cbn [negb];
      [|discriminate].
    destruct S as [S1 S2].
    destruct (Z.eq_dec (fst (snor_wait_ready T 950 h)) 0) as [W|W];
      [|destruct (S1 W) as [S _]; discriminate].
    destruct (S2 W) as (_ & q1 & q2 & Q1 & Q2 & ->).
    destruct (snor_erase_loop T c n _ _ _) as [res d2] eqn:E2.
    cbn [fst snd]. intros E. injection E as -> <-.
    apply IH in E2; try apply ulong_range.
    destruct E2 as (-> & -> & B2 & SE2).
    rewrite ulong_add_l, ulong_sub_l.
    destruct (sector_erase_events_seen offs q1 q2 Q1 Q2) as [B1 _].
    split; [f_equal; lia|]. split; [f_equal; lia|].
    split; [apply balanced_app; assumption|].
    rewrite sector_erases_app by assumption.
    match goal with
    | |- sector_erases ?x ++ _ = _ =>
        change x with (q1 ++ sector_erase_events c offs ++ q2)
    end.
    rewrite (sector_erase_events_erases offs q1 q2 Q1 Q2).
    rewrite SE2. cbn [seq map app]. f_equal.
    + f_equal. lia.
    + rewrite <- seq_shift, map_map. apply map_ext. intros i.
      rewrite <- wire_ulong, ulong_add_l, wire_ulong. f_equal. lia.
Qed.

Lemma snor_erase_sector_responsive (offset : Z) (h : trace) :
  responsive T -> fst (snor_erase_sector T c offset h) = 0.
Proof.
  intros R. apply snor_erase_sector_spec.
  apply snor_wait_ready_responsive; [assumption|lia].
Qed.

Lemma snor_erase_loop_progress (n : nat) :
  responsive T ->
  forall (offs len : Z) (h : trace),
  0 <= len < 2 ^ 64 ->
  (forall i, (i < n)%nat -> 0 < ulong (len - Z.of_nat i * sector_size c)) ->
  exists s, fst (snor_erase_loop T c n offs len h) = Running s.
Proof.
  intros R. induction n as [|n IH]; intros offs len h Hl Hpos.
  - eexists. reflexivity.
  - cbn [snor_erase_loop].
    assert (H0 : 0 < len).
    { specialize (Hpos 0%nat ltac:(lia)).
      rewrite Z.sub_0_r, ulong_idem in Hpos by assumption. exact Hpos. }
    destruct (Z.gtb_spec len 0) as [_|]; [|lia].
    pose proof (snor_erase_sector_responsive offs h R) as S.
    step_bind r d1 E1. cbn [fst] in S. subst r. cbn [truthy Z.eqb negb].
    apply IH; [apply ulong_range|].
    intros i Hi. rewrite ulong_sub_l.
    specialize (Hpos (S i) ltac:(lia)).
    replace (len - sector_size c - Z.of_nat i * sector_size c)
      with (len - Z.of_nat (S i) * sector_size c) by lia.
    exact Hpos.
Qed.

Lemma snor_erase_loop_no_error (n : nat) :
  responsive T ->
  forall (offs len : Z) (h : trace) (rv : Z),
  fst (snor_erase_loop T c n offs len h) <> Return rv.
Proof.
  intros R. induction n as [|n IH]; intros offs len h rv.
  - discriminate.
  - cbn [snor_erase_loop]. destruct (len >? 0); [|discriminate].
    pose proof (snor_erase_sector_responsive offs h R) as S.
    step_bind r d1 E1. cbn [fst] in S. subst r. cbn [truthy Z.eqb negb].
    apply IH.
Qed.

Lemma quiet_erase_command (d : trace) : quiet d -> framed erase_command d.
Proof. apply framed_weaken. intros f Hf. left. exact Hf. Qed.

Lemma snor_erase_sector_framed (offset : Z) (h : trace) :
  framed erase_command (snd (snor_erase_sector T c offset h)).
Proof.
  destruct (snor_erase_sector_spec offset h) as [S1 S2].
  destruct (Z.eq_dec (fst (snor_wait_ready T 950 h)) 0) as [W|W].
  - destruct (S2 W) as (_ & q1 & q2 & Q1 & Q2 & ->).
    apply framed_app; [apply quiet_erase_command, Q1|].
    unfold sector_erase_events. cbn [app]. rewrite <- app_assoc.
    apply (framed_command erase_command (_ :: _)).
    + cbn. apply address_events_plain.
    + right. reflexivity.
    + apply quiet_erase_command, Q2.
  - destruct (S1 W) as [_ ->].
    apply quiet_erase_command, snor_wait_ready_quiet.
Qed.

Lemma snor_erase_loop_framed (n : nat) :
  forall (offs len : Z) (h : trace),
  framed erase_command (snd (snor_erase_loop T c n offs len h)).
Proof.
  induction n as [|n IH]; intros offs len h.
  - apply framed_nil.
  - cbn [snor_erase_loop]. destruct (len >? 0); [|apply framed_nil].
    pose proof (snor_erase_sector_framed offs h) as F.
    step_bind r d1 E1. cbn [snd] in F.
    apply framed_app; [exact F|].
    destruct (truthy r); [apply framed_nil|apply IH].
Qed.

Lemma erase_command_opcodes (d : trace) (op : Z) :
  framed erase_command d -> In op (opcodes d) ->
  In op [OPCODE_SE; OPCODE_WREN; OPCODE_WRDI; OPCODE_RDSR; OPCODE_WRSR;
         OPCODE_BRRD; OPCODE_BRWR; 0xb7; 0xe9; 0xc5].
Proof.
  intros [_ F] Hin. unfold opcodes in Hin.
  apply in_flat_map in Hin. destruct Hin as [f [Hf Hop]].
  rewrite Forall_forall in F. destruct (F f Hf) as [C|S].
  - right. eapply control_opcode; eauto.
  - rewrite S in Hop. destruct Hop as [<-|[]]. left. reflexivity.
Qed.

Lemma snor_unprotect_opcodes (h : trace) :
  opcodes (snd (snor_unprotect T h)) = [OPCODE_RDSR] \/
  opcodes (snd (snor_unprotect T h)) = [OPCODE_RDSR; OPCODE_WRSR].
Proof.
  unfold snor_unprotect.
  rewrite (bind_run _ _ _ _ _ (snor_read_sr_run 0 h)). cbn [fst snd].
  destruct (_ <? 0); [left; reflexivity|].
  unfold when. destruct (truthy _).
  - right. unfold bind; cbn [fst snd ret]. rewrite snor_write_sr_trace.
    reflexivity.
  - left. reflexivity.
Qed.

Lemma snor_wait_ready_opcodes (sleep_ms : Z) (h : trace) :
  exists m, opcodes (snd (snor_wait_ready T sleep_ms h)) = repeat OPCODE_RDSR m.
Proof.
  destruct (snor_wait_ready_spec sleep_ms h) as (_ & _ & _ & m & _ & C).
  exists m. unfold opcodes. rewrite C.
  clear C. induction m as [|m IH]; [reflexivity|].
  cbn [repeat flat_map]. rewrite IH. reflexivity.
Qed.

End Sequencer.

(** ** snor_erase *)

Section Erase.
Variable T : transport.
Variable c : chip_info.

Lemma full_erase_chip_spec (h : trace) :
  fst (snor_wait_ready T 3 h) = 0 ->
  let r := full_erase_chip T h in
  fst r = 0 /\
  exists m u m',
    opcodes (snd r) =
      repeat OPCODE_RDSR m ++ [OPCODE_WREN] ++ u ++ [OPCODE_BE1]
      ++ repeat OPCODE_RDSR m' ++ [OPCODE_WRDI] /\
    (u = [OPCODE_RDSR] \/ u = [OPCODE_RDSR; OPCODE_WRSR]).
Proof.
  intros W. cbn zeta. unfold full_erase_chip.
  pose proof (snor_wait_ready_quiet T 3 h) as Q0.
  destruct (snor_wait_ready_opcodes T 3 h) as [m O0].
  step_bind rv d0 E0. cbn [fst snd] in *. subst rv. cbn [truthy Z.eqb negb].
  rewrite (bind_run _ _ _ _ _ (snor_write_enable_run _ _)). cbn [fst snd].
  match goal with |- context [bind (snor_unprotect T) _ ?hh] =>
    pose proof (snor_unprotect_quiet T hh) as Qu;
    pose proof (snor_unprotect_opcodes T hh) as Ou end.
  step_bind ru u Eu. cbn [snd] in *.
  rewrite (bind_run _ _ _ _ _ (eq_refl : SPI_CONTROLLER_Chip_Select_Low _ = (tt, [Chip_Select_Low]))).
  rewrite (bind_run _ _ _ _ _ (eq_refl : SPI_CONTROLLER_Write_One_Byte T OPCODE_BE1 _ = (_, [Write_One_Byte OPCODE_BE1]))).
  rewrite (bind_run _ _ _ _ _ (eq_refl : SPI_CONTROLLER_Chip_Select_High _ = (tt, [Chip_Select_High]))).
  cbn [fst snd].
  match goal with |- context [bind (snor_wait_ready T 950) _ ?hh] =>
    pose proof (snor_wait_ready_quiet T 950 hh) as Q2;
    destruct (snor_wait_ready_opcodes T 950 hh) as [m' O2] end.
  step_bind r2 d2 E2. cbn [snd] in *.
  rewrite (bind_run _ _ _ _ _ (snor_write_disable_run _ _)). cbn [fst snd ret].
  split; [reflexivity|].
  exists m, (opcodes u), m'. split; [|exact Ou].
  rewrite !app_nil_r.
  rewrite opcodes_app by apply Q0. rewrite O0. f_equal.
  change ([Chip_Select_Low; Write_One_Byte OPCODE_WREN; Chip_Select_High] ++
          u ++ [Chip_Select_Low] ++ [Write_One_Byte OPCODE_BE1] ++
          [Chip_Select_High] ++ d2 ++
          [Chip_Select_Low; Write_One_Byte OPCODE_WRDI; Chip_Select_High])
    with ([Chip_Select_Low; Write_One_Byte OPCODE_WREN; Chip_Select_High] ++
          u ++ [Chip_Select_Low; Write_One_Byte OPCODE_BE1; Chip_Select_High] ++ d2 ++
          [Chip_Select_Low; Write_One_Byte OPCODE_WRDI; Chip_Select_High]).
  rewrite opcodes_app by reflexivity. f_equal.
  rewrite opcodes_app by apply Qu. f_equal.
  rewrite opcodes_app by reflexivity. f_equal.
  rewrite opcodes_app by apply Q2. rewrite O2. reflexivity.
Qed.

Lemma count_occ_repeat_other (x y : Z) (m : nat) :
  x <> y -> count_occ Z.eq_dec (repeat x m) y = 0%nat.
Proof.
  intros H. induction m as [|m IH]; [reflexivity|].
  cbn [repeat]. rewrite count_occ_cons_neq by exact H. exact IH.
Qed.

(** C3: full-chip erase.  On a chip of non-zero capacity, erase(0,
    capacity) takes the bulk-erase path: once the ready-wait that precedes
    it succeeds, it returns 0 and the opcodes on the bus are status reads,
    write enable, the status read (and write) of unprotect, one bulk erase
    C7, status reads and write disable, so exactly one bulk erase and no
    sector erase.  For every other offset and non-zero length the bulk
    erase opcode never goes out, whatever the transport answers. *)
Theorem full_chip_erase_short_circuit (fuel : nat) (h : trace) :
  capacity c <> 0 ->
  (fst (snor_wait_ready T 3 h) = 0 ->
   let r := snor_erase T c fuel 0 (capacity c) h in
   fst r = Some 0 /\
   (exists m u m',
      opcodes (snd r) =
        repeat OPCODE_RDSR m ++ [OPCODE_WREN] ++ u ++ [OPCODE_BE1]
        ++ repeat OPCODE_RDSR m' ++ [OPCODE_WRDI] /\
      (u = [OPCODE_RDSR] \/ u = [OPCODE_RDSR; OPCODE_WRSR])) /\
   count_occ Z.eq_dec (opcodes (snd r)) OPCODE_BE1 = 1%nat /\
   count_occ Z.eq_dec (opcodes (snd r)) OPCODE_SE = 0%nat) /\
  (forall offs len,
     len <> 0 -> ~ (offs = 0 /\ len = capacity c) ->
     ~ In OPCODE_BE1 (opcodes (snd (snor_erase T c fuel offs len h)))).
Proof.
  intros Hcap. split.
  - intros W. cbn zeta. unfold snor_erase.
    destruct (Z.eqb_spec (capacity c) 0) as [|_]; [contradiction|].
    unfold capacity at 1 3 5 7. rewrite Z.eqb_refl. cbn [truthy Z.eqb negb andb].
    destruct (full_erase_chip_spec h W) as (F & m & u & m' & O & Hu).
    step_bind r d E. cbn [fst snd ret] in *. subst r. rewrite app_nil_r.
    split; [reflexivity|]. split; [exists m, u, m'; split; assumption|].
    rewrite O. rewrite !count_occ_app.
    rewrite !count_occ_repeat_other by discriminate.
    destruct Hu as [-> | ->]; split; reflexivity.
  - intros offs len Hlen Hnot Hin. unfold snor_erase in Hin.
    destruct (Z.eqb_spec len 0) as [|_]; [contradiction|].
    assert (G : negb (truthy offs)
                && (len =? ulong (sector_size c * n_sectors c)) = false).
    { unfold truthy. rewrite negb_involutive.
      destruct (Z.eqb_spec offs 0) as [->|]; [|reflexivity].
      destruct (Z.eqb_spec len (ulong (sector_size c * n_sectors c)));
        [|reflexivity].
      exfalso. apply Hnot. split; [reflexivity|assumption]. }
    rewrite G in Hin.
    pose proof (snor_unprotect_quiet T h) as Qu.
    revert Hin. step_bind ru u Eu. cbn [snd] in Qu.
    match goal with |- context [bind (snor_erase_loop T c fuel offs len) _ ?hh] =>
      pose proof (snor_erase_loop_framed T c fuel offs len hh) as Fl end.
    step_bind o d El. cbn [snd] in Fl.
    assert (E : forall hh, snd (match o with
                 | Exit _ => ret (Some 0)
                 | Return rv => ret (Some rv)
                 | Running _ => ret None
                 end hh) = []) by (intros hh; destruct o; reflexivity).
    rewrite E, app_nil_r. intros Hin.
    assert (F : framed erase_command (u ++ d))
      by (apply framed_app; [apply quiet_erase_command, Qu|exact Fl]).
    pose proof (erase_command_opcodes _ _ F Hin) as H.
    cbn in H. repeat (destruct H as [H|H]; [discriminate|]). exact H.
Qed.

Lemma snor_erase_loop_strides (n : nat) (offs len : Z) (h : trace) :
  responsive T ->
  0 <= offs < 2 ^ 64 -> 0 <= len < 2 ^ 64 ->
  (forall i, (i < n)%nat -> 0 < ulong (len - Z.of_nat i * sector_size c)) ->
  fst (snor_erase_loop T c n offs len h) =
    Running (ulong (offs + Z.of_nat n * sector_size c),
             ulong (len - Z.of_nat n * sector_size c)) /\
  sector_erases (snd (snor_erase_loop T c n offs len h)) =
    map (fun i => wire c (offs + Z.of_nat i * sector_size c)) (seq 0 n).
Proof.
  intros R Ho Hl Hpos.
  destruct (snor_erase_loop_progress T c n R offs len h Hl Hpos) as [[o l] E].
  destruct (snor_erase_loop T c n offs len h) as [res d] eqn:E'.
  cbn [fst snd] in *. subst res.
  destruct (snor_erase_loop_running T c n offs len h o l d Ho Hl E')
    as (-> & -> & _ & S).
  split; [reflexivity|exact S].
Qed.

(** C5: fixed stride of the sector-erase loop.  On a device that becomes
    ready when asked, every iteration erases at the current offset, adds
    sector_size to the offset and subtracts sector_size from the remaining
    length, up to and including the iteration that starts with less than a
    sector left.  For a length that is not a multiple of sector_size that
    subtraction underflows the unsigned counter, the loop goes on, and its
    next erase is at offs + (len / sector_size + 1) * sector_size, at or
    past the end of the requested range. *)
Theorem erase_fixed_stride (offs len : Z) (h : trace) :
  responsive T ->
  0 < sector_size c < 2 ^ 64 ->
  0 <= offs < 2 ^ 64 -> 0 < len < 2 ^ 64 ->
  let ss := sector_size c in
  (forall n : nat,
     (Z.of_nat n - 1) * ss < len ->
     fst (snor_erase_loop T c n offs len h) =
       Running (ulong (offs + Z.of_nat n * ss), ulong (len - Z.of_nat n * ss)) /\
     sector_erases (snd (snor_erase_loop T c n offs len h)) =
       map (fun i => wire c (offs + Z.of_nat i * ss)) (seq 0 n)) /\
  (len mod ss <> 0 ->
   let k := len / ss in
   len - (k + 1) * ss < 0 /\
   ulong (len - (k + 1) * ss) = 2 ^ 64 + (len - (k + 1) * ss) /\
   fst (snor_erase_loop T c (Z.to_nat (k + 2)) offs len h) =
     Running (ulong (offs + (k + 2) * ss), ulong (len - (k + 2) * ss)) /\
   sector_erases (snd (snor_erase_loop T c (Z.to_nat (k + 2)) offs len h)) =
     map (fun i => wire c (offs + Z.of_nat i * ss))
         (seq 0 (Z.to_nat (k + 2))) /\
   offs + len <= offs + (k + 1) * ss).
Proof.
  intros R Hss Ho Hl. cbn zeta.
  assert (Hk : 0 <= len / sector_size c) by (apply Z.div_pos; lia).
  pose proof (Z.div_mod len (sector_size c) ltac:(lia)) as DM.
  pose proof (Z.mod_pos_bound len (sector_size c) ltac:(lia)) as MB.
  split.
  - intros n Hn. apply snor_erase_loop_strides; try assumption; try lia.
    intros i Hi. rewrite ulong_idem; nia.
  - intros Hmod.
    assert (U : ulong (len - (len / sector_size c + 1) * sector_size c)
                = 2 ^ 64 + (len - (len / sector_size c + 1) * sector_size c)).
    { assert (Hx : - 2 ^ 64 <= len - (len / sector_size c + 1) * sector_size c < 0)
        by nia.
      revert Hx. generalize (len - (len / sector_size c + 1) * sector_size c).
      intros x Hx. unfold ulong.
      rewrite <- (Z.mod_add x 1 (2 ^ 64)) by lia.
      rewrite Z.mod_small by lia. lia. }
    split; [nia|]. split; [exact U|].
    assert (S := snor_erase_loop_strides
                   (Z.to_nat (len / sector_size c + 2)) offs len h R Ho
                   ltac:(lia)).
    rewrite Z2Nat.id in S by lia.
    split; [|split]; try apply S; try nia.
    all: intros i Hi.
    all: destruct (Z.eq_dec (Z.of_nat i) (len / sector_size c + 1)) as [->|Hne];
      [rewrite U; nia | rewrite ulong_idem; nia].
Qed.

(** C10: erase checks no bound.  For every offset and length > 0 other
    than the full-chip case, snor_erase goes to the device at once (its
    trace starts with the status read of unprotect); on a device that
    becomes ready when asked it never returns an error and it issues a
    sector erase at offs, offs + sector_size, ... for as long as length
    remains, wherever these addresses lie with respect to the capacity. *)
Theorem erase_has_no_bounds_check (fuel : nat) (offs len : Z) (h : trace) :
  0 <= offs < 2 ^ 64 -> 0 < len < 2 ^ 64 ->
  ~ (offs = 0 /\ len = capacity c) ->
  (exists d, snd (snor_erase T c fuel offs len h) = read_sr_events ++ d) /\
  (responsive T ->
   (fst (snor_erase T c fuel offs len h) = None \/
    fst (snor_erase T c fuel offs len h) = Some 0) /\
   (0 < sector_size c < 2 ^ 64 ->
    (Z.of_nat fuel - 1) * sector_size c < len ->
    sector_erases (snd (snor_erase T c fuel offs len h)) =
      map (fun i => wire c (offs + Z.of_nat i * sector_size c)) (seq 0 fuel))).
Proof.
  intros Ho Hl Hnot. unfold snor_erase.
  destruct (Z.eqb_spec len 0) as [|_]; [lia|].
  assert (G : negb (truthy offs)
              && (len =? ulong (sector_size c * n_sectors c)) = false).
  { unfold truthy. rewrite negb_involutive.
    destruct (Z.eqb_spec offs 0) as [->|]; [|reflexivity].
    destruct (Z.eqb_spec len (ulong (sector_size c * n_sectors c)));
      [|reflexivity].
    exfalso. apply Hnot. split; [reflexivity|assumption]. }
  rewrite G.
  pose proof (snor_unprotect_quiet T h) as Qu.
  destruct (snor_unprotect_starts T h) as [du Su].
  step_bind ru u Eu. cbn [snd] in Qu, Su.
  assert (E : forall o hh, snd (match o : loop_result (Z * Z) with
               | Exit _ => ret (Some 0)
               | Return rv => ret (Some rv)
               | Running _ => ret None
               end hh) = []) by (intros o hh; destruct o; reflexivity).
  split.
  - step_bind o d El. rewrite E, app_nil_r, Su, <- app_assoc.
    eexists. reflexivity.
  - intros R. split.
    + pose proof (snor_erase_loop_no_error T c fuel R offs len (h ++ u)) as N.
      step_bind o d El. cbn [fst] in N.
      destruct o as [s|rv|s]; cbn [ret fst];
        [right; reflexivity | exfalso; apply (N rv); reflexivity
         | left; reflexivity].
    + intros Hss Hfuel.
      assert (S := snor_erase_loop_strides fuel offs len (h ++ u) R Ho
                     ltac:(lia)).
      destruct S as [_ S].
      { intros i Hi. rewrite ulong_idem; nia. }
      step_bind o d El. cbn [snd] in S. rewrite E, app_nil_r.
      rewrite sector_erases_app by apply Qu.
      rewrite (quiet_sector_erases u Qu). exact S.
Qed.

End Erase.

(** ** snor_write *)

Section Write.
Variable T : transport.
Variable c : chip_info.

Lemma page_program_events_seen (to off n : Z) (q1 d : trace) :
  quiet q1 ->
  balanced (q1 ++ page_program_events c to off n) /\
  page_programs (q1 ++ page_program_events c to off n ++ d) =
    (wire c to, off, n) :: page_programs d.
Proof.
  intros Q1.
  assert (P : plain (Write_One_Byte OPCODE_PP :: address_events c to
                     ++ [Write_NByte (FromBuf off) n]) = true).
  { cbn. unfold plain. rewrite forallb_app, address_events_plain. reflexivity. }
  assert (S : forall d', page_program_events c to off n ++ d' =
                 Chip_Select_Low ::
                 (Write_One_Byte OPCODE_PP :: address_events c to
                    ++ [Write_NByte (FromBuf off) n])
                 ++ Chip_Select_High :: d').
  { intros d'. unfold page_program_events. cbn [app].
    rewrite <- !app_assoc. reflexivity. }
  split.
  - apply balanced_app; [apply Q1|].
    rewrite <- (app_nil_r (page_program_events c to off n)), S.
    apply balanced_command; [exact P|reflexivity].
  - rewrite page_programs_app by apply Q1.
    rewrite (quiet_page_programs q1 Q1). cbn [app].
    rewrite S. unfold page_programs.
    rewrite commands_command by exact P.
    cbn [flat_map page_program_of]. change (OPCODE_PP =? OPCODE_PP) with true.
    cbn match.
    rewrite (be_value_address c to [Write_NByte (FromBuf off) n] I).
    reflexivity.
Qed.

Lemma wire_mod_page (x : Z) : wire c x mod FLASH_PAGESIZE = x mod FLASH_PAGESIZE.
Proof.
  unfold wire, FLASH_PAGESIZE. destruct (truthy (addr4b c)).
  - apply Z.mod_mod_divide. exists (2 ^ 24). reflexivity.
  - apply Z.mod_mod_divide. exists (2 ^ 16). reflexivity.
Qed.

Lemma wire_congr (x y : Z) :
  x mod 2 ^ 64 = y mod 2 ^ 64 -> wire c x = wire c y.
Proof.
  intros H. rewrite <- (wire_ulong c x), <- (wire_ulong c y).
  unfold ulong. rewrite H. reflexivity.
Qed.

Lemma mod_page_congr (x y : Z) :
  x mod 2 ^ 64 = y mod 2 ^ 64 -> x mod FLASH_PAGESIZE = y mod FLASH_PAGESIZE.
Proof.
  intros H. unfold FLASH_PAGESIZE.
  rewrite <- (Z.mod_mod_divide x (2 ^ 64) 256) by (exists (2 ^ 56); reflexivity).
  rewrite <- (Z.mod_mod_divide y (2 ^ 64) 256) by (exists (2 ^ 56); reflexivity).
  rewrite H. reflexivity.
Qed.

Lemma page_split_congr (l : list (Z * Z * Z)) :
  forall to to' rem off,
  to mod 2 ^ 64 = to' mod 2 ^ 64 ->
  page_split c to rem off l -> page_split c to' rem off l.
Proof.
  induction l as [|[[a o] n] l IH]; intros to to' rem off H; cbn [page_split];
    [trivial|].
  intros (-> & -> & -> & Hn & Hal & Hrec).
  pose proof (mod_page_congr to to' H) as Hm.
  rewrite <- Hm.
  set (m := Z.min rem (FLASH_PAGESIZE - to mod FLASH_PAGESIZE)) in *.
  assert (H' : (to + m) mod 2 ^ 64 = (to' + m) mod 2 ^ 64)
    by (rewrite Z.add_mod, H, <- Z.add_mod by lia; reflexivity).
  split; [apply wire_congr, H|]. split; [reflexivity|].
  split; [reflexivity|]. split; [exact Hn|].
  split.
  - intros Hl. rewrite <- (mod_page_congr _ _ H'). apply Hal, Hl.
  - eapply IH; [exact H'|exact Hrec].
Qed.

Lemma page_split_no_cross (l : list (Z * Z * Z)) :
  forall to rem off,
  page_split c to rem off l ->
  Forall (fun x => fst (fst x) / FLASH_PAGESIZE
                   = (fst (fst x) + snd x - 1) / FLASH_PAGESIZE) l.
Proof.
  induction l as [|[[a o] n] l IH]; intros to rem off; cbn [page_split];
    [constructor|].
  intros (-> & -> & Hn & Hpos & _ & Hrec).
  constructor; [|eapply IH; exact Hrec].
  cbn [fst snd].
  pose proof (wire_mod_page to) as Hm.
  unfold FLASH_PAGESIZE in *.
  pose proof (Z.mod_pos_bound (wire c to) 256 ltac:(lia)) as Hb.
  pose proof (Z.div_mod (wire c to) 256 ltac:(lia)) as Hd.
  apply Z.div_unique with (r := wire c to mod 256 + n - 1); lia.
Qed.

Lemma snor_write_loop_done (n : nat) (v : write_vars) (h : trace) :
  w_len v <= 0 -> snd (snor_write_loop T c n v h) = [] /\
                  (n <> O -> fst (snor_write_loop T c n v h) = Exit v).
Proof.
  intros Hl. destruct n as [|n]; cbn [snor_write_loop].
  - split; [reflexivity|intros H; contradiction].
  - destruct (Z.gtb_spec (w_len v) 0); [lia|]. split; reflexivity.
Qed.

Lemma snor_write_loop_step (n : nat) (v : write_vars) (h : trace) :
  0 < w_len v ->
  exists q hx, quiet q /\
    let page_size := write_page_size v in
    let r := write_nbyte T hx (FromBuf (w_buf v)) page_size in
    let rc := if negb (truthy r) then int page_size else 1 in
    let retlen := if rc >? 0 then int (w_retlen v + rc) else w_retlen v in
    let pp := page_program_events c (w_to v) (w_buf v) page_size in
    snor_write_loop T c (S n) v h =
      if (rc >? 0) && (u32 rc <? page_size)
      then (Return (int (retlen - rc)),
            q ++ pp ++ [Chip_Select_Low; Write_One_Byte OPCODE_WRDI;
                        Chip_Select_High])
      else (fst (snor_write_loop T c n (write_next v retlen) (h ++ q ++ pp)),
            q ++ pp ++ snd (snor_write_loop T c n (write_next v retlen)
                                            (h ++ q ++ pp))).
Proof.
  intros Hl. cbn [snor_write_loop].
  destruct (Z.gtb_spec (w_len v) 0) as [_|]; [|lia].
  fold (write_page_size v).
  pose proof (snor_wait_ready_quiet T 3 h) as Q0.
  step_bind r0 d0 E0. cbn [snd] in Q0.
  rewrite (bind_run _ _ _ _ _ (snor_write_enable_run _ _)). cbn [fst snd].
  match goal with |- context [bind (snor_unprotect T) _ ?hh] =>
    pose proof (snor_unprotect_quiet T hh) as Qu end.
  step_bind ru u Eu. cbn [snd] in Qu.
  rewrite (bind_run _ _ _ _ _ (eq_refl : SPI_CONTROLLER_Chip_Select_Low _ = (tt, [Chip_Select_Low]))).
  rewrite (bind_run _ _ _ _ _ (send_address_run _ _ _ _ _)). cbn [fst snd].
  match goal with |- context [bind (SPI_CONTROLLER_Write_NByte T ?src ?len) _ ?hh] =>
    rewrite (bind_run _ _ _ _ _ (eq_refl : SPI_CONTROLLER_Write_NByte T src len hh
                                    = (write_nbyte T hh src len, [Write_NByte src len])));
    exists (d0 ++ [Chip_Select_Low; Write_One_Byte OPCODE_WREN; Chip_Select_High] ++ u), hh
  end.
  split.
  { apply framed_app; [exact Q0|].
    apply (quiet_command [_]); [reflexivity..|exact Qu]. }
  cbn zeta. cbn [fst snd].
  rewrite (bind_run _ _ _ _ _ (eq_refl : SPI_CONTROLLER_Chip_Select_High _ = (tt, [Chip_Select_High]))).
  cbn [fst snd].
  assert (A : forall X : trace,
           d0 ++ [Chip_Select_Low; Write_One_Byte OPCODE_WREN; Chip_Select_High] ++
           u ++ [Chip_Select_Low] ++
           (Write_One_Byte OPCODE_PP :: address_events c (w_to v)) ++
           [Write_NByte (FromBuf (w_buf v)) (write_page_size v)] ++
           [Chip_Select_High] ++ X =
           (d0 ++ [Chip_Select_Low; Write_One_Byte OPCODE_WREN; Chip_Select_High] ++ u) ++
           page_program_events c (w_to v) (w_buf v) (write_page_size v) ++ X).
  { intros X. unfold page_program_events. norm_app. reflexivity. }
  destruct (_ && _).
  - rewrite (bind_run _ _ _ _ _ (snor_write_disable_run _ _)).
    cbn [fst snd ret]. rewrite app_nil_r. rewrite A. reflexivity.
  - rewrite A. f_equal.
    + f_equal. f_equal.
      unfold page_program_events. norm_app. reflexivity.
    + f_equal. f_equal. f_equal. f_equal.
      unfold page_program_events. norm_app. reflexivity.
Qed.

Lemma write_page_size_spec (v : write_vars) :
  0 < w_len v ->
  w_page_offset v = w_to v mod FLASH_PAGESIZE ->
  write_page_size v
    = Z.min (w_len v) (FLASH_PAGESIZE - w_to v mod FLASH_PAGESIZE) /\
  0 < write_page_size v <= 256 /\ write_page_size v <= w_len v.
Proof.
  intros Hl Hpo. unfold write_page_size, min, u32. rewrite Hpo.
  unfold FLASH_PAGESIZE.
  pose proof (Z.mod_pos_bound (w_to v) 256 ltac:(lia)) as Hb.
  rewrite (Z.mod_small (256 - w_to v mod 256)) by lia.
  destruct (Z.ltb_spec (w_len v) (256 - w_to v mod 256)).
  - rewrite Z.mod_small by lia. lia.
  - rewrite Z.mod_small by lia. lia.
Qed.

Lemma page_end_aligned (to : Z) :
  (to + (FLASH_PAGESIZE - to mod FLASH_PAGESIZE)) mod FLASH_PAGESIZE = 0.
Proof.
  unfold FLASH_PAGESIZE.
  replace (to + (256 - to mod 256)) with (0 + (to / 256 + 1) * 256).
  - rewrite Z.mod_add by lia. reflexivity.
  - pose proof (Z.div_mod to 256 ltac:(lia)). lia.
Qed.

Lemma ulong_mod_page (x : Z) : ulong x mod FLASH_PAGESIZE = x mod FLASH_PAGESIZE.
Proof.
  unfold ulong, FLASH_PAGESIZE. apply Z.mod_mod_divide.
  exists (2 ^ 56). reflexivity.
Qed.

(** Whatever the transport answers, the page programs the loop issues are
    the chunks of the claim, from the first one on. *)
Lemma snor_write_loop_split (n : nat) :
  forall (v : write_vars) (h : trace),
  0 <= w_len v < 2 ^ 64 ->
  (0 < w_len v -> w_page_offset v = w_to v mod FLASH_PAGESIZE) ->
  page_split c (w_to v) (w_len v) (w_buf v)
             (page_programs (snd (snor_write_loop T c n v h))).
Proof.
  induction n as [|n IH]; intros v h Hl Hpo; [exact I|].
  destruct (Z_le_gt_dec (w_len v) 0) as [Hz|Hpos].
  { destruct (snor_write_loop_done (S n) v h Hz) as [-> _]. exact I. }
  assert (Hl' : 0 < w_len v) by lia.
  destruct (write_page_size_spec v Hl' (Hpo Hl')) as (Eps & Hps & Hle).
  destruct (snor_write_loop_step n v h Hl') as (q & hx & Q & E).
  cbn zeta in E. rewrite E. clear E.
  set (ps := write_page_size v) in *.
  match goal with |- context [if ?b then _ else _] => destruct b end;
    cbn [snd].
  - destruct (page_program_events_seen (w_to v) (w_buf v) ps q
                [Chip_Select_Low; Write_One_Byte OPCODE_WRDI; Chip_Select_High] Q)
      as [_ ->].
    cbn [page_split]. repeat split; try assumption; try lia.
    intros H; exfalso; apply H; reflexivity.
  - match goal with |- context [snor_write_loop T c n ?v' ?h'] =>
      set (v1 := v'); set (h1 := h') end.
    destruct (page_program_events_seen (w_to v) (w_buf v) ps q
                (snd (snor_write_loop T c n v1 h1)) Q) as [_ ->].
    assert (Hl1 : w_len v1 = w_len v - ps).
    { unfold v1, write_next. cbn [w_len]. fold ps. apply ulong_idem. lia. }
    cbn [page_split]. repeat split; try assumption; try lia.
    + intros Hne.
      destruct (Z_le_gt_dec (w_len v1) 0) as [Hz1|Hpos1].
      { destruct (snor_write_loop_done n v1 h1 Hz1) as [D _].
        rewrite D in Hne. exfalso. apply Hne. reflexivity. }
      rewrite Eps.
      replace (Z.min (w_len v) (FLASH_PAGESIZE - w_to v mod FLASH_PAGESIZE))
        with (FLASH_PAGESIZE - w_to v mod FLASH_PAGESIZE) by lia.
      apply page_end_aligned.
    + assert (G : page_split c (w_to v1) (w_len v1) (w_buf v1)
                    (page_programs (snd (snor_write_loop T c n v1 h1)))).
      { apply IH.
        - rewrite Hl1. lia.
        - intros Hpos1. unfold v1, write_next. cbn [w_page_offset w_to].
          fold ps. rewrite ulong_mod_page. rewrite Hl1 in Hpos1.
          rewrite Eps.
          replace (Z.min (w_len v) (FLASH_PAGESIZE - w_to v mod FLASH_PAGESIZE))
            with (FLASH_PAGESIZE - w_to v mod FLASH_PAGESIZE) by lia.
          symmetry. apply page_end_aligned. }
      rewrite Hl1 in G.
      change (w_buf v1) with (w_buf v + ps) in G.
      eapply page_split_congr; [|exact G].
      unfold v1, write_next. cbn [w_to]. fold ps.
      unfold ulong. apply Z.mod_mod. lia.
Qed.

Lemma int_idem (x : Z) : - 2 ^ 31 <= x < 2 ^ 31 -> int x = x.
Proof. intros H. unfold int. rewrite Z.mod_small by lia. lia. Qed.

Lemma int_range (x : Z) : - 2 ^ 31 <= int x < 2 ^ 31.
Proof.
  unfold int. pose proof (Z.mod_pos_bound (x + 2 ^ 31) (2 ^ 32) ltac:(lia)).
  lia.
Qed.

Lemma int_add_l (a b : Z) : int (int a + b) = int (a + b).
Proof.
  unfold int. f_equal.
  replace ((a + 2 ^ 31) mod 2 ^ 32 - 2 ^ 31 + b + 2 ^ 31)
    with ((a + 2 ^ 31) mod 2 ^ 32 + b) by lia.
  rewrite Zplus_mod_idemp_l. f_equal. lia.
Qed.

(** When the transport accepts every chunk the loop writes the whole
    payload and counts it. *)
Lemma snor_write_loop_complete (n : nat) :
  accepting T ->
  forall (v : write_vars) (h : trace),
  0 <= w_len v < 2 ^ 64 ->
  (0 < w_len v -> w_page_offset v = w_to v mod FLASH_PAGESIZE) ->
  - 2 ^ 31 <= w_retlen v < 2 ^ 31 ->
  w_len v < Z.of_nat n ->
  exists v',
    fst (snor_write_loop T c n v h) = Exit v' /\
    w_retlen v' = int (w_retlen v + w_len v) /\
    total (page_programs (snd (snor_write_loop T c n v h))) = w_len v.
Proof.
  intros Acc. induction n as [|n IH]; intros v h Hl Hpo Hr Hn; [lia|].
  destruct (Z_le_gt_dec (w_len v) 0) as [Hz|Hpos].
  { destruct (snor_write_loop_done (S n) v h Hz) as [D F].
    exists v. rewrite D, F by discriminate.
    replace (w_len v) with 0 by lia. rewrite Z.add_0_r, int_idem by assumption.
    repeat split. }
  assert (Hl' : 0 < w_len v) by lia.
  destruct (write_page_size_spec v Hl' (Hpo Hl')) as (Eps & Hps & Hle).
  destruct (snor_write_loop_step n v h Hl') as (q & hx & Q & E).
  cbn zeta in E. rewrite E. clear E.
  set (ps := write_page_size v) in *.
  rewrite Acc. cbn [truthy Z.eqb negb].
  rewrite (int_idem ps) by lia.
  destruct (Z.gtb_spec ps 0) as [_|]; [|lia].
  assert (U : u32 ps = ps) by (unfold u32; apply Z.mod_small; lia).
  rewrite U, Z.ltb_irrefl. cbn [andb fst snd].
  set (v1 := write_next v (int (w_retlen v + ps))).
  set (h1 := h ++ q ++ page_program_events c (w_to v) (w_buf v) ps).
  assert (Hl1 : w_len v1 = w_len v - ps).
  { unfold v1, write_next. cbn [w_len]. fold ps. apply ulong_idem. lia. }
  destruct (IH v1 h1) as (v' & F & R & Tt).
  - rewrite Hl1. lia.
  - intros Hpos1. unfold v1, write_next. cbn [w_page_offset w_to].
    fold ps. rewrite ulong_mod_page. rewrite Hl1 in Hpos1. rewrite Eps.
    replace (Z.min (w_len v) (FLASH_PAGESIZE - w_to v mod FLASH_PAGESIZE))
      with (FLASH_PAGESIZE - w_to v mod FLASH_PAGESIZE) by lia.
    symmetry. apply page_end_aligned.
  - apply int_range.
  - rewrite Hl1. lia.
  - exists v'. split; [exact F|]. split.
    + rewrite R. unfold v1 at 1. cbn [write_next w_retlen].
      rewrite Hl1, int_add_l. f_equal. lia.
    + destruct (page_program_events_seen (w_to v) (w_buf v) ps q
                  (snd (snor_write_loop T c n v1 h1)) Q) as [_ ->].
      cbn [total fold_right snd]. fold (total (page_programs
        (snd (snor_write_loop T c n v1 h1)))). rewrite Tt, Hl1. lia.
Qed.

Lemma snor_write_loop_balanced (n : nat) :
  forall (v : write_vars) (h : trace),
  balanced (snd (snor_write_loop T c n v h)).
Proof.
  induction n as [|n IH]; intros v h; [reflexivity|].
  destruct (Z_le_gt_dec (w_len v) 0) as [Hz|Hpos].
  { destruct (snor_write_loop_done (S n) v h Hz) as [-> _]. reflexivity. }
  destruct (snor_write_loop_step n v h ltac:(lia)) as (q & hx & Q & E).
  cbn zeta in E. rewrite E. clear E.
  destruct (page_program_events_seen (w_to v) (w_buf v) (write_page_size v)
              q [] Q) as [B _].
  match goal with |- context [if ?b then _ else _] => destruct b end;
    cbn [snd]; rewrite app_assoc; apply balanced_app; try exact B.
  - reflexivity.
  - apply IH.
Qed.

Lemma snor_write_programs (fuel : nat) (to len : Z) (h : trace) :
  page_programs (snd (snor_write T c fuel to len h)) = [] \/
  exists h',
    len <> 0 /\ ulong (to + len) <= capacity c /\
    fst (snor_wait_ready T 2 h) = 0 /\
    page_programs (snd (snor_write T c fuel to len h)) =
      page_programs (snd (snor_write_loop T c fuel
        (mk_write_vars to len (u32 (to mod FLASH_PAGESIZE)) 0 0) h')) /\
    fst (snor_write T c fuel to len h) =
      match fst (snor_write_loop T c fuel
        (mk_write_vars to len (u32 (to mod FLASH_PAGESIZE)) 0 0) h') with
      | Exit v => Some (w_retlen v)
      | Return rv => Some rv
      | Running _ => None
      end.
Proof.
  unfold snor_write.
  destruct (Z.eqb_spec len 0) as [|Hlen]; [left; reflexivity|].
  fold (capacity c).
  destruct (Z.gtb_spec (ulong (to + len)) (capacity c)) as [|Hcap];
    [left; reflexivity|].
  pose proof (snor_wait_ready_quiet T 2 h) as Q0.
  step_bind r0 d0 E0. cbn [snd] in Q0.
  destruct (Z.eq_dec r0 0) as [->|Hr0].
  2:{ left. unfold truthy. destruct (Z.eqb_spec r0 0); [contradiction|].
      cbn [negb ret snd]. rewrite app_nil_r. apply quiet_page_programs, Q0. }
  cbn [truthy Z.eqb negb].
  match goal with |- context [bind (when ?b ?m) _ ?hh] =>
    pose proof (when_quiet b m hh (snor_4byte_mode_quiet T c 1)) as Q1 end.
  step_bind u1 q1 E1. cbn [snd] in Q1.
  match goal with |- context [bind (snor_write_loop T c fuel ?v) _ ?hh] =>
    pose proof (snor_write_loop_balanced fuel v hh) as Bl;
    right; exists hh end.
  step_bind o dl El. cbn [fst snd] in *.
  split; [assumption|]. split; [assumption|]. split; [reflexivity|].
  rewrite !page_programs_app by (try apply Q0; try apply Q1; assumption).
  rewrite (quiet_page_programs d0 Q0), (quiet_page_programs q1 Q1).
  cbn [app].
  destruct o as [v|rv|v].
  - match goal with |- context [bind (when ?b ?m) _ ?hh] =>
      pose proof (when_quiet b m hh (snor_4byte_mode_quiet T c 0)) as Q2 end.
    step_bind u2 q2 E2. cbn [snd] in Q2.
    rewrite (bind_run _ _ _ _ _ (snor_write_disable_run _ _)).
    cbn [fst snd ret]. rewrite app_nil_r.
    split; [|reflexivity].
    rewrite page_programs_app by apply Q2.
    rewrite (quiet_page_programs q2 Q2). cbn [app].
    rewrite app_nil_r. reflexivity.
  - cbn [ret fst snd]. rewrite app_nil_r. split; reflexivity.
  - cbn [ret fst snd]. rewrite app_nil_r. split; reflexivity.
Qed.

End Write.

(** C2: write chunking.  For every offset and length (unsigned long) and
    every transport, the page programs snor_write issues are, from the first
    one on, the chunks of the specification: the first has
    min(length, 256 - (to mod 256)) bytes, each later one starts on a page
    boundary with min(remaining, 256) bytes, and none crosses a 256-byte
    boundary.  When the device is ready and the transport accepts the data
    they cover the whole payload and the call returns the length; writing
    20 bytes at 250 issues exactly the two page programs of 6 bytes at 250
    and 14 bytes at 256. *)
Theorem write_chunking (T : transport) (c : chip_info) (fuel : nat)
    (to len : Z) (h : trace) :
  0 <= to < 2 ^ 64 -> 0 <= len < 2 ^ 64 ->
  let r := snor_write T c fuel to len h in
  page_split c to len 0 (page_programs (snd r)) /\
  Forall (fun x => fst (fst x) / FLASH_PAGESIZE
                   = (fst (fst x) + snd x - 1) / FLASH_PAGESIZE)
         (page_programs (snd r)) /\
  (fst (snor_wait_ready T 2 h) = 0 -> accepting T ->
   0 < len -> ulong (to + len) <= capacity c -> len < Z.of_nat fuel ->
   fst r = Some (int len) /\ total (page_programs (snd r)) = len) /\
  (fst (snor_wait_ready T 2 h) = 0 -> accepting T ->
   to = 250 -> len = 20 -> 270 <= capacity c -> (20 < fuel)%nat ->
   page_programs (snd r) = [(250, 0, 6); (256, 6, 14)]).
Proof.
  intros Hto Hlen. cbn zeta.
  assert (Hpo : 0 < len -> u32 (to mod FLASH_PAGESIZE) = to mod FLASH_PAGESIZE).
  { intros _. unfold u32, FLASH_PAGESIZE. apply Z.mod_small.
    pose proof (Z.mod_pos_bound to 256 ltac:(lia)). lia. }
  assert (S : page_split c to len 0
                (page_programs (snd (snor_write T c fuel to len h)))).
  { destruct (snor_write_programs T c fuel to len h)
      as [-> | (h' & _ & _ & _ & -> & _)]; [exact I|].
    apply (snor_write_loop_split T c fuel
             (mk_write_vars to len (u32 (to mod FLASH_PAGESIZE)) 0 0) h');
      assumption. }
  assert (C : fst (snor_wait_ready T 2 h) = 0 -> accepting T ->
              0 < len -> ulong (to + len) <= capacity c ->
              len < Z.of_nat fuel ->
              fst (snor_write T c fuel to len h) = Some (int len) /\
              total (page_programs (snd (snor_write T c fuel to len h))) = len).
  { intros W Acc Hpos Hcap Hfuel.
    pose proof (snor_wait_ready_quiet T 2 h) as Q0.
    unfold snor_write.
    destruct (Z.eqb_spec len 0) as [|_]; [lia|].
    fold (capacity c).
    destruct (Z.gtb_spec (ulong (to + len)) (capacity c)) as [|_]; [lia|].
    step_bind r0 d0 E0. cbn [fst snd] in *. subst r0.
    cbn [truthy Z.eqb negb].
    match goal with |- context [bind (when ?b ?m) _ ?hh] =>
      pose proof (when_quiet b m hh (snor_4byte_mode_quiet T c 1)) as Q1 end.
    step_bind u1 q1 E1. cbn [snd] in Q1.
    match goal with |- context [bind (snor_write_loop T c fuel ?v) _ ?hh] =>
      pose proof (snor_write_loop_balanced T c fuel v hh) as Bl;
      destruct (snor_write_loop_complete T c fuel Acc v hh)
        as (v' & F & R & Tt) end;
      cbn [w_len w_to w_page_offset w_retlen]; try assumption; try lia.
    step_bind o dl El. cbn [fst snd] in *. subst o.
    match goal with |- context [bind (when ?b ?m) _ ?hh] =>
      pose proof (when_quiet b m hh (snor_4byte_mode_quiet T c 0)) as Q2 end.
    step_bind u2 q2 E2. cbn [snd] in Q2.
    rewrite (bind_run _ _ _ _ _ (snor_write_disable_run _ _)).
    cbn [fst snd ret]. rewrite app_nil_r.
    split; [rewrite R; reflexivity|].
    rewrite !page_programs_app by (try apply Q0; try apply Q1; try apply Q2; assumption).
    rewrite (quiet_page_programs d0 Q0), (quiet_page_programs q1 Q1),
      (quiet_page_programs q2 Q2).
    cbn [app]. rewrite app_nil_r. exact Tt. }
  split; [exact S|]. split; [eapply page_split_no_cross; exact S|].
  split; [exact C|].
  intros W Acc -> -> Hcap Hfuel.
  destruct C as [_ Tt]; try assumption; try lia.
  revert S Tt.
  generalize (page_programs (snd (snor_write T c fuel 250 20 h))).
  assert (W250 : wire c 250 = 250)
    by (unfold wire; destruct (truthy (addr4b c)); reflexivity).
  assert (W256 : wire c (250 + 6) = 256)
    by (unfold wire; destruct (truthy (addr4b c)); reflexivity).
  intros l S Tt.
  destruct l as [|[[a1 o1] n1] l]; [discriminate|].
  cbn [page_split] in S. destruct S as (-> & -> & -> & _ & _ & S).
  change (Z.min 20 (FLASH_PAGESIZE - 250 mod FLASH_PAGESIZE)) with 6 in *.
  destruct l as [|[[a2 o2] n2] l]; [discriminate|].
  cbn [page_split] in S. destruct S as (-> & -> & -> & _ & _ & S).
  change (Z.min (20 - 6) (FLASH_PAGESIZE - (250 + 6) mod FLASH_PAGESIZE))
    with 14 in *.
  destruct l as [|[[a3 o3] n3] l].
  - rewrite W250, W256. reflexivity.
  - cbn [page_split] in S. destruct S as (_ & _ & E3 & P3 & _).
    change (20 - 6 - 14) with 0 in E3. lia.
Qed.

(** ** snor_read *)

Section Read.
Variable T : transport.
Variable c : chip_info.

Lemma read_events_seen (addr off n : Z) (q1 d : trace) :
  quiet q1 ->
  balanced (q1 ++ read_events c addr off n) /\
  reads (q1 ++ read_events c addr off n ++ d) = (wire c addr, off, n) :: reads d.
Proof.
  intros Q1.
  assert (P : plain (Write_One_Byte OPCODE_READ :: address_events c addr
                     ++ [Read_NByte (ToBuf off) n]) = true).
  { cbn. unfold plain. rewrite forallb_app, address_events_plain. reflexivity. }
  assert (S : forall d', read_events c addr off n ++ d' =
                 Chip_Select_Low ::
                 (Write_One_Byte OPCODE_READ :: address_events c addr
                    ++ [Read_NByte (ToBuf off) n])
                 ++ Chip_Select_High :: d').
  { intros d'. unfold read_events. norm_app. reflexivity. }
  split.
  - apply balanced_app; [apply Q1|].
    rewrite <- (app_nil_r (read_events c addr off n)), S.
    apply balanced_command; [exact P|reflexivity].
  - rewrite reads_app by apply Q1.
    rewrite (quiet_reads q1 Q1). cbn [app].
    rewrite S. unfold reads.
    rewrite commands_command by exact P.
    cbn [flat_map read_of]. change (OPCODE_READ =? OPCODE_READ) with true.
    cbn match.
    rewrite (be_value_address c addr [Read_NByte (ToBuf off) n] I).
    reflexivity.
Qed.

Lemma snor_read_loop_done (k : nat) (len ra rl : Z) (h : trace) :
  rl <= 0 -> snd (snor_read_loop T c k len ra rl h) = [] /\
             (k <> O -> fst (snor_read_loop T c k len ra rl h) = Exit (ra, rl)).
Proof.
  intros Hl. destruct k as [|k]; cbn [snor_read_loop].
  - split; [reflexivity|intros H; contradiction].
  - destruct (Z.gtb_spec rl 0); [lia|]. split; reflexivity.
Qed.

Lemma snor_read_loop_step (k : nat) (len ra rl : Z) (h : trace) :
  0 < rl ->
  exists q q2 hx, quiet q /\ quiet q2 /\
    let n := read_size c ra rl in
    let off := ulong (len - rl) in
    let rc := fst (read_nbyte T hx (ToBuf off) n) in
    let ev := read_events c ra off n in
    let ra' := if read_whole c ra rl then ra else u32 (ra + n) in
    let rl' := if read_whole c ra rl then 0 else u32 (rl - n) in
    snor_read_loop T c (S k) len ra rl h =
      if truthy rc
      then (Return (int (ulong (-1))), q ++ ev ++ q2)
      else (fst (snor_read_loop T c k len ra' rl' (h ++ q ++ ev ++ q2)),
            q ++ ev ++ q2 ++
            snd (snor_read_loop T c k len ra' rl' (h ++ q ++ ev ++ q2))).
Proof.
  intros Hl. cbn [snor_read_loop].
  destruct (Z.gtb_spec rl 0) as [_|]; [|lia].
  unfold read_size, read_whole. cbn zeta.
  match goal with |- context [bind (when ?b ?m) _ ?hh] =>
    pose proof (when_quiet b m hh (snor_4byte_mode_quiet T c 1)) as Q1 end.
  step_bind u1 q1 E1. cbn [snd] in Q1.
  rewrite (bind_run _ _ _ _ _ (eq_refl : SPI_CONTROLLER_Chip_Select_Low _ = (tt, [Chip_Select_Low]))).
  rewrite (bind_run _ _ _ _ _ (send_address_run _ _ _ _ _)). cbn [fst snd].
  destruct (_ <? sector_size c).
  - match goal with |- context [bind (SPI_CONTROLLER_Read_NByte T ?dst ?n) _ ?hh] =>
      rewrite (bind_run _ _ _ _ _ (eq_refl : SPI_CONTROLLER_Read_NByte T dst n hh
                                      = (read_nbyte T hh dst n, [Read_NByte dst n])));
      set (hx := hh)
    end.
    cbn [fst snd].
    destruct (truthy (fst (read_nbyte T hx _ _))) eqn:Hrc.
    + rewrite (bind_run _ _ _ _ _ (eq_refl : SPI_CONTROLLER_Chip_Select_High _ = (tt, [Chip_Select_High]))).
      cbn [fst snd].
      match goal with |- context [bind (when ?b ?m) _ ?hh] =>
        pose proof (when_quiet b m hh (snor_4byte_mode_quiet T c 0)) as Q2 end.
      step_bind u2 q2 E2. cbn [snd] in Q2.
      exists q1, q2, hx. split; [exact Q1|]. split; [exact Q2|].
      rewrite Hrc. subst hx.
      cbn [ret fst snd]. f_equal. unfold read_events. norm_app.
      rewrite app_nil_r. reflexivity.
    + rewrite (bind_run _ _ _ _ _ (eq_refl : SPI_CONTROLLER_Chip_Select_High _ = (tt, [Chip_Select_High]))).
      cbn [fst snd].
      match goal with |- context [bind (when ?b ?m) _ ?hh] =>
        pose proof (when_quiet b m hh (snor_4byte_mode_quiet T c 0)) as Q2 end.
      step_bind u2 q2 E2. cbn [snd] in Q2.
      exists q1, q2, hx. split; [exact Q1|]. split; [exact Q2|].
      rewrite Hrc. subst hx.
      unfold read_events. norm_app. reflexivity.
  - match goal with |- context [bind (SPI_CONTROLLER_Read_NByte T ?dst ?n) _ ?hh] =>
      rewrite (bind_run _ _ _ _ _ (eq_refl : SPI_CONTROLLER_Read_NByte T dst n hh
                                      = (read_nbyte T hh dst n, [Read_NByte dst n])));
      set (hx := hh)
    end.
    cbn [fst snd].
    destruct (truthy (fst (read_nbyte T hx _ _))) eqn:Hrc.
    + rewrite (bind_run _ _ _ _ _ (eq_refl : SPI_CONTROLLER_Chip_Select_High _ = (tt, [Chip_Select_High]))).
      cbn [fst snd].
      match goal with |- context [bind (when ?b ?m) _ ?hh] =>
        pose proof (when_quiet b m hh (snor_4byte_mode_quiet T c 0)) as Q2 end.
      step_bind u2 q2 E2. cbn [snd] in Q2.
      exists q1, q2, hx. split; [exact Q1|]. split; [exact Q2|].
      rewrite Hrc. subst hx.
      cbn [ret fst snd]. f_equal. unfold read_events. norm_app.
      rewrite app_nil_r. reflexivity.
    + rewrite (bind_run _ _ _ _ _ (eq_refl : SPI_CONTROLLER_Chip_Select_High _ = (tt, [Chip_Select_High]))).
      cbn [fst snd].
      match goal with |- context [bind (when ?b ?m) _ ?hh] =>
        pose proof (when_quiet b m hh (snor_4byte_mode_quiet T c 0)) as Q2 end.
      step_bind u2 q2 E2. cbn [snd] in Q2.
      exists q1, q2, hx. split; [exact Q1|]. split; [exact Q2|].
      rewrite Hrc. subst hx.
      unfold read_events. norm_app. reflexivity.
Qed.

Lemma read_size_spec (ra rl : Z) :
  0 < sector_size c < 2 ^ 64 -> 0 <= ra -> 0 < rl -> ra + rl < 2 ^ 32 ->
  read_size c ra rl = Z.min rl (sector_size c - ra mod sector_size c) /\
  0 < read_size c ra rl <= rl /\
  (ra + read_size c ra rl - 1) / sector_size c = ra / sector_size c /\
  (read_whole c ra rl = true -> read_size c ra rl = rl) /\
  (read_whole c ra rl = false ->
   u32 (ra + read_size c ra rl) = ra + read_size c ra rl /\
   u32 (rl - read_size c ra rl) = rl - read_size c ra rl).
Proof.
  intros Hss Hra Hrl Hsum.
  pose proof (Z.mod_pos_bound ra (sector_size c) ltac:(lia)) as Hb.
  pose proof (Z.div_mod ra (sector_size c) ltac:(lia)) as Hd.
  assert (Hle : ra mod sector_size c <= ra) by (apply Z.mod_le; lia).
  unfold read_size, read_whole.
  assert (U1 : u32 (ra mod sector_size c) = ra mod sector_size c)
    by (unfold u32; apply Z.mod_small; lia).
  rewrite U1.
  assert (U2 : u32 (ra mod sector_size c + rl) = ra mod sector_size c + rl)
    by (unfold u32; apply Z.mod_small; lia).
  rewrite U2.
  destruct (Z.ltb_spec (ra mod sector_size c + rl) (sector_size c)) as [Hw|Hw].
  - split; [lia|]. split; [lia|]. split.
    + symmetry.
      apply Z.div_unique with (r := ra mod sector_size c + rl - 1); lia.
    + split; [reflexivity|discriminate].
  - rewrite ulong_idem by lia.
    split; [lia|]. split; [lia|]. split.
    + symmetry.
      apply Z.div_unique with (r := sector_size c - 1); lia.
    + split; [discriminate|]. intros _. unfold u32.
      split; apply Z.mod_small; lia.
Qed.

(** Whatever the transport answers, the read transactions the loop issues
    are the chunks of the claim, from the first one on. *)
Lemma snor_read_loop_split (k : nat) :
  forall (len ra rl : Z) (h : trace),
  0 < sector_size c < 2 ^ 64 ->
  0 <= ra -> 0 <= rl <= len -> len < 2 ^ 64 -> ra + rl < 2 ^ 32 ->
  sector_split c (sector_size c) ra rl (len - rl)
               (reads (snd (snor_read_loop T c k len ra rl h))).
Proof.
  induction k as [|k IH]; intros len ra rl h Hss Hra Hrl Hlen Hsum; [exact I|].
  destruct (Z_le_gt_dec rl 0) as [Hz|Hpos].
  { destruct (snor_read_loop_done (S k) len ra rl h Hz) as [-> _]. exact I. }
  destruct (read_size_spec ra rl Hss Hra ltac:(lia) Hsum)
    as (En & Hn & Hsec & Hw & Hnw).
  destruct (snor_read_loop_step k len ra rl h ltac:(lia))
    as (q & q2 & hx & Q & Q2 & E).
  cbn zeta in E. rewrite E. clear E.
  rewrite (ulong_idem (len - rl)) by lia.
  set (n := read_size c ra rl) in *.
  destruct (truthy _); cbn [snd].
  - destruct (read_events_seen ra (len - rl) n q q2 Q) as [_ ->].
    rewrite (quiet_reads q2 Q2).
    cbn [sector_split]. repeat split; try assumption; lia.
  - match goal with |- context [snor_read_loop T c k len ?a ?b ?hh] =>
      set (ra' := a); set (rl' := b); set (h' := hh) end.
    destruct (read_events_seen ra (len - rl) n q
                (q2 ++ snd (snor_read_loop T c k len ra' rl' h')) Q) as [_ ->].
    rewrite reads_app by apply Q2. rewrite (quiet_reads q2 Q2). cbn [app].
    cbn [sector_split]. repeat split; try assumption; try lia.
    destruct (read_whole c ra rl) eqn:W.
    + rewrite (Hw eq_refl) in *. subst ra' rl'.
      destruct (snor_read_loop_done k len ra 0 h' ltac:(lia)) as [-> _].
      exact I.
    + destruct (Hnw eq_refl) as [Ua Ul]. subst ra' rl'.
      rewrite Ua, Ul.
      replace (len - rl + n) with (len - (rl - n)) by lia.
      apply IH; try assumption; lia.
Qed.

Lemma snor_read_loop_complete (k : nat) :
  delivering T ->
  forall (len ra rl : Z) (h : trace),
  0 < sector_size c < 2 ^ 64 ->
  0 <= ra -> 0 <= rl <= len -> len < 2 ^ 64 -> ra + rl < 2 ^ 32 ->
  rl < Z.of_nat k ->
  (exists s, fst (snor_read_loop T c k len ra rl h) = Exit s) /\
  total (reads (snd (snor_read_loop T c k len ra rl h))) = rl.
Proof.
  intros Del.
  induction k as [|k IH]; intros len ra rl h Hss Hra Hrl Hlen Hsum Hk; [lia|].
  destruct (Z_le_gt_dec rl 0) as [Hz|Hpos].
  { destruct (snor_read_loop_done (S k) len ra rl h Hz) as [-> F].
    rewrite F by discriminate. split; [eexists; reflexivity|]. cbn. lia. }
  destruct (read_size_spec ra rl Hss Hra ltac:(lia) Hsum)
    as (En & Hn & Hsec & Hw & Hnw).
  destruct (snor_read_loop_step k len ra rl h ltac:(lia))
    as (q & q2 & hx & Q & Q2 & E).
  cbn zeta in E. rewrite E. clear E.
  rewrite Del. cbn [truthy Z.eqb negb fst snd].
  set (n := read_size c ra rl) in *.
  match goal with |- context [snor_read_loop T c k len ?a ?b ?hh] =>
    set (ra' := a); set (rl' := b); set (h' := hh) end.
  destruct (read_events_seen ra (ulong (len - rl)) n q
              (q2 ++ snd (snor_read_loop T c k len ra' rl' h')) Q) as [_ ->].
  rewrite reads_app by apply Q2. rewrite (quiet_reads q2 Q2). cbn [app].
  cbn [total fold_right snd].
  fold (total (reads (snd (snor_read_loop T c k len ra' rl' h')))).
  destruct (read_whole c ra rl) eqn:W.
  - rewrite (Hw eq_refl) in *. subst ra' rl'.
    destruct (snor_read_loop_done k len ra 0 h' ltac:(lia)) as [-> F].
    split; [|cbn; lia].
    destruct k as [|k]; [lia|]. rewrite F by discriminate.
    eexists; reflexivity.
  - destruct (Hnw eq_refl) as [Ua Ul]. subst ra' rl'.
    rewrite Ua, Ul.
    destruct (IH len (ra + n) (rl - n) h') as [F Tt]; try assumption; try lia.
    split; [exact F|]. rewrite Tt. lia.
Qed.

End Read.

(** C7, as amended: read chunking.  For every from and length > 0 with
    from + length < 2^32 and every transport, the read transactions
    snor_read issues are, from the first one on, those of the
    specification: each transfers min(remaining, sector_size - (address mod
    sector_size)) bytes, ends in the sector it starts in, and the next one
    starts where it ends.  When the device is ready and the transport
    delivers the data they cover all of [from, from + length) and the call
    returns the length. *)
Theorem read_chunking (T : transport) (c : chip_info) (fuel : nat)
    (from len : Z) (h : trace) :
  0 < sector_size c < 2 ^ 64 ->
  0 <= from -> 0 < len -> from + len < 2 ^ 32 ->
  let r := snor_read T c fuel from len h in
  sector_split c (sector_size c) from len 0 (reads (snd r)) /\
  (fst (snor_wait_ready T 1 h) = 0 -> delivering T -> len < Z.of_nat fuel ->
   fst r = Some (int len) /\ total (reads (snd r)) = len).
Proof.
  intros Hss Hfrom Hlen Hsum. cbn zeta.
  assert (Uf : u32 from = from) by (unfold u32; apply Z.mod_small; lia).
  assert (Ul : u32 len = len) by (unfold u32; apply Z.mod_small; lia).
  unfold snor_read.
  destruct (Z.eqb_spec len 0) as [|_]; [lia|].
  pose proof (snor_wait_ready_quiet T 1 h) as Q0.
  step_bind r0 d0 E0. cbn [fst snd] in *.
  rewrite Uf, Ul.
  destruct (Z.eq_dec r0 0) as [->|Hr0].
  - cbn [truthy Z.eqb negb].
    pose proof (snor_read_loop_split T c fuel len from len (h ++ d0) Hss Hfrom
                  ltac:(lia) ltac:(lia) Hsum) as S.
    rewrite Z.sub_diag in S.
    split.
    + step_bind o dl El. cbn [snd] in S.
      assert (E : forall hh, snd (match o with
                   | Exit _ => ret (Some (int len))
                   | Return rv => ret (Some rv)
                   | Running _ => ret None
                   end hh) = []) by (intros hh; destruct o; reflexivity).
      rewrite E, app_nil_r. rewrite reads_app by apply Q0.
      rewrite (quiet_reads d0 Q0). exact S.
    + intros _ Del Hfuel.
      destruct (snor_read_loop_complete T c fuel Del len from len (h ++ d0) Hss
                  Hfrom ltac:(lia) ltac:(lia) Hsum Hfuel) as [[s F] Tt].
      step_bind o dl El. cbn [fst snd] in *. subst o.
      cbn [ret fst snd]. rewrite app_nil_r.
      split; [reflexivity|].
      rewrite reads_app by apply Q0. rewrite (quiet_reads d0 Q0). exact Tt.
  - unfold truthy. destruct (Z.eqb_spec r0 0); [contradiction|].
    cbn [negb ret fst snd]. rewrite app_nil_r.
    rewrite (quiet_reads d0 Q0). split; [exact I|].
    intros W. contradiction.
Qed.

Lemma Q_eqb_eq (x y : Q) : Q_eqb x y = true -> x = y.
Proof.
  destruct x as [a b], y as [a' b']. unfold Q_eqb. cbn.
  intros H. apply andb_prop in H. destruct H as [H1 H2].
  apply Z.eqb_eq in H1. apply Pos.eqb_eq in H2. subst. reflexivity.
Qed.

(** C4 fails as stated: rows 110 and 111 of the catalog, N25Q064A and
    MT25QL64AB, carry the same manufacturer id and JEDEC id. *)
Lemma catalog_duplicate_ids :
  exists r1 r2,
    nth_error chips_data 110 = Some r1 /\ nth_error chips_data 111 = Some r2 /\
    id r1 = id r2 /\ jedec_id r1 = jedec_id r2 /\
    name r1 = "N25Q064A"%string /\ name r2 = "MT25QL64AB"%string.
Proof. do 2 eexists. repeat split. Qed.

(** C4, as amended: a (manufacturer id, JEDEC id) pair occurs in at most
    two rows of the catalog, and two rows of a manufacturer other than 0x37
    that share a pair describe one part: same sector size, sector count,
    addressing width and supply range. *)
Theorem catalog_aliases :
  (forall r, In r chips_data ->
     (length (filter (same_ids r) chips_data) <= 2)%nat) /\
  (forall r1 r2, In r1 chips_data -> In r2 chips_data ->
     id r1 = id r2 -> jedec_id r1 = jedec_id r2 -> id r1 <> 0x37 ->
     sector_size r1 = sector_size r2 /\ n_sectors r1 = n_sectors r2 /\
     addr4b r1 = addr4b r2 /\
     vcc_min r1 = vcc_min r2 /\ vcc_max r1 = vcc_max r2).
Proof.
  split.
  - assert (H : forallb (fun r => Nat.leb (length (filter (same_ids r) chips_data)) 2)
                  chips_data = true) by (vm_compute; reflexivity).
    intros r Hr. rewrite forallb_forall in H.
    apply Nat.leb_le. apply H, Hr.
  - assert (H : forallb (fun r1 => forallb (fun r2 =>
                  implb (same_ids r1 r2 && negb (id r1 =? 0x37)) (same_part r1 r2))
                  chips_data) chips_data = true) by (vm_compute; reflexivity).
    intros r1 r2 H1 H2 Hid Hj H37.
    rewrite forallb_forall in H. specialize (H r1 H1).
    rewrite forallb_forall in H. specialize (H r2 H2).
    unfold same_ids in H. rewrite Hid, Hj, !Z.eqb_refl in H.
    rewrite <- Hid in H.
    destruct (Z.eqb_spec (id r1) 0x37) as [|_]; [contradiction|].
    cbn in H. unfold same_part in H.
    repeat (apply andb_prop in H; destruct H as [H ?]).
    repeat split; try (apply Z.eqb_eq; assumption);
      apply Q_eqb_eq; assumption.
Qed.

Lemma chip_prob_loop_spec (buf0 jedec : Z) (rows : list chip_info) :
  forall (i : nat) (weight : Z) (match_ : nat),
  (forall j row,
     nth_error rows j = Some row -> id_matches buf0 jedec row ->
     (forall j' row', (j' < j)%nat -> nth_error rows j' = Some row' ->
                      ~ id_matches buf0 jedec row') ->
     chip_prob_loop rows i buf0 jedec (Z.land jedec 0xffff0000) weight match_
       = Some (i + j)%nat) /\
  ((forall row, In row rows -> ~ id_matches buf0 jedec row) ->
   chip_prob_loop rows i buf0 jedec (Z.land jedec 0xffff0000) weight match_
     = None) /\
  (forall k,
     chip_prob_loop rows i buf0 jedec (Z.land jedec 0xffff0000) weight match_
       = Some k ->
     exists j row, k = (i + j)%nat /\ nth_error rows j = Some row /\
                   id_matches buf0 jedec row).
Proof.
  induction rows as [|info rows IH]; intros i weight match_.
  - split; [intros [|j] row H; discriminate|].
    split; [reflexivity|discriminate].
  - assert (D : {id_matches buf0 jedec info} + {~ id_matches buf0 jedec info}).
    { unfold id_matches.
      destruct (Z.eq_dec (id info) buf0); [|right; tauto].
      destruct (Z.eq_dec (jedec_id info) jedec); [left; tauto|].
      destruct (Z.eq_dec (Z.land (jedec_id info) 0xFFFF0000)
                         (Z.land jedec 0xFFFF0000)); [left; tauto|right; tauto]. }
    assert (Hit : id_matches buf0 jedec info ->
                  chip_prob_loop (info :: rows) i buf0 jedec
                    (Z.land jedec 0xffff0000) weight match_ = Some i).
    { intros [Hid Hj]. cbn [chip_prob_loop].
      rewrite Hid, Z.eqb_refl.
      destruct Hj as [-> | ->]; rewrite Z.eqb_refl, ?orb_true_r; reflexivity. }
    assert (Miss : ~ id_matches buf0 jedec info ->
                   exists w m,
                   chip_prob_loop (info :: rows) i buf0 jedec
                     (Z.land jedec 0xffff0000) weight match_ =
                   chip_prob_loop rows (S i) buf0 jedec
                     (Z.land jedec 0xffff0000) w m).
    { intros N. cbn [chip_prob_loop]. unfold id_matches in N.
      destruct (Z.eqb_spec (id info) buf0) as [Hid|_];
        [|do 2 eexists; reflexivity].
      destruct (Z.eqb_spec (jedec_id info) jedec); [tauto|].
      destruct (Z.eqb_spec (Z.land (jedec_id info) 0xffff0000)
                           (Z.land jedec 0xffff0000)); [tauto|].
      cbn [orb]. destruct (_ >? _); do 2 eexists; reflexivity. }
    split; [|split].
    + intros [|j] row Hn Hm Hfirst.
      * cbn in Hn. injection Hn as <-. rewrite Nat.add_0_r. apply Hit, Hm.
      * destruct D as [Y|N].
        { exfalso. apply (Hfirst 0%nat info); [lia|reflexivity|exact Y]. }
        destruct (Miss N) as (w & m & ->).
        replace (i + S j)%nat with (S i + j)%nat by lia.
        apply (proj1 (IH (S i) w m) j row); [exact Hn|exact Hm|].
        intros j' row' Hlt Hn'. apply (Hfirst (S j') row'); [lia|exact Hn'].
    + intros Hnone.
      destruct (Miss (Hnone info (or_introl eq_refl))) as (w & m & ->).
      apply (proj1 (proj2 (IH (S i) w m))).
      intros row Hr. apply Hnone. right. exact Hr.
    + intros k Hk. destruct D as [Y|N].
      * rewrite (Hit Y) in Hk. injection Hk as <-.
        exists 0%nat, info. rewrite Nat.add_0_r.
        split; [reflexivity|]. split; [reflexivity|exact Y].
      * destruct (Miss N) as (w & m & E). rewrite E in Hk.
        destruct (proj2 (proj2 (IH (S i) w m)) k Hk) as (j & row & -> & Hn & Hm).
        exists (S j), row. split; [lia|]. split; assumption.
Qed.

Lemma lor_lt_pow2 (a b n : Z) :
  0 <= n -> 0 <= a < 2 ^ n -> 0 <= b < 2 ^ n -> 0 <= Z.lor a b < 2 ^ n.
Proof.
  intros Hn Ha Hb. split; [apply Z.lor_nonneg; lia|].
  destruct (Z.eq_dec a 0) as [->|Ha0]; [rewrite Z.lor_0_l; lia|].
  destruct (Z.eq_dec b 0) as [->|Hb0]; [rewrite Z.lor_0_r; lia|].
  assert (0 < Z.lor a b).
  { assert (0 <= Z.lor a b) by (apply Z.lor_nonneg; lia).
    destruct (Z.eq_dec (Z.lor a b) 0) as [E|]; [|lia].
    apply Z.lor_eq_0_iff in E. lia. }
  apply Z.log2_lt_pow2; [assumption|].
  rewrite Z.log2_lor by lia.
  apply Z.max_lub_lt; apply Z.log2_lt_pow2; lia.
Qed.

Lemma jedec_of_bytes (b0 b1 b2 b3 b4 : Z) :
  0 <= b1 < 256 -> 0 <= b2 < 256 -> 0 <= b3 < 256 -> 0 <= b4 < 256 ->
  jedec_of [b0; b1; b2; b3; b4] =
  Z.lor (Z.shiftl b1 24) (Z.lor (Z.shiftl b2 16) (Z.lor (Z.shiftl b3 8) b4)).
Proof.
  intros H1 H2 H3 H4. unfold jedec_of, buf_at. cbn [nth].
  assert (U : forall b, 0 <= b < 256 -> u8 b = b)
    by (intros b Hb; unfold u8; apply Z.mod_small; lia).
  rewrite !U by assumption.
  assert (S : forall b k, 0 <= b < 256 -> 0 <= k <= 24 ->
                          0 <= Z.shiftl b k < 2 ^ 32).
  { intros b k Hb Hk. rewrite Z.shiftl_mul_pow2 by lia.
    assert (2 ^ k <= 2 ^ 24) by (apply Z.pow_le_mono_r; lia).
    assert (0 < 2 ^ k) by (apply Z.pow_pos_nonneg; lia).
    change (2 ^ 32) with (256 * 2 ^ 24). nia. }
  assert (V : forall x, 0 <= x < 2 ^ 32 -> u32 x = x)
    by (intros x Hx; unfold u32; apply Z.mod_small; lia).
  rewrite (V (Z.shiftl b1 24)), (V (Z.shiftl b2 16)), (V (Z.shiftl b3 8)),
    (V b4) by (try apply S; lia).
  apply V.
  repeat apply lor_lt_pow2; try apply S; lia.
Qed.

(** C1: identification.  Let the transport store the five identification
    bytes b0..b4 and let jedec = b1<<24 | b2<<16 | b3<<8 | b4.  chip_prob
    returns the first row of the catalog, in catalog order, whose
    manufacturer id is b0 and whose jedec_id equals jedec or agrees with it
    under the mask 0xFFFF0000; when no row does it returns NULL; and a row
    it returns always is such a row, so the closest row it tracks is never
    the result.  The bytes EF 40 18 00 00 resolve to a row with sectors of
    65536 bytes, 256 sectors and 3-byte addressing. *)
Theorem chip_identification (T : transport) (h : trace)
    (b0 b1 b2 b3 b4 : Z) :
  0 <= b0 < 256 -> 0 <= b1 < 256 -> 0 <= b2 < 256 ->
  0 <= b3 < 256 -> 0 <= b4 < 256 ->
  snd (read_nbyte T (h ++ [Chip_Select_Low; Write_One_Byte OPCODE_RDID])
                  ToLocal 5) = [b0; b1; b2; b3; b4] ->
  let jedec :=
    Z.lor (Z.shiftl b1 24) (Z.lor (Z.shiftl b2 16) (Z.lor (Z.shiftl b3 8) b4)) in
  (forall i row,
     nth_error chips_data i = Some row -> id_matches b0 jedec row ->
     (forall j row', (j < i)%nat -> nth_error chips_data j = Some row' ->
                     ~ id_matches b0 jedec row') ->
     fst (chip_prob T h) = Some i) /\
  ((forall row, In row chips_data -> ~ id_matches b0 jedec row) ->
   fst (chip_prob T h) = None) /\
  (forall i, fst (chip_prob T h) = Some i ->
     exists row, nth_error chips_data i = Some row /\ id_matches b0 jedec row) /\
  (b0 = 0xEF -> jedec = 0x40180000 ->
   exists i row,
     fst (chip_prob T h) = Some i /\ nth_error chips_data i = Some row /\
     sector_size row = 65536 /\ n_sectors row = 256 /\ addr4b row = 0).
Proof.
  intros H0 H1 H2 H3 H4 Hbuf. cbn zeta.
  assert (E : fst (chip_prob T h) =
              chip_prob_loop chips_data 0 b0
                (Z.lor (Z.shiftl b1 24)
                   (Z.lor (Z.shiftl b2 16) (Z.lor (Z.shiftl b3 8) b4)))
                (Z.land (Z.lor (Z.shiftl b1 24)
                   (Z.lor (Z.shiftl b2 16) (Z.lor (Z.shiftl b3 8) b4)))
                   0xffff0000)
                0xffffffff 0).
  { unfold chip_prob, snor_read_devid; prim. rewrite <- app_assoc. cbn [app].
    rewrite Hbuf. rewrite jedec_of_bytes by assumption.
    unfold buf_at. cbn [nth]. unfold u8. rewrite Z.mod_small by lia.
    reflexivity. }
  rewrite E.
  set (jedec := Z.lor _ _) in *.
  destruct (chip_prob_loop_spec b0 jedec chips_data 0 0xffffffff 0)
    as (Hit & Miss & Sound).
  split; [|split; [|split]].
  - intros i row Hn Hm Hfirst. apply (Hit i row Hn Hm Hfirst).
  - exact Miss.
  - intros i Hi. destruct (Sound i Hi) as (j & row & -> & Hn & Hm).
    exists row. split; assumption.
  - intros -> ->. exists 357%nat. eexists.
    split; [vm_compute; reflexivity|].
    split; [reflexivity|]. repeat split.
Qed.

(** C8, as amended: erase of length 0 returns -1, read of length 0 returns
    0 and write of length 0 returns 0, each without a single event on the
    bus; a write with to + length > capacity returns -1 without an event
    on the bus, provided to + length does not exceed the range of unsigned
    long. *)
Theorem zero_length_and_bounds (T : transport) (c : chip_info) (fuel : nat)
    (h : trace) :
  (forall offs, snor_erase T c fuel offs 0 h = (Some (-1), [])) /\
  (forall from, snor_read T c fuel from 0 h = (Some 0, [])) /\
  (forall to, snor_write T c fuel to 0 h = (Some 0, [])) /\
  (forall to len,
     0 <= to -> 0 < len -> to + len < 2 ^ 64 -> capacity c < to + len ->
     snor_write T c fuel to len h = (Some (-1), [])).
Proof.
  split; [|split; [|split]]; try reflexivity.
  intros to len Hto Hlen Hsum Hcap. unfold snor_write.
  destruct (Z.eqb_spec len 0) as [|_]; [lia|].
  fold (capacity c). rewrite ulong_idem by lia.
  destruct (Z.gtb_spec (to + len) (capacity c)) as [_|]; [reflexivity|lia].
Qed.

(** C8 fails as stated where to + length wraps around: at to = 2^64 - 1
    and length 2 the sum is past any capacity, yet the write is not
    refused: two page programs go out and 2 is returned. *)
Lemma write_bounds_wrap_around :
  capacity W25Q128BV < (2 ^ 64 - 1) + 2 /\
  fst (snor_write T_idle W25Q128BV 3 (2 ^ 64 - 1) 2 []) = Some 2 /\
  page_programs (snd (snor_write T_idle W25Q128BV 3 (2 ^ 64 - 1) 2 []))
    = [(16777215, 0, 1); (0, 1, 1)].
Proof. vm_compute. repeat split. Qed.

(** C7 fails as stated for a length close to 2^32: reading 2^32 - 1 bytes
    from 65535 on a chip with 64 KiB sectors is one transaction of
    2^32 - 1 bytes where the claim asks for min(remaining, 1) = 1; it
    starts in sector 0 and ends in sector 65536. *)
Lemma read_past_sector_end :
  reads (snd (snor_read T_idle W25Q128BV 2 65535 (2 ^ 32 - 1) []))
    = [(65535, 0, 4294967295)] /\
  Z.min (2 ^ 32 - 1) (sector_size W25Q128BV - 65535 mod sector_size W25Q128BV)
    = 1 /\
  (65535 + 4294967295 - 1) / sector_size W25Q128BV
    = 65536 /\
  65535 / sector_size W25Q128BV = 0.
Proof. vm_compute. repeat split. Qed.

(** C6 at a failing input: every N-byte write fails, yet a write of 2
    bytes at 255, whose first chunk is 1 byte, goes on to a second page
    program and reports 2 bytes written; a write of 1 byte reports 1. *)
Theorem short_write_of_one_byte :
  fst (snor_write T_write_fails W25Q128BV 3 255 2 []) = Some 2 /\
  page_programs (snd (snor_write T_write_fails W25Q128BV 3 255 2 []))
    = [(255, 0, 1); (256, 1, 1)] /\
  fst (snor_write T_write_fails W25Q128BV 3 0 1 []) = Some 1.
Proof. vm_compute. repeat split. Qed.

(** C9 at a failing input: a status read that fails with a positive code.
    snor_read_sr reports every non-zero code of the transport as a failure,
    but snor_wait_ready leaves its loop only on a negative one.  When the
    first status read of a wait fails with a positive code and the local sr
    has WIP, WEL and EPE clear after it (it still holds its initial 0 when
    the failed read stored nothing), the wait returns 0 after this one
    failed read: it reports the device ready although no status read
    succeeded. *)
Theorem wait_ready_passes_failed_read (T : transport) (sleep_ms : Z)
    (h : trace) :
  0 < (sleep_ms + 1) * 1000 < 2 ^ 31 ->
  0 < fst (fst (snor_read_sr T 0 h)) ->
  Z.land (snd (fst (snor_read_sr T 0 h))) SR_BUSY = 0 ->
  snor_wait_ready T sleep_ms h = (0, snd (snor_read_sr T 0 h)) /\
  commands (snd (snor_wait_ready T sleep_ms h)) = [read_sr_command].
Proof.
  intros Hb Hfail Hclear.
  assert (E : snor_wait_ready T sleep_ms h = (0, read_sr_events)).
  { unfold snor_wait_ready.
    destruct (Z.to_nat ((sleep_ms + 1) * 1000)) as [|n] eqn:En; [lia|].
    cbn [snor_wait_ready_loop].
    rewrite snor_read_sr_run in Hfail, Hclear. cbn [fst snd] in Hfail, Hclear.
    rewrite (bind_run _ _ _ _ _ (snor_read_sr_run T 0 h)). cbn [fst snd].
    destruct (Z.ltb_spec (fst (sr_answer T h)) 0) as [Hneg|_]; [lia|].
    change (Z.lor SR_WIP (Z.lor SR_EPE SR_WEL)) with SR_BUSY.
    rewrite Hclear. reflexivity. }
  rewrite E, snor_read_sr_run. split; reflexivity.
Qed.

(** ** The outcome of a wait *)

(** The outcome of snor_wait_ready in the terms of its own tests.  It
    returns 0 exactly when, within its (sleep_ms + 1) * 1000 polls, some
    status read returns no negative code and leaves WIP, WEL and EPE clear
    in the local sr, every poll before it having returned no negative code
    and left a bit set; it returns -1 otherwise, in particular when every
    poll within the bound leaves a bit set and when a status read returns a
    negative code before any poll found the bits clear.  The only commands
    it issues are status reads, at most one per poll. *)
Theorem wait_ready_outcome (T : transport) (sleep_ms : Z) (h : trace) :
  - 2 ^ 31 <= (sleep_ms + 1) * 1000 < 2 ^ 31 ->
  let r := snor_wait_ready T sleep_ms h in
  let bound := Z.to_nat ((sleep_ms + 1) * 1000) in
  (fst r = 0 <-> exists k, (k < bound)%nat /\ ready_at T h 0 k) /\
  (fst r = 0 \/ fst r = -1) /\
  ((forall k, (k < bound)%nat -> ~ poll_clear T h 0 k) -> fst r = -1) /\
  (forall k, (k < bound)%nat -> fst (poll T h 0 k) < 0 ->
     (forall j, (j < k)%nat -> ~ poll_clear T h 0 j) -> fst r = -1) /\
  exists m, (m <= bound)%nat /\ commands (snd r) = repeat read_sr_command m.
Proof.
  intros _. cbn zeta.
  destruct (snor_wait_ready_spec T sleep_ms h) as (Iff & Code & _ & Cmds).
  split; [exact Iff|]. split; [exact Code|]. split; [|split; [|exact Cmds]].
  - intros Hbusy. destruct Code as [E|E]; [|exact E].
    apply Iff in E. destruct E as (k & Hk & _ & Hc & _).
    exfalso. apply (Hbusy k Hk Hc).
  - intros k Hk Hfail Hbefore. destruct Code as [E|E]; [|exact E].
    apply Iff in E. destruct E as (k' & Hk' & Hok & Hc & Hj).
    exfalso. unfold poll_ok in Hok, Hj.
    destruct (Nat.lt_trichotomy k' k) as [L|[->|L]].
    + apply (Hbefore k' L Hc).
    + lia.
    + destruct (Hj k L) as [Hk0 _]. lia.
Qed.

(** ** Aborting a short write *)

(** When the transport refuses the first chunk and that chunk is two bytes
    or more, snor_write stops after this one page program and reports 0
    bytes written. *)
Theorem short_write_aborts (T : transport) (c : chip_info) (fuel : nat)
    (to len : Z) (h : trace) :
  0 <= to < 2 ^ 64 -> 0 < len < 2 ^ 64 ->
  ulong (to + len) <= capacity c ->
  fst (snor_wait_ready T 2 h) = 0 ->
  (forall h' src n, write_nbyte T h' src n <> 0) ->
  2 <= Z.min len (FLASH_PAGESIZE - to mod FLASH_PAGESIZE) ->
  (0 < fuel)%nat ->
  fst (snor_write T c fuel to len h) = Some 0 /\
  page_programs (snd (snor_write T c fuel to len h)) =
    [(wire c to, 0, Z.min len (FLASH_PAGESIZE - to mod FLASH_PAGESIZE))].
Proof.
  intros Hto Hlen Hcap W Rej Hsize Hfuel.
  destruct fuel as [|fuel]; [lia|].
  pose proof (snor_wait_ready_quiet T 2 h) as Q0.
  unfold snor_write.
  destruct (Z.eqb_spec len 0) as [|_]; [lia|].
  fold (capacity c).
  destruct (Z.gtb_spec (ulong (to + len)) (capacity c)) as [|_]; [lia|].
  step_bind r0 d0 E0. cbn [fst snd] in *. subst r0.
  cbn [truthy Z.eqb negb].
  match goal with |- context [bind (when ?b ?m) _ ?hh] =>
    pose proof (when_quiet b m hh (snor_4byte_mode_quiet T c 1)) as Q1 end.
  step_bind u1 q1 E1. cbn [snd] in Q1.
  set (v := mk_write_vars to len (u32 (to mod FLASH_PAGESIZE)) 0 0).
  assert (Hpo : w_page_offset v = w_to v mod FLASH_PAGESIZE).
  { cbn. unfold u32, FLASH_PAGESIZE. apply Z.mod_small.
    pose proof (Z.mod_pos_bound to 256 ltac:(lia)). lia. }
  destruct (write_page_size_spec v ltac:(cbn; lia) Hpo) as (Eps & Hps & _).
  change (w_len v) with len in Eps. change (w_to v) with to in Eps.
  destruct (snor_write_loop_step T c fuel v ((h ++ d0) ++ q1) ltac:(cbn; lia))
    as (q & hx & Q & E).
  cbn zeta in E.
  assert (Hr : truthy (write_nbyte T hx (FromBuf (w_buf v)) (write_page_size v))
               = true).
  { unfold truthy. destruct (Z.eqb_spec (write_nbyte T hx (FromBuf (w_buf v))
                                            (write_page_size v)) 0) as [Z0|];
      [exfalso; apply (Rej _ _ _ Z0)|reflexivity]. }
  rewrite Hr in E. cbn [negb] in E.
  assert (C : (1 >? 0) && (u32 1 <? write_page_size v) = true).
  { change (u32 1) with 1. destruct (Z.ltb_spec 1 (write_page_size v)); [reflexivity|lia]. }
  change (w_retlen v) with 0 in E. change (int (0 + 1)) with 1 in E.
  cbn [Z.gtb Z.compare] in E, C. rewrite C in E.
  step_bind o dl El. injection E as -> ->.
  cbn [ret fst snd]. rewrite app_nil_r.
  split; [reflexivity|].
  rewrite !page_programs_app by (try apply Q0; try apply Q1).
  rewrite (quiet_page_programs d0 Q0), (quiet_page_programs q1 Q1).
  cbn [app].
  match goal with
  | |- page_programs ?x ++ [] = _ =>
      change x with (q ++ page_program_events c (w_to v) (w_buf v)
                            (write_page_size v)
                       ++ [Chip_Select_Low; Write_One_Byte OPCODE_WRDI;
                           Chip_Select_High])
  | |- page_programs ?x = _ =>
      change x with (q ++ page_program_events c (w_to v) (w_buf v)
                            (write_page_size v)
                       ++ [Chip_Select_Low; Write_One_Byte OPCODE_WRDI;
                           Chip_Select_High])
  end.
  destruct (page_program_events_seen c (w_to v) (w_buf v) (write_page_size v) q
              [Chip_Select_Low; Write_One_Byte OPCODE_WRDI; Chip_Select_High] Q)
    as [_ ->].
  rewrite Eps. rewrite ?app_nil_r. reflexivity.
Qed.

(** ** Chip select discipline *)

Lemma select_app (d1 d2 : trace) : forall b,
  select b (d1 ++ d2) =
  match select b d1 with Some b' => select b' d2 | None => None end.
Proof.
  induction d1 as [|e d1 IH]; intros b; [reflexivity|].
  destruct e, b; cbn [app select]; try reflexivity; apply IH.
Qed.

Lemma selects_ret {A} (a : A) (b : bool) : selects b b (ret a).
Proof. intros h. reflexivity. Qed.

Lemma selects_bind {A B} (b b' b'' : bool) (m : M A) (k : A -> M B) :
  selects b b' m -> (forall a, selects b' b'' (k a)) ->
  selects b b'' (bind m k).
Proof.
  intros Hm Hk h. unfold bind; cbn [snd].
  rewrite select_app, Hm. apply Hk.
Qed.

Lemma selects_when {A} (b : bool) (c : bool) (m : M A) :
  selects b b m -> selects b b (when c m).
Proof.
  intros Hm. unfold when. destruct c; [|apply selects_ret].
  eapply selects_bind; [exact Hm|]. intros _. apply selects_ret.
Qed.

Section Scoping.
Variable T : transport.

Lemma selects_low : selects false true SPI_CONTROLLER_Chip_Select_Low.
Proof. intros h. reflexivity. Qed.

Lemma selects_high : selects true false SPI_CONTROLLER_Chip_Select_High.
Proof. intros h. reflexivity. Qed.

Lemma selects_write_one_byte (data : Z) :
  selects true true (SPI_CONTROLLER_Write_One_Byte T data).
Proof. intros h. reflexivity. Qed.

Lemma selects_read_nbyte (dst : dest) (len : Z) :
  selects true true (SPI_CONTROLLER_Read_NByte T dst len).
Proof. intros h. reflexivity. Qed.

Lemma selects_write_nbyte (src : source) (len : Z) :
  selects true true (SPI_CONTROLLER_Write_NByte T src len).
Proof. intros h. reflexivity. Qed.

Lemma selects_udelay (us : Z) : selects false false (udelay us).
Proof. intros h. reflexivity. Qed.

End Scoping.

Create HintDb scoping discriminated.
#[export] Hint Constants Opaque : scoping.
#[export] Hint Resolve selects_low selects_high selects_write_one_byte
  selects_read_nbyte selects_write_nbyte selects_udelay : scoping.

(** Follows the structure of a driver function: sequencing, the
    conditionals and the results of the loops. *)
Ltac scoping :=
  repeat match goal with
  | |- selects _ _ (ret _) => apply selects_ret
  | |- selects _ _ (bind _ _) => eapply selects_bind; [|intros ?]
  | |- selects _ _ (when _ _) => apply selects_when
  | |- selects _ _ (if ?c then _ else _) => destruct c
  | |- selects _ _ (match ?o with Exit _ => _ | Return _ => _ | Running _ => _ end) =>
      destruct o
  | |- selects _ _ (match ?o with Some _ => _ | None => _ end) => destruct o
  | |- selects _ _ (let _ := _ in _) => cbv zeta
  | |- selects _ _ _ => solve [auto with scoping]
  end.

Section Scoped.
Variable T : transport.

Lemma selects_write_enable : selects false false (snor_write_enable T).
Proof. unfold snor_write_enable. scoping. Qed.

Lemma selects_write_disable : selects false false (snor_write_disable T).
Proof. unfold snor_write_disable. scoping. Qed.

Lemma selects_read_sr val : selects false false (snor_read_sr T val).
Proof. unfold snor_read_sr. scoping. Qed.

Lemma selects_write_sr val : selects false false (snor_write_sr T val).
Proof. unfold snor_write_sr. scoping. Qed.

Lemma selects_read_rg code val : selects false false (snor_read_rg T code val).
Proof. unfold snor_read_rg. scoping. Qed.

Lemma selects_write_rg code val : selects false false (snor_write_rg T code val).
Proof. unfold snor_write_rg. scoping. Qed.

Hint Resolve selects_write_enable selects_write_disable selects_read_sr
  selects_write_sr selects_read_rg selects_write_rg : scoping.

Lemma selects_unprotect : selects false false (snor_unprotect T).
Proof. unfold snor_unprotect. scoping. Qed.

Lemma selects_wait_ready_loop (n : nat) :
  forall sr, selects false false (snor_wait_ready_loop T n sr).
Proof.
  induction n as [|n IH]; intros sr; cbn [snor_wait_ready_loop]; scoping.
Qed.

Lemma selects_wait_ready sleep_ms : selects false false (snor_wait_ready T sleep_ms).
Proof. apply selects_wait_ready_loop. Qed.

Lemma selects_read_devid n_rx : selects false false (snor_read_devid T n_rx).
Proof. unfold snor_read_devid. scoping. Qed.

Hint Resolve selects_unprotect selects_wait_ready selects_read_devid : scoping.

Lemma selects_chip_prob : selects false false (chip_prob T).
Proof. unfold chip_prob. scoping. Qed.

Hint Resolve selects_chip_prob : scoping.

Lemma selects_init : selects false false (snor_init T).
Proof. unfold snor_init. scoping. Qed.

Variable c : chip_info.

Lemma selects_4byte_mode enable : selects false false (snor_4byte_mode T c enable).
Proof. unfold snor_4byte_mode. scoping. Qed.

Lemma selects_send_address opcode addr :
  selects true true (send_address T c opcode addr).
Proof. unfold send_address. scoping. Qed.

Hint Resolve selects_4byte_mode selects_send_address : scoping.

Lemma selects_erase_sector offset : selects false false (snor_erase_sector T c offset).
Proof. unfold snor_erase_sector. scoping. Qed.

Lemma selects_full_erase_chip : selects false false (full_erase_chip T).
Proof. unfold full_erase_chip. scoping. Qed.

Hint Resolve selects_erase_sector selects_full_erase_chip : scoping.

Lemma selects_erase_loop (fuel : nat) :
  forall offs len, selects false false (snor_erase_loop T c fuel offs len).
Proof.
  induction fuel as [|fuel IH]; intros offs len; cbn [snor_erase_loop]; scoping.
Qed.

Lemma selects_read_loop (fuel : nat) :
  forall len ra rl, selects false false (snor_read_loop T c fuel len ra rl).
Proof.
  induction fuel as [|fuel IH]; intros len ra rl; cbn [snor_read_loop]; scoping.
Qed.

Lemma selects_write_loop (fuel : nat) :
  forall v, selects false false (snor_write_loop T c fuel v).
Proof.
  induction fuel as [|fuel IH]; intros v; cbn [snor_write_loop]; scoping.
Qed.

Hint Resolve selects_erase_loop selects_read_loop selects_write_loop : scoping.

Lemma selects_erase fuel offs len : selects false false (snor_erase T c fuel offs len).
Proof. unfold snor_erase. scoping. Qed.

Lemma selects_read fuel from len : selects false false (snor_read T c fuel from len).
Proof. unfold snor_read. scoping. Qed.

Lemma selects_write fuel to len : selects false false (snor_write T c fuel to len).
Proof. unfold snor_write. scoping. Qed.

End Scoped.

(** Chip select discipline of the driver.  In every call of snor_init,
    snor_erase, snor_read and snor_write, for every transport, chip,
    argument and history, on every exit path: chip select is asserted only
    when released and released only when asserted, every byte and block
    transfer happens while it is asserted, the driver sleeps only while it
    is released, and the call leaves it released. *)
Theorem chip_select_discipline (T : transport) (c : chip_info) (fuel : nat)
    (h : trace) :
  scoped (snd (snor_init T h)) /\
  (forall offs len, scoped (snd (snor_erase T c fuel offs len h))) /\
  (forall from len, scoped (snd (snor_read T c fuel from len h))) /\
  (forall to len, scoped (snd (snor_write T c fuel to len h))).
Proof.
  split; [apply selects_init|].
  split; [intros; apply selects_erase|].
  split; [intros; apply selects_read|intros; apply selects_write].
Qed.

(** ** Unprotect, the mode switch and the time of a wait *)

Lemma slept_app (d1 d2 : trace) : slept (d1 ++ d2) = slept d1 + slept d2.
Proof.
  induction d1 as [|e d1 IH]; [reflexivity|].
  destruct e; cbn [app slept]; rewrite IH; lia.
Qed.

Lemma block_protect_bits (sr : Z) :
  truthy (Z.land sr (Z.lor SR_BP0 (Z.lor SR_BP1 SR_BP2)))
  = Z.testbit sr 2 || Z.testbit sr 3 || Z.testbit sr 4.
Proof.
  change (Z.lor SR_BP0 (Z.lor SR_BP1 SR_BP2)) with 28.
  unfold truthy.
  destruct (Z.eqb_spec (Z.land sr 28) 0) as [E|E]; cbn [negb].
  - assert (B : forall n, Z.testbit sr n && Z.testbit 28 n = false).
    { intros n. rewrite <- Z.land_spec, E. apply Z.testbit_0_l. }
    pose proof (B 2) as B2. pose proof (B 3) as B3. pose proof (B 4) as B4.
    change (Z.testbit 28 2) with true in B2.
    change (Z.testbit 28 3) with true in B3.
    change (Z.testbit 28 4) with true in B4.
    rewrite andb_true_r in B2, B3, B4.
    rewrite B2, B3, B4. reflexivity.
  - destruct (Z.testbit sr 2 || Z.testbit sr 3 || Z.testbit sr 4) eqn:Hb;
      [reflexivity|].
    apply orb_false_elim in Hb. destruct Hb as [Hb B4].
    apply orb_false_elim in Hb. destruct Hb as [B2 B3].
    exfalso. apply E. apply Z.bits_inj'. intros n Hn.
    rewrite Z.land_spec, Z.testbit_0_l.
    assert (C : n = 0 \/ n = 1 \/ n = 2 \/ n = 3 \/ n = 4 \/ 5 <= n) by lia.
    destruct C as [->|[->|[->|[->|[->|C]]]]];
      rewrite ?B2, ?B3, ?B4; try reflexivity; try apply andb_false_r.
    rewrite (Z.bits_above_log2 28 n) by (cbn; lia).
    apply andb_false_r.
Qed.

(** Unprotect.  snor_unprotect reads the status register once.  When that
    read returns a negative code it returns -1.  Otherwise it returns 0,
    and it writes 0 to the status register exactly when one of the block
    protect bits BP0, BP1, BP2 (bits 2, 3 and 4) is set in the status it
    holds; whether that write succeeds does not change the result. *)
Theorem unprotect_clears_block_protect (T : transport) (h : trace) :
  let a := sr_answer T h in
  let sr := stored 0 (snd a) in
  (fst a < 0 -> snor_unprotect T h = (-1, read_sr_events)) /\
  (0 <= fst a ->
   fst (snor_unprotect T h) = 0 /\
   snd (snor_unprotect T h) =
     read_sr_events ++
     (if Z.testbit sr 2 || Z.testbit sr 3 || Z.testbit sr 4
      then write_sr_events 0 else [])).
Proof.
  cbn zeta. unfold snor_unprotect.
  rewrite (bind_run _ _ _ _ _ (snor_read_sr_run T 0 h)). cbn [fst snd].
  rewrite block_protect_bits.
  destruct (Z.ltb_spec (fst (sr_answer T h)) 0) as [Hneg|Hok].
  - split; [|lia]. intros _. reflexivity.
  - split; [lia|]. intros _.
    destruct (_ || _).
    + unfold when, bind; cbn [fst snd ret]. rewrite snor_write_sr_trace.
      split; reflexivity.
    + split; reflexivity.
Qed.

Section ModeSwitch.
Variable T : transport.
Variable c : chip_info.

(** Switching the addressing mode on parts other than Spansion.  The
    switch waits for the device first and, when that wait fails, returns -1
    with nothing but the status reads on the bus.  Otherwise it sends the
    single opcode B7 (enter) or E9 (exit) and returns 0, or -1 when the
    controller reports a failure for that byte.  Leaving 4-byte mode on a
    Winbond part (id EF), when the byte went out, is followed by a write
    enable and a write of 0 to register C5. *)
Theorem addressing_mode_switch (enable : Z) (h : trace) :
  id c <> 1 ->
  let w := snor_wait_ready T 1 h in
  let code := if truthy enable then 0xb7 else 0xe9 in
  let rv := write_one_byte T ((h ++ snd w) ++ [Chip_Select_Low]) code in
  (fst w <> 0 -> snor_4byte_mode T c enable h = (-1, snd w)) /\
  (fst w = 0 ->
   fst (snor_4byte_mode T c enable h) = (if truthy rv then -1 else 0) /\
   snd (snor_4byte_mode T c enable h) =
     snd w ++ [Chip_Select_Low; Write_One_Byte code; Chip_Select_High] ++
     (if negb (truthy rv) && negb (truthy enable) && (id c =? 0xef)
      then [Chip_Select_Low; Write_One_Byte OPCODE_WREN; Chip_Select_High;
            Chip_Select_Low; Write_One_Byte 0xc5;
            Write_NByte (FromLocal 0) 1; Chip_Select_High]
      else [])).
Proof.
  intros Hid. cbn zeta. unfold snor_4byte_mode.
  step_bind r d E.
  destruct (Z.eq_dec r 0) as [->|Hr].
  - cbn [truthy Z.eqb negb].
    split; [intros H; contradiction|]. intros _.
    destruct (Z.eqb_spec (id c) 1) as [|_]; [contradiction|].
    cbv zeta. prim.
    destruct (truthy (write_one_byte T _ _)); cbn [negb andb fst snd].
    + split; reflexivity.
    + unfold when. destruct (negb (truthy enable) && (id c =? 239)) eqn:W.
      * unfold bind; cbn [fst snd ret].
        rewrite snor_write_rg_trace, snor_write_enable_run. cbn [snd app].
        split; reflexivity.
      * cbn [ret bind fst snd app]. split; reflexivity.
  - split; [|intros H; contradiction]. intros _.
    unfold truthy. destruct (Z.eqb_spec r 0) as [|_]; [contradiction|].
    cbn [negb ret fst snd]. rewrite app_nil_r. reflexivity.
Qed.

(** Switching the addressing mode on Spansion parts (id 01).  After the
    wait the switch writes 0x81 (enter) or 0 (exit) to the bank register
    with opcode 17 and reads the register back with opcode 16.  It returns
    0 exactly when the byte read back equals the byte written; the return
    codes of the two transfers are not looked at. *)
Theorem bank_register_switch (enable : Z) (h : trace) (b : Z) (rest : list Z) :
  id c = 1 ->
  let w := snor_wait_ready T 1 h in
  let br := if truthy enable then 0x81 else 0 in
  let write_back :=
    [Chip_Select_Low; Write_One_Byte OPCODE_BRWR; Write_NByte (FromLocal br) 1;
     Chip_Select_High] in
  fst w = 0 ->
  snd (read_nbyte T (((h ++ snd w) ++ write_back)
                       ++ [Chip_Select_Low; Write_One_Byte OPCODE_BRRD])
                  ToLocal 1) = b :: rest ->
  fst (snor_4byte_mode T c enable h) = (if u8 b =? br then 0 else -1) /\
  snd (snor_4byte_mode T c enable h) =
    snd w ++ write_back ++
    [Chip_Select_Low; Write_One_Byte OPCODE_BRRD; Read_NByte ToLocal 1;
     Chip_Select_High].
Proof.
  intros Hid. cbn zeta. intros W A. unfold snor_4byte_mode.
  step_bind r d E. cbn [fst snd] in W, A. subst r.
  cbn [truthy Z.eqb negb]. rewrite Hid. cbn [Z.eqb Pos.eqb].
  cbv zeta.
  match goal with |- context [bind (snor_write_rg T ?code ?v) _ ?hh] =>
    pose proof (snor_write_rg_trace T code v hh) as Ew end.
  step_bind r1 d1 E1. cbn [snd] in Ew. subst d1.
  unfold snor_read_rg; prim.
  rewrite <- !app_assoc in *. cbn [app] in *. rewrite A. cbn [stored].
  destruct (truthy (fst _)); cbn [fst snd];
    (destruct (u8 b =? _); cbn [negb fst snd]; split; reflexivity).
Qed.

End ModeSwitch.

Section WaitTime.
Variable T : transport.

Lemma wait_loop_ready (n : nat) : forall (sr : Z) (h : trace) (k : nat),
  (k < n)%nat -> ready_at T h sr k ->
  let r := snor_wait_ready_loop T n sr h in
  fst r = 0 /\ slept (snd r) = 500 * Z.of_nat k /\
  commands (snd r) = repeat read_sr_command (S k).
Proof.
  induction n as [|n IH]; intros sr h k Hk Hr; [lia|]. cbn zeta.
  cbn [snor_wait_ready_loop].
  rewrite (bind_run _ _ _ _ _ (snor_read_sr_run T sr h)). cbn [fst snd].
  destruct k as [|k].
  - destruct Hr as (Hok & Hcl & _). unfold poll_ok, poll_clear in Hok, Hcl.
    cbn [poll fst snd] in Hok, Hcl.
    destruct (Z.ltb_spec (fst (sr_answer T h)) 0) as [|_]; [lia|].
    change (Z.lor SR_WIP (Z.lor SR_EPE SR_WEL)) with SR_BUSY.
    rewrite Hcl. cbn. repeat split; reflexivity.
  - apply ready_at_S in Hr. destruct Hr as [[Hok Hbusy] Hr].
    destruct (Z.ltb_spec (fst (sr_answer T h)) 0) as [|_]; [lia|].
    change (Z.lor SR_WIP (Z.lor SR_EPE SR_WEL)) with SR_BUSY.
    unfold truthy. rewrite negb_involutive.
    destruct (Z.eqb_spec (Z.land (stored sr (snd (sr_answer T h))) SR_BUSY) 0)
      as [|_]; [contradiction|].
    rewrite (bind_run _ _ _ _ _ (eq_refl : udelay 500 _ = (tt, [usleep 500]))).
    rewrite <- app_assoc.
    specialize (IH _ _ k ltac:(lia) Hr). cbn zeta in IH.
    destruct (snor_wait_ready_loop T n _ _) as [rv d]. cbn [fst snd] in *.
    destruct IH as (-> & Hs & Hc).
    split; [reflexivity|]. split.
    + cbn [app slept read_sr_events]. rewrite Hs. lia.
    + unfold commands in *. cbn. rewrite Hc. reflexivity.
Qed.

Lemma wait_loop_busy (n : nat) : forall (sr : Z) (h : trace),
  (forall k, (k < n)%nat -> poll_ok T h sr k /\ ~ poll_clear T h sr k) ->
  let r := snor_wait_ready_loop T n sr h in
  fst r = -1 /\ slept (snd r) = 500 * Z.of_nat n /\
  commands (snd r) = repeat read_sr_command n.
Proof.
  induction n as [|n IH]; intros sr h Hbusy; cbn zeta.
  - repeat split; reflexivity.
  - cbn [snor_wait_ready_loop].
    rewrite (bind_run _ _ _ _ _ (snor_read_sr_run T sr h)). cbn [fst snd].
    destruct (Hbusy O ltac:(lia)) as [Hok Hcl].
    unfold poll_ok, poll_clear in Hok, Hcl. cbn [poll fst snd] in Hok, Hcl.
    destruct (Z.ltb_spec (fst (sr_answer T h)) 0) as [|_]; [lia|].
    change (Z.lor SR_WIP (Z.lor SR_EPE SR_WEL)) with SR_BUSY.
    unfold truthy. rewrite negb_involutive.
    destruct (Z.eqb_spec (Z.land (stored sr (snd (sr_answer T h))) SR_BUSY) 0)
      as [|_]; [contradiction|].
    rewrite (bind_run _ _ _ _ _ (eq_refl : udelay 500 _ = (tt, [usleep 500]))).
    rewrite <- app_assoc.
    specialize (IH (stored sr (snd (sr_answer T h)))
                  (h ++ read_sr_events ++ [usleep 500])).
    cbn zeta in IH.
    destruct (snor_wait_ready_loop T n _ _) as [rv d]. cbn [fst snd] in *.
    destruct IH as (-> & Hs & Hc).
    { intros k Hk. exact (Hbusy (S k) ltac:(lia)). }
    split; [reflexivity|]. split.
    + cbn [app slept read_sr_events]. rewrite Hs. lia.
    + unfold commands in *. cbn. rewrite Hc. reflexivity.
Qed.

End WaitTime.

(** The time a ready-wait takes.  The wait is counted in polls, 500
    microseconds apart, and its bound is (sleep_ms + 1) * 1000 polls (for
    a sleep_ms whose bound an int holds).  A wait that finds the device
    ready at poll k has read the status k + 1 times and slept 500 * k
    microseconds.  A wait on a device that stays busy gives up after
    exactly (sleep_ms + 1) * 1000 status reads and
    500 * (sleep_ms + 1) * 1000 microseconds of sleep, half a second for
    every unit of sleep_ms + 1. *)
Theorem wait_ready_time (T : transport) (sleep_ms : Z) (h : trace) :
  - 2 ^ 31 <= sleep_ms -> (sleep_ms + 1) * 1000 < 2 ^ 31 ->
  let r := snor_wait_ready T sleep_ms h in
  let bound := Z.to_nat ((sleep_ms + 1) * 1000) in
  (forall k, (k < bound)%nat -> ready_at T h 0 k ->
     fst r = 0 /\ slept (snd r) = 500 * Z.of_nat k /\
     commands (snd r) = repeat read_sr_command (S k)) /\
  ((forall k, (k < bound)%nat -> poll_ok T h 0 k /\ ~ poll_clear T h 0 k) ->
     fst r = -1 /\ slept (snd r) = 500 * Z.of_nat bound /\
     commands (snd r) = repeat read_sr_command bound).
Proof.
  intros _ _. cbn zeta. split.
  - intros k Hk Hr. exact (wait_loop_ready T _ 0 h k Hk Hr).
  - intros Hbusy. exact (wait_loop_busy T _ 0 h Hbusy).
Qed.

(** ** Identification by family *)

Lemma byte_high_bits (b n : Z) :
  0 <= b < 256 -> 8 <= n -> Z.testbit b n = false.
Proof.
  intros Hb Hn. destruct (Z.eq_dec b 0) as [->|Hz].
  - apply Z.testbit_0_l.
  - apply Z.bits_above_log2; [lia|].
    assert (Z.log2 b < 8); [|lia].
    apply Z.log2_lt_pow2; lia.
Qed.

Lemma family_mask_bit (n : Z) :
  Z.testbit 0xffff0000 n = (16 <=? n) && (n <? 32).
Proof.
  change 0xffff0000 with (Z.shiftl (Z.ones 16) 16).
  destruct (Z.leb_spec 16 n) as [H16|H16]; cbn [andb].
  - rewrite Z.shiftl_spec by lia.
    destruct (Z.ltb_spec n 32) as [H32|H32].
    + apply Z.ones_spec_low. lia.
    + apply Z.ones_spec_high. lia.
  - destruct (Z.neg_nonneg_cases n) as [Hneg|Hpos].
    + apply Z.testbit_neg_r. exact Hneg.
    + rewrite Z.shiftl_spec by lia. apply Z.testbit_neg_r. lia.
Qed.

Lemma family_of_bytes (b1 b2 b3 b4 : Z) :
  0 <= b1 < 256 -> 0 <= b2 < 256 -> 0 <= b3 < 256 -> 0 <= b4 < 256 ->
  Z.land (Z.lor (Z.shiftl b1 24)
            (Z.lor (Z.shiftl b2 16) (Z.lor (Z.shiftl b3 8) b4))) 0xffff0000
  = Z.lor (Z.shiftl b1 24) (Z.shiftl b2 16).
Proof.
  intros H1 H2 H3 H4. apply Z.bits_inj'. intros n Hn.
  rewrite Z.land_spec, !Z.lor_spec, !Z.shiftl_spec by lia.
  rewrite family_mask_bit.
  destruct (Z.leb_spec 16 n) as [H16|H16]; cbn [andb].
  - rewrite (byte_high_bits b3 (n - 8)) by lia.
    rewrite (byte_high_bits b4 n) by lia.
    destruct (Z.ltb_spec n 32) as [H32|H32].
    + rewrite !orb_false_r, andb_true_r. reflexivity.
    + rewrite (byte_high_bits b1 (n - 24)) by lia.
      rewrite (byte_high_bits b2 (n - 16)) by lia. reflexivity.
  - rewrite (Z.testbit_neg_r b1) by lia.
    rewrite (Z.testbit_neg_r b2) by lia.
    rewrite andb_false_r. reflexivity.
Qed.

(** An exact match is a family match: the test of the loop is the family
    test, and its outcome does not depend on the closest row tracked. *)
Lemma chip_prob_loop_family (buf0 jedec jedec' : Z) (rows : list chip_info) :
  Z.land jedec 0xffff0000 = Z.land jedec' 0xffff0000 ->
  forall (i : nat) (w w' : Z) (m m' : nat),
  chip_prob_loop rows i buf0 jedec (Z.land jedec 0xffff0000) w m =
  chip_prob_loop rows i buf0 jedec' (Z.land jedec' 0xffff0000) w' m'.
Proof.
  intros F. induction rows as [|info rows IH]; intros i w w' m m';
    cbn [chip_prob_loop]; [reflexivity|].
  destruct (id info =? buf0); [|apply IH].
  assert (E : forall j, Z.land j 0xffff0000 = Z.land jedec 0xffff0000 ->
              (jedec_id info =? j)
              || (Z.land (jedec_id info) 0xffff0000 =? Z.land j 0xffff0000)
              = (Z.land (jedec_id info) 0xffff0000 =? Z.land jedec 0xffff0000)).
  { intros j Hj. rewrite Hj.
    destruct (Z.eqb_spec (jedec_id info) j) as [->|_]; [|reflexivity].
    rewrite Hj, Z.eqb_refl. reflexivity. }
  rewrite (E jedec eq_refl), (E jedec' (eq_sym F)).
  destruct (_ =? _); [reflexivity|].
  destruct (w >? _), (w' >? _); apply IH.
Qed.

(** The row the loop returns is the first one that matches. *)
Lemma chip_prob_loop_first (buf0 jedec strip : Z) (rows : list chip_info) :
  forall (i : nat) (w : Z) (m k : nat),
  chip_prob_loop rows i buf0 jedec strip w m = Some k ->
  (i <= k)%nat /\
  exists row, nth_error rows (k - i) = Some row /\
    id row = buf0 /\
    (jedec_id row = jedec \/ Z.land (jedec_id row) 0xffff0000 = strip) /\
    forall j row', (j < k - i)%nat -> nth_error rows j = Some row' ->
      ~ (id row' = buf0 /\ Z.land (jedec_id row') 0xffff0000 = strip).
Proof.
  induction rows as [|info rows IH]; intros i w m k E; cbn [chip_prob_loop] in E;
    [discriminate|].
  assert (Step : forall w1 m1,
            chip_prob_loop rows (S i) buf0 jedec strip w1 m1 = Some k ->
            ~ (id info = buf0 /\ Z.land (jedec_id info) 0xffff0000 = strip) ->
            (i <= k)%nat /\
            exists row, nth_error (info :: rows) (k - i) = Some row /\
              id row = buf0 /\
              (jedec_id row = jedec \/ Z.land (jedec_id row) 0xffff0000 = strip) /\
              forall j row', (j < k - i)%nat ->
                nth_error (info :: rows) j = Some row' ->
                ~ (id row' = buf0 /\ Z.land (jedec_id row') 0xffff0000 = strip)).
  { intros w1 m1 E1 Hno. apply IH in E1.
    destruct E1 as (Hk & row & Hrow & Hid & Hj & Hfirst).
    split; [lia|]. exists row.
    replace (k - i)%nat with (S (k - S i)) by lia. cbn [nth_error].
    repeat split; try assumption.
    intros [|j] row' Hlt Hr; cbn [nth_error] in Hr.
    - injection Hr as <-. exact Hno.
    - apply (Hfirst j row'); [lia|exact Hr]. }
  destruct (Z.eqb_spec (id info) buf0) as [Hid|Hid].
  - destruct (Z.eqb_spec (jedec_id info) jedec) as [Hj|Hj];
      destruct (Z.eqb_spec (Z.land (jedec_id info) 0xffff0000) strip) as [Hs|Hs];
      cbn [orb] in E.
    1-3: injection E as <-; split; [lia|]; exists info;
      rewrite Nat.sub_diag; cbn [nth_error];
      repeat split; auto; intros j row' Hlt; lia.
    destruct (w >? _); apply (Step _ _ E); intros [_ H]; contradiction.
  - apply (Step _ _ E). intros [H _]. contradiction.
Qed.

Lemma firstn_In_nth_error {A} (l : list A) : forall (i : nat) (x : A),
  In x (firstn i l) -> exists j, (j < i)%nat /\ nth_error l j = Some x.
Proof.
  induction l as [|a l IH]; intros [|i] x Hin; cbn in Hin; try contradiction.
  destruct Hin as [<-|Hin].
  - exists O. split; [lia|reflexivity].
  - destruct (IH i x Hin) as (j & Hj & E). exists (S j). split; [lia|exact E].
Qed.

Lemma chip_prob_run (T : transport) (h : trace) :
  exists buf,
    fst (chip_prob T h) =
    chip_prob_loop chips_data 0 (buf_at buf 0) (jedec_of buf)
                   (Z.land (jedec_of buf) 0xffff0000) 0xffffffff 0.
Proof.
  unfold chip_prob, snor_read_devid; prim.
  eexists. reflexivity.
Qed.

(** Identification goes by manufacturer and family.  The last two
    identification bytes never change the row chip_prob returns: two
    devices that answer with the same first three bytes are identified
    alike. *)
Theorem identification_by_family (T T' : transport) (h h' : trace)
    (b0 b1 b2 b3 b4 b3' b4' : Z) :
  0 <= b1 < 256 -> 0 <= b2 < 256 ->
  0 <= b3 < 256 -> 0 <= b4 < 256 -> 0 <= b3' < 256 -> 0 <= b4' < 256 ->
  snd (read_nbyte T (h ++ [Chip_Select_Low; Write_One_Byte OPCODE_RDID])
                  ToLocal 5) = [b0; b1; b2; b3; b4] ->
  snd (read_nbyte T' (h' ++ [Chip_Select_Low; Write_One_Byte OPCODE_RDID])
                  ToLocal 5) = [b0; b1; b2; b3'; b4'] ->
  fst (chip_prob T h) = fst (chip_prob T' h').
Proof.
  intros H1 H2 H3 H4 H3' H4' A A'.
  unfold chip_prob, snor_read_devid; prim.
  rewrite <- !app_assoc. cbn [app]. rewrite A, A'.
  unfold buf_at at 1 2. cbn [nth].
  apply chip_prob_loop_family.
  rewrite !jedec_of_bytes by assumption.
  rewrite !family_of_bytes by assumption. reflexivity.
Qed.

Lemma shadowed_never_first (buf0 jedec : Z) (w : Z) (m i : nat) :
  chip_prob_loop chips_data 0 buf0 jedec (Z.land jedec 0xffff0000) w m = Some i ->
  shadowed i = false.
Proof.
  intros E. apply chip_prob_loop_first in E.
  destruct E as (_ & row & Hrow & Hid & Hj & Hfirst).
  rewrite Nat.sub_0_r in *.
  assert (Hf : Z.land (jedec_id row) 0xffff0000 = Z.land jedec 0xffff0000).
  { destruct Hj as [->|Hj]; [reflexivity|exact Hj]. }
  unfold shadowed. rewrite Hrow.
  destruct (existsb _ _) eqn:Ex; [|reflexivity]. exfalso.
  apply existsb_exists in Ex. destruct Ex as (r' & Hin & Hsame).
  apply firstn_In_nth_error in Hin. destruct Hin as (j & Hlt & Hr').
  apply (Hfirst j r' Hlt Hr').
  unfold same_family in Hsame. apply andb_prop in Hsame.
  destruct Hsame as [S1 S2].
  apply Z.eqb_eq in S1. apply Z.eqb_eq in S2. split; congruence.
Qed.

Lemma catalog_index (i : nat) (r : chip_info) :
  nth_error chips_data i = Some r -> In i (seq 0 n_chips).
Proof.
  intros Hr. apply in_seq. split; [lia|]. cbn [Nat.add].
  change n_chips with (length chips_data).
  apply nth_error_Some. rewrite Hr. discriminate.
Qed.

Lemma unshadowed_rows_found :
  forallb (fun i => match nth_error chips_data i with
                    | Some r =>
                        shadowed i
                        || option_nat_eqb
                             (fst (chip_prob (T_id (id_bytes r)) [])) (Some i)
                    | None => true
                    end) (seq 0 n_chips) = true.
Proof. vm_compute. reflexivity. Qed.

Lemma unshadowed_row_found (i : nat) (r : chip_info) :
  nth_error chips_data i = Some r -> shadowed i = false ->
  fst (chip_prob (T_id (id_bytes r)) []) = Some i.
Proof.
  intros Hr Hs.
  pose proof (proj1 (forallb_forall _ _) unshadowed_rows_found i
                (catalog_index i r Hr)) as A.
  cbv beta in A. rewrite Hr, Hs, orb_false_l in A.
  destruct (fst (chip_prob (T_id (id_bytes r)) [])) as [k|]; [|discriminate].
  apply Nat.eqb_eq in A. subst k. reflexivity.
Qed.

(** Rows that are never identified.  chip_prob never returns a row that
    stands behind an earlier row of the same manufacturer and family,
    whatever the device answers; every other row is returned to a device
    that answers with that row's ids.  Twelve rows of the catalog stand
    behind another one.  One of them is A25L40PU (8 sectors): a device with
    its ids is identified as A25L20PU (4 sectors). *)
Theorem rows_never_identified :
  (forall (T : transport) (h : trace) (i : nat),
     fst (chip_prob T h) = Some i -> shadowed i = false) /\
  (forall (i : nat) (r : chip_info),
     nth_error chips_data i = Some r -> shadowed i = false ->
     fst (chip_prob (T_id (id_bytes r)) []) = Some i) /\
  filter shadowed (seq 0 n_chips)
    = [1; 4; 7; 31; 111; 113; 115; 119; 121; 126; 131; 137]%nat /\
  (exists r r',
     nth_error chips_data 126 = Some r /\ nth_error chips_data 125 = Some r' /\
     name r = "A25L40PU"%string /\ name r' = "A25L20PU"%string /\
     n_sectors r = 8 /\ n_sectors r' = 4 /\
     fst (chip_prob (T_id (id_bytes r)) []) = Some 125%nat).
Proof.
  split; [|split; [|split]].
  - intros T h i E. destruct (chip_prob_run T h) as [buf B].
    rewrite B in E. exact (shadowed_never_first _ _ _ _ _ E).
  - exact unshadowed_row_found.
  - vm_compute. reflexivity.
  - eexists. eexists.
    split; [reflexivity|]. split; [reflexivity|].
    vm_compute. repeat split; reflexivity.
Qed.

(** ** The catalog and snor_init *)

Lemma catalog_geometry : forallb geometry_ok chips_data = true.
Proof. vm_compute. reflexivity. Qed.

Lemma geometry_ok_spec (c : chip_info) :
  geometry_ok c = true ->
  sector_size c = 65536 /\ 1 <= n_sectors c <= 1024 /\
  (truthy (addr4b c) = true <-> 2 ^ 24 < sector_size c * n_sectors c).
Proof.
  unfold geometry_ok. intros H.
  apply andb_prop in H. destruct H as [H H4].
  apply andb_prop in H. destruct H as [H H3].
  apply andb_prop in H. destruct H as [H1 H2].
  apply Z.eqb_eq in H1. apply Z.leb_le in H2. apply Z.leb_le in H3.
  apply Bool.eqb_prop in H4.
  split; [exact H1|]. split; [lia|].
  rewrite H4. apply Z.ltb_lt.
Qed.

Lemma catalog_row_geometry (c : chip_info) :
  In c chips_data ->
  sector_size c = 65536 /\ 1 <= n_sectors c <= 1024 /\
  capacity c = sector_size c * n_sectors c /\
  (truthy (addr4b c) = true <-> 2 ^ 24 < sector_size c * n_sectors c).
Proof.
  intros Hin.
  pose proof (proj1 (forallb_forall _ _) catalog_geometry c Hin) as G.
  apply geometry_ok_spec in G. destruct G as (Hs & Hn & H4).
  split; [exact Hs|]. split; [exact Hn|]. split; [|exact H4].
  unfold capacity. apply ulong_idem. rewrite Hs. lia.
Qed.

(** Addresses reach the whole part.  Every row of the catalog has sectors
    of 64 KiB and between 1 and 1024 of them, its capacity is computed
    without wrap-around, it is flagged for 4-byte addresses exactly when
    its capacity exceeds 16 MiB, and so every address below its capacity
    goes out on the bus unchanged in the 3 or 4 address bytes the driver
    sends. *)
Theorem catalog_addresses_reach (c : chip_info) :
  In c chips_data ->
  sector_size c = 65536 /\ 1 <= n_sectors c <= 1024 /\
  capacity c = sector_size c * n_sectors c /\
  (truthy (addr4b c) = true <-> 2 ^ 24 < capacity c) /\
  forall addr, 0 <= addr < capacity c -> wire c addr = addr.
Proof.
  intros Hin.
  destruct (catalog_row_geometry c Hin) as (Hs & Hn & Hc & H4).
  split; [exact Hs|]. split; [exact Hn|]. split; [exact Hc|].
  rewrite Hc. split; [exact H4|].
  intros addr Ha. unfold wire.
  destruct (truthy (addr4b c)) eqn:E.
  - apply Z.mod_small. rewrite Hs in Ha. lia.
  - apply Z.mod_small.
    assert (~ 2 ^ 24 < sector_size c * n_sectors c).
    { intros H. apply H4 in H. discriminate. }
    lia.
Qed.

(** What snor_init does and returns.  It sends one identification command,
    a read of five bytes, and nothing else.  When chip_prob finds no row it
    returns -1 and selects no chip; when chip_prob finds row i it selects
    that row and returns its capacity sector_size * n_sectors, a positive
    number of at most 64 MiB (so never the -1 of a failure). *)
Theorem snor_init_result (T : transport) (h : trace) :
  snd (snor_init T h) =
    [Chip_Select_Low; Write_One_Byte OPCODE_RDID; Read_NByte ToLocal 5;
     Chip_Select_High] /\
  (fst (chip_prob T h) = None -> fst (snor_init T h) = (-1, None)) /\
  (forall i, fst (chip_prob T h) = Some i ->
     exists c, nth_error chips_data i = Some c /\
       fst (snor_init T h) = (sector_size c * n_sectors c, Some c) /\
       0 < sector_size c * n_sectors c <= 2 ^ 26).
Proof.
  assert (Tr : snd (chip_prob T h) =
               [Chip_Select_Low; Write_One_Byte OPCODE_RDID;
                Read_NByte ToLocal 5; Chip_Select_High])
    by reflexivity.
  assert (Found : forall i, fst (chip_prob T h) = Some i ->
            exists c, nth_error chips_data i = Some c).
  { intros i E. destruct (chip_prob_run T h) as [buf B]. rewrite B in E.
    apply chip_prob_loop_first in E.
    destruct E as (_ & row & Hrow & _). rewrite Nat.sub_0_r in Hrow.
    exists row. exact Hrow. }
  unfold snor_init. step_bind p d E. cbn [fst snd] in Tr, Found. subst d.
  destruct p as [i|].
  - destruct (Found i eq_refl) as [c Hc]. rewrite Hc. cbn [ret fst snd].
    split; [reflexivity|]. split; [discriminate|].
    intros i' Ei. injection Ei as <-. exists c. split; [exact Hc|].
    apply nth_error_In in Hc.
    destruct (catalog_row_geometry c Hc) as (Hs & Hn & Hcap & _).
    unfold capacity in Hcap. rewrite Hcap.
    split; [reflexivity|]. rewrite Hs. lia.
  - cbn [ret fst snd]. split; [reflexivity|]. split; [reflexivity|].
    intros i Ei. discriminate.
Qed.

(** ** Addresses on the bus *)

Lemma address_byte_shift (a k n p : Z) :
  0 <= n -> n + 8 <= p ->
  Z.land (Z.shiftr (a + k * 2 ^ p) n) 0xff = Z.land (Z.shiftr a n) 0xff.
Proof.
  intros Hn Hp. rewrite !byte_of by assumption.
  replace (k * 2 ^ p) with (k * 2 ^ (p - n - 8) * 256 * 2 ^ n).
  - rewrite Z.div_add by lia. apply Z.mod_add. lia.
  - replace p with ((p - n - 8) + 8 + n) at 2 by lia.
    rewrite !Z.pow_add_r by lia. change (2 ^ 8) with 256. ring.
Qed.

(** The address bytes of a command.  send_address sends the opcode and
    then 3 address bytes, or 4 on a chip with 4-byte addresses, most
    significant first; read back as a big-endian number they are the
    address modulo 2^24, or 2^32.  So an address 2^24 (2^32) higher goes
    out as the same bytes. *)
Theorem address_bytes_big_endian (T : transport) (c : chip_info)
    (opcode addr : Z) (h : trace) :
  let bytes := address_events c addr in
  snd (send_address T c opcode addr h) = Write_One_Byte opcode :: bytes /\
  length bytes = (if truthy (addr4b c) then 4 else 3)%nat /\
  Forall (fun e => exists b, e = Write_One_Byte b /\ 0 <= b < 256) bytes /\
  fst (be_value 0 bytes)
    = (if truthy (addr4b c) then addr mod 2 ^ 32 else addr mod 2 ^ 24) /\
  forall k,
    address_events c
      (addr + k * (if truthy (addr4b c) then 2 ^ 32 else 2 ^ 24)) = bytes.
Proof.
  cbn zeta. split; [|split; [|split; [|split]]].
  - rewrite send_address_run. reflexivity.
  - unfold address_events. destruct (truthy (addr4b c)); reflexivity.
  - assert (B : forall n, 0 <= n ->
                exists b, Write_One_Byte (Z.land (Z.shiftr addr n) 0xff)
                          = Write_One_Byte b /\ 0 <= b < 256).
    { intros n Hn. eexists. split; [reflexivity|].
      rewrite byte_of by assumption. apply Z.mod_pos_bound. lia. }
    assert (B0 : exists b, Write_One_Byte (Z.land addr 0xff)
                           = Write_One_Byte b /\ 0 <= b < 256).
    { destruct (B 0 ltac:(lia)) as (b & E & Hb). exists b.
      rewrite Z.shiftr_0_r in E. split; assumption. }
    unfold address_events.
    destruct (truthy (addr4b c)); cbn [app];
      repeat constructor; try apply B; try exact B0; lia.
  - pose proof (be_value_address c addr [] I) as E.
    rewrite app_nil_r in E. rewrite E. reflexivity.
  - intros k. unfold address_events.
    pose proof (address_byte_shift addr k 0 32 ltac:(lia) ltac:(lia)) as S32.
    pose proof (address_byte_shift addr k 0 24 ltac:(lia) ltac:(lia)) as S24.
    rewrite !Z.shiftr_0_r in S32, S24.
    destruct (truthy (addr4b c)).
    + rewrite (address_byte_shift addr k 24 32) by lia.
      rewrite (address_byte_shift addr k 16 32) by lia.
      rewrite (address_byte_shift addr k 8 32) by lia.
      rewrite S32. reflexivity.
    + rewrite (address_byte_shift addr k 16 24) by lia.
      rewrite (address_byte_shift addr k 8 24) by lia.
      rewrite S24. reflexivity.
Qed.

Lemma detected_ok_eq (r : chip_info) :
  detected_ok r =
  match detected_as r with
  | Some row =>
      same_family r row
      && (same_part r row
          || String.eqb (name r) "A25L40PU" || String.eqb (name r) "A25L40PT")
  | None => false
  end.
Proof. reflexivity. Qed.

Lemma detected_as_eq (r : chip_info) :
  detected_as r =
  match fst (chip_prob (T_id (id_bytes r)) []) with
  | Some i => nth_error chips_data i
  | None => None
  end.
Proof. reflexivity. Qed.

Lemma detected_as_In (r row : chip_info) :
  detected_as r = Some row -> In row chips_data.
Proof.
  intros Er. rewrite detected_as_eq in Er.
  destruct (fst (chip_prob (T_id (id_bytes r)) [])) as [i|]; [|discriminate].
  apply nth_error_In in Er. exact Er.
Qed.

Lemma catalog_detected_ok : forallb detected_ok chips_data = true.
Proof. vm_compute. reflexivity. Qed.

(** Every part of the catalog is detected.  A device that answers with the
    ids of a row of the catalog is identified as a row of the same
    manufacturer and family, and that row has the same sector size, sector
    count, addressing width and supply range, except for A25L40PU and
    A25L40PT, which are taken for the smaller A25L20PU and A25L20PT. *)
Theorem catalog_parts_detected (r : chip_info) :
  In r chips_data ->
  exists row,
    detected_as r = Some row /\ In row chips_data /\
    id row = id r /\
    Z.land (jedec_id row) 0xffff0000 = Z.land (jedec_id r) 0xffff0000 /\
    ((sector_size row = sector_size r /\ n_sectors row = n_sectors r /\
      addr4b row = addr4b r /\
      vcc_min row = vcc_min r /\ vcc_max row = vcc_max r) \/
     name r = "A25L40PU"%string \/ name r = "A25L40PT"%string).
Proof.
  intros Hin.
  pose proof (proj1 (forallb_forall _ _) catalog_detected_ok r Hin) as D.
  rewrite detected_ok_eq in D.
  destruct (detected_as r) as [row|] eqn:Er; [|discriminate D].
  exists row. split; [reflexivity|].
  apply andb_prop in D. destruct D as [F P].
  unfold same_family in F. apply andb_prop in F. destruct F as [F1 F2].
  apply Z.eqb_eq in F1. apply Z.eqb_eq in F2.
  split; [exact (detected_as_In r row Er)|].
  split; [symmetry; exact F1|]. split; [symmetry; exact F2|].
  apply orb_prop in P. destruct P as [P|P].
  - apply orb_prop in P. destruct P as [P|P].
    + left. unfold same_part in P.
      apply andb_prop in P. destruct P as [P P5].
      apply andb_prop in P. destruct P as [P P4].
      apply andb_prop in P. destruct P as [P P3].
      apply andb_prop in P. destruct P as [P1 P2].
      apply Z.eqb_eq in P1. apply Z.eqb_eq in P2. apply Z.eqb_eq in P3.
      apply Q_eqb_eq in P4. apply Q_eqb_eq in P5.
      repeat split; symmetry; assumption.
    + right. left. apply String.eqb_eq. exact P.
  - right. right. apply String.eqb_eq. exact P.
Qed.

(** ** Erasing a range *)

Section EraseRange.
Variable T : transport.
Variable c : chip_info.

(** With a whole number of sectors to erase the loop erases them one after
    the other and leaves. *)
Lemma snor_erase_loop_aligned (n : nat) :
  responsive T ->
  0 < sector_size c < 2 ^ 64 ->
  forall (fuel : nat) (offs : Z) (h : trace),
  0 <= offs < 2 ^ 64 ->
  Z.of_nat n * sector_size c < 2 ^ 64 ->
  (n < fuel)%nat ->
  (exists s,
     fst (snor_erase_loop T c fuel offs (Z.of_nat n * sector_size c) h)
       = Exit s) /\
  sector_erases
    (snd (snor_erase_loop T c fuel offs (Z.of_nat n * sector_size c) h)) =
    map (fun i => wire c (offs + Z.of_nat i * sector_size c)) (seq 0 n).
Proof.
  intros R Hss.
  induction n as [|n IH]; intros fuel offs h Ho Hn Hf;
    (destruct fuel as [|fuel]; [lia|]); cbn [snor_erase_loop].
  - cbn. split; [eexists; reflexivity|reflexivity].
  - destruct (Z.gtb_spec (Z.of_nat (S n) * sector_size c) 0) as [_|]; [|nia].
    pose proof (snor_erase_sector_spec T c offs h) as Sp. cbn zeta in Sp.
    pose proof (snor_erase_sector_responsive T c offs h R) as S0.
    step_bind r d1 E1. cbn [fst snd] in Sp, S0. subst r.
    cbn [truthy Z.eqb negb].
    destruct Sp as [_ Sp].
    destruct (Sp (snor_wait_ready_responsive T 950 h R ltac:(lia)))
      as (_ & q1 & q2 & Q1 & Q2 & ->).
    replace (ulong (Z.of_nat (S n) * sector_size c - sector_size c))
      with (Z.of_nat n * sector_size c)
      by (rewrite ulong_idem; nia).
    specialize (IH fuel (ulong (offs + sector_size c))
                  (h ++ q1 ++ sector_erase_events c offs ++ q2)
                  (ulong_range _) ltac:(nia) ltac:(lia)).
    destruct (snor_erase_loop T c fuel _ _ _) as [res d2].
    cbn [fst snd] in *. destruct IH as [IH1 IH2].
    split; [exact IH1|].
    destruct (sector_erase_events_seen c offs q1 q2 Q1 Q2) as [B1 _].
    rewrite sector_erases_app by assumption.
    rewrite (sector_erase_events_erases c offs q1 q2 Q1 Q2).
    rewrite IH2. cbn [seq map app]. f_equal.
    + f_equal. lia.
    + rewrite <- seq_shift, map_map. apply map_ext. intros i.
      rewrite <- wire_ulong, ulong_add_l, wire_ulong. f_equal. lia.
Qed.

(** The sector path of snor_erase: unprotect, then the loop. *)
Lemma snor_erase_sector_path (fuel : nat) (offs len : Z) (h : trace) :
  len <> 0 -> ~ (offs = 0 /\ len = capacity c) ->
  let u := snd (snor_unprotect T h) in
  fst (snor_erase T c fuel offs len h) =
    match fst (snor_erase_loop T c fuel offs len (h ++ u)) with
    | Exit _ => Some 0
    | Return rv => Some rv
    | Running _ => None
    end /\
  snd (snor_erase T c fuel offs len h) =
    u ++ snd (snor_erase_loop T c fuel offs len (h ++ u)).
Proof.
  intros Hl Hnot. cbn zeta. unfold snor_erase.
  destruct (Z.eqb_spec len 0) as [|_]; [contradiction|].
  assert (G : negb (truthy offs)
              && (len =? ulong (sector_size c * n_sectors c)) = false).
  { unfold truthy. rewrite negb_involutive.
    destruct (Z.eqb_spec offs 0) as [->|]; [|reflexivity].
    destruct (Z.eqb_spec len (ulong (sector_size c * n_sectors c)));
      [|reflexivity].
    exfalso. apply Hnot. split; [reflexivity|assumption]. }
  rewrite G.
  step_bind ru u Eu. step_bind o d El.
  split.
  - destruct o; reflexivity.
  - replace (snd (match o with
                  | Exit _ => ret (Some 0)
                  | Return rv => ret (Some rv)
                  | Running _ => ret None
                  end ((h ++ u) ++ d))) with (@nil event)
      by (destruct o; reflexivity).
    rewrite app_nil_r. reflexivity.
Qed.

Lemma snor_erase_sector_path_erases (fuel : nat) (offs len : Z) (h : trace) :
  len <> 0 -> ~ (offs = 0 /\ len = capacity c) ->
  sector_erases (snd (snor_erase T c fuel offs len h)) =
  sector_erases (snd (snor_erase_loop T c fuel offs len
                        (h ++ snd (snor_unprotect T h)))).
Proof.
  intros Hl Hnot.
  destruct (snor_erase_sector_path fuel offs len h Hl Hnot) as [_ ->].
  pose proof (snor_unprotect_quiet T h) as Qu.
  rewrite sector_erases_app by apply Qu.
  rewrite (quiet_sector_erases _ Qu). reflexivity.
Qed.

End EraseRange.

(** Erasing a whole number of sectors.  On a device that becomes ready when
    asked, snor_erase of n >= 1 sectors' worth of bytes from offs (other
    than the full-chip case) returns 0 after exactly n sector erases, at
    offs, offs + sector_size, ..., offs + (n - 1) * sector_size. *)
Theorem erase_whole_sectors (T : transport) (c : chip_info) (fuel n : nat)
    (offs : Z) (h : trace) :
  responsive T ->
  0 < sector_size c < 2 ^ 64 ->
  0 <= offs < 2 ^ 64 ->
  (0 < n)%nat -> Z.of_nat n * sector_size c < 2 ^ 64 ->
  ~ (offs = 0 /\ Z.of_nat n * sector_size c = capacity c) ->
  (n < fuel)%nat ->
  let r := snor_erase T c fuel offs (Z.of_nat n * sector_size c) h in
  fst r = Some 0 /\
  sector_erases (snd r) =
    map (fun i => wire c (offs + Z.of_nat i * sector_size c)) (seq 0 n).
Proof.
  intros R Hss Ho Hn Hlen Hnot Hf. cbn zeta.
  assert (H0 : Z.of_nat n * sector_size c <> 0).
  { apply Z.neq_mul_0. lia. }
  destruct (snor_erase_sector_path T c fuel offs _ h H0 Hnot) as [E1 _].
  pose proof (snor_erase_sector_path_erases T c fuel offs _ h H0 Hnot) as E2.
  destruct (snor_erase_loop_aligned T c n R Hss fuel offs
              (h ++ snd (snor_unprotect T h)) Ho Hlen Hf) as [[s Es] Er].
  rewrite E1, E2, Es. split; [reflexivity|exact Er].
Qed.

(** Erasing a length that is not a whole number of sectors.  When
    sector_size divides 2^64 (a power of two, as in every row of the
    catalog) and the length is not a multiple of it, the remaining length
    never reaches 0: on a device that becomes ready when asked the call is
    still in its loop after any number of iterations, and has erased a
    sector in each of them. *)
Theorem erase_partial_sector_never_ends (T : transport) (c : chip_info)
    (offs len : Z) (h : trace) :
  responsive T ->
  0 < sector_size c -> (sector_size c | 2 ^ 64) ->
  0 <= offs < 2 ^ 64 -> 0 < len < 2 ^ 64 ->
  len mod sector_size c <> 0 ->
  forall fuel : nat,
    fst (snor_erase T c fuel offs len h) = None /\
    sector_erases (snd (snor_erase T c fuel offs len h)) =
      map (fun i => wire c (offs + Z.of_nat i * sector_size c)) (seq 0 fuel).
Proof.
  intros R Hss Hdiv Ho Hl Hmod fuel.
  assert (M : forall x, ulong x mod sector_size c = x mod sector_size c).
  { intros x. unfold ulong. apply Z.mod_mod_divide. exact Hdiv. }
  assert (Hnot : ~ (offs = 0 /\ len = capacity c)).
  { intros [_ E]. apply Hmod. rewrite E. unfold capacity. rewrite M.
    rewrite Z.mul_comm. apply Z.mod_mul. lia. }
  destruct (snor_erase_sector_path T c fuel offs len h ltac:(lia) Hnot)
    as [E1 _].
  pose proof (snor_erase_sector_path_erases T c fuel offs len h ltac:(lia) Hnot)
    as E2.
  assert (Hpos : forall i : nat,
            (i < fuel)%nat -> 0 < ulong (len - Z.of_nat i * sector_size c)).
  { intros i _.
    pose proof (ulong_range (len - Z.of_nat i * sector_size c)) as Rg.
    assert (ulong (len - Z.of_nat i * sector_size c) <> 0); [|lia].
    intros E0. apply Hmod.
    rewrite <- (Z_mod_plus_full len (- Z.of_nat i) (sector_size c)).
    replace (len + - Z.of_nat i * sector_size c)
      with (len - Z.of_nat i * sector_size c) by lia.
    rewrite <- M, E0. apply Z.mod_0_l. lia. }
  destruct (snor_erase_loop_strides T c fuel offs len
              (h ++ snd (snor_unprotect T h)) R Ho ltac:(lia) Hpos) as [Es Er].
  rewrite E1, E2, Es. split; [reflexivity|exact Er].
Qed.

(** ** The order of the verbs *)

Lemma verbs_app (d1 d2 : trace) :
  balanced d1 -> verbs (d1 ++ d2) = verbs d1 ++ verbs d2.
Proof.
  intros B. unfold verbs. rewrite opcodes_app by exact B.
  apply filter_app.
Qed.

Lemma verbs_command (f : list event) (d : trace) :
  plain f = true ->
  verbs (Chip_Select_Low :: f ++ Chip_Select_High :: d) =
  verbs (Chip_Select_Low :: f ++ [Chip_Select_High]) ++ verbs d.
Proof.
  intros P.
  change (Chip_Select_Low :: f ++ Chip_Select_High :: d)
    with ((Chip_Select_Low :: f ++ [Chip_Select_High] ++ d)).
  rewrite app_assoc, app_comm_cons. apply verbs_app.
  apply (balanced_command f []); [exact P|reflexivity].
Qed.

Lemma scan_plain (f acc : list event) :
  plain f = true -> scan (Some acc) f = ([], Some (acc ++ f)).
Proof.
  revert acc. induction f as [|e f IH]; intros acc Hf; cbn [scan].
  - rewrite app_nil_r. reflexivity.
  - cbn in Hf. apply andb_prop in Hf. destruct Hf as [He Hf].
    destruct e; try discriminate; rewrite IH by assumption;
      rewrite <- app_assoc; reflexivity.
Qed.

(** A command that is still open does not count. *)
Lemma page_programs_open (q f : list event) :
  quiet q -> plain f = true ->
  page_programs (q ++ Chip_Select_Low :: f) = [].
Proof.
  intros Q P. rewrite page_programs_app by apply Q.
  rewrite (quiet_page_programs q Q). unfold page_programs, commands.
  cbn [scan]. rewrite scan_plain by exact P. reflexivity.
Qed.

Section Verbs.
Variable T : transport.

Lemma verbs_wait_ready (sleep_ms : Z) (h : trace) :
  verbs (snd (snor_wait_ready T sleep_ms h)) = [].
Proof.
  unfold verbs.
  destruct (snor_wait_ready_opcodes T sleep_ms h) as [m ->].
  induction m as [|m IH]; [reflexivity|exact IH].
Qed.

Lemma verbs_unprotect (h : trace) : verbs (snd (snor_unprotect T h)) = [].
Proof.
  unfold verbs.
  destruct (snor_unprotect_opcodes T h) as [-> | ->]; reflexivity.
Qed.

Variable c : chip_info.
Hypothesis R : responsive T.
Hypothesis A : byte_accepting T.

Lemma verbs_4byte_mode (enable : Z) (h : trace) :
  verbs (snd (snor_4byte_mode T c enable h)) = mode_verbs c (truthy enable).
Proof.
  unfold snor_4byte_mode, mode_verbs.
  pose proof (snor_wait_ready_responsive T 1 h R ltac:(lia)) as W.
  pose proof (snor_wait_ready_quiet T 1 h) as Q.
  pose proof (verbs_wait_ready 1 h) as V.
  step_bind r d E. cbn [fst snd] in W, Q, V. subst r.
  cbn [truthy Z.eqb negb].
  rewrite verbs_app, V by apply Q. cbn [app].
  destruct (id c =? 1).
  - unfold bind; cbn [fst snd].
    rewrite snor_write_rg_trace, snor_read_rg_trace.
    destruct (negb _); destruct (negb (0 =? 0)); reflexivity.
  - prim. rewrite A. cbn [truthy Z.eqb negb].
    unfold when.
    destruct (truthy enable); cbn [negb andb].
    + reflexivity.
    + destruct (id c =? 239).
      * unfold bind; cbn [fst snd ret].
        rewrite snor_write_rg_trace, snor_write_enable_run. reflexivity.
      * reflexivity.
Qed.

Lemma verbs_bracket (enable : Z) (h : trace) :
  verbs (snd (when (truthy (addr4b c)) (snor_4byte_mode T c enable) h))
  = bracket c (truthy enable).
Proof.
  unfold when, bracket. destruct (truthy (addr4b c)); [|reflexivity].
  unfold bind; cbn [fst snd ret]. rewrite app_nil_r.
  apply verbs_4byte_mode.
Qed.

Lemma quiet_bracket (enable : Z) (h : trace) :
  quiet (snd (when (truthy (addr4b c)) (snor_4byte_mode T c enable) h)).
Proof. apply when_quiet, snor_4byte_mode_quiet. Qed.

(** One sector erase: the mode switch, write enable, the erase, and the
    mode switch back. *)
Lemma verbs_erase_sector (offset : Z) (h : trace) :
  balanced (snd (snor_erase_sector T c offset h)) /\
  sector_erases (snd (snor_erase_sector T c offset h)) = [wire c offset] /\
  verbs (snd (snor_erase_sector T c offset h)) =
    bracket c true ++ [OPCODE_WREN; OPCODE_SE] ++ bracket c false.
Proof.
  unfold snor_erase_sector.
  pose proof (snor_wait_ready_responsive T 950 h R ltac:(lia)) as W.
  pose proof (snor_wait_ready_quiet T 950 h) as Q0.
  pose proof (verbs_wait_ready 950 h) as V0.
  step_bind rv d0 E0. cbn [fst snd] in W, Q0, V0. subst rv.
  cbn [truthy Z.eqb negb].
  match goal with |- context [bind (when ?b ?m) _ ?hh] =>
    pose proof (quiet_bracket 1 hh) as Q1;
    pose proof (verbs_bracket 1 hh) as V1 end.
  step_bind u1 q1 E1. cbn [snd] in Q1, V1.
  rewrite (bind_run _ _ _ _ _ (snor_write_enable_run _ _)).
  rewrite (bind_run _ _ _ _ _ (eq_refl : SPI_CONTROLLER_Chip_Select_Low _ = (tt, [Chip_Select_Low]))).
  rewrite (bind_run _ _ _ _ _ (send_address_run _ _ _ _ _)).
  rewrite (bind_run _ _ _ _ _ (eq_refl : SPI_CONTROLLER_Chip_Select_High _ = (tt, [Chip_Select_High]))).
  cbn [fst snd].
  match goal with |- context [bind (snor_wait_ready T 950) _ ?hh] =>
    pose proof (snor_wait_ready_quiet T 950 hh) as Q2;
    pose proof (verbs_wait_ready 950 hh) as V2 end.
  step_bind rv2 q2 E2. cbn [snd] in Q2, V2.
  match goal with |- context [bind (when ?b ?m) _ ?hh] =>
    pose proof (quiet_bracket 0 hh) as Q3;
    pose proof (verbs_bracket 0 hh) as V3 end.
  step_bind u3 q3 E3. cbn [snd] in Q3, V3.
  cbn [ret fst snd]. rewrite app_nil_r.
  set (we := [Chip_Select_Low; Write_One_Byte OPCODE_WREN; Chip_Select_High]).
  assert (Qwe : quiet we).
  { apply (quiet_command [_]); try reflexivity. apply framed_nil. }
  assert (Qa : quiet (d0 ++ q1 ++ we)).
  { apply framed_app; [assumption|]. apply framed_app; assumption. }
  assert (Qb : quiet (q2 ++ q3)) by (apply framed_app; assumption).
  assert (Eq : d0 ++ q1 ++ we ++ [Chip_Select_Low] ++
               (Write_One_Byte OPCODE_SE :: address_events c offset) ++
               [Chip_Select_High] ++ q2 ++ q3 =
               (d0 ++ q1 ++ we) ++ sector_erase_events c offset ++ (q2 ++ q3)).
  { unfold sector_erase_events. norm_app. reflexivity. }
  rewrite Eq.
  destruct (sector_erase_events_seen c offset _ _ Qa Qb) as [B C].
  split; [exact B|]. split.
  - apply sector_erase_events_erases; assumption.
  - rewrite verbs_app by apply Qa.
    rewrite !verbs_app by (try apply Q0; apply Q1).
    rewrite V0, V1. cbn [app].
    assert (P : plain (Write_One_Byte OPCODE_SE :: address_events c offset) = true)
      by (cbn; apply address_events_plain).
    assert (Bse : balanced (sector_erase_events c offset))
      by (apply (balanced_command (_ :: _) []); [exact P|reflexivity]).
    rewrite (verbs_app (sector_erase_events c offset)) by exact Bse.
    rewrite verbs_app, V2, V3 by apply Q2.
    change (bracket c (truthy 1)) with (bracket c true).
    change (bracket c (truthy 0)) with (bracket c false).
    rewrite <- app_assoc. f_equal. cbn [app].
    change (verbs we) with [OPCODE_WREN]. cbn [app]. f_equal.
    replace (verbs (sector_erase_events c offset)) with [OPCODE_SE];
      [reflexivity|].
    unfold verbs, opcodes, sector_erase_events.
    pose proof (commands_command _ [] P) as Cc. cbn [app] in Cc.
    rewrite Cc. reflexivity.
Qed.

End Verbs.

Section Protocol.
Variable T : transport.
Variable c : chip_info.
Hypothesis R : responsive T.
Hypothesis A : byte_accepting T.

Lemma verbs_erase_loop (n : nat) : forall (offs len : Z) (h : trace),
  balanced (snd (snor_erase_loop T c n offs len h)) /\
  verbs (snd (snor_erase_loop T c n offs len h)) =
    concat (repeat (bracket c true ++ [OPCODE_WREN; OPCODE_SE] ++ bracket c false)
              (length (sector_erases (snd (snor_erase_loop T c n offs len h))))).
Proof.
  induction n as [|n IH]; intros offs len h.
  - split; reflexivity.
  - cbn [snor_erase_loop]. destruct (len >? 0); [|split; reflexivity].
    destruct (verbs_erase_sector T c R A offs h) as (B1 & S1 & V1).
    pose proof (snor_erase_sector_responsive T c offs h R) as E0.
    step_bind r d1 E1. cbn [fst snd] in *. subst r.
    cbn [truthy Z.eqb negb].
    destruct (IH (ulong (offs + sector_size c)) (ulong (len - sector_size c))
                (h ++ d1)) as [B2 V2].
    split; [apply balanced_app; assumption|].
    rewrite verbs_app, sector_erases_app by exact B1.
    rewrite V1, V2, S1. reflexivity.
Qed.

Lemma read_iteration_seen (addr off n : Z) (q1 q2 : trace) :
  quiet q1 -> verbs q1 = bracket c true ->
  quiet q2 -> verbs q2 = bracket c false ->
  balanced (q1 ++ read_events c addr off n ++ q2) /\
  verbs (q1 ++ read_events c addr off n ++ q2) =
    bracket c true ++ [OPCODE_READ] ++ bracket c false /\
  forall d, reads ((q1 ++ read_events c addr off n ++ q2) ++ d) =
            (wire c addr, off, n) :: reads d.
Proof.
  intros Q1 V1 Q2 V2.
  assert (P : plain (Write_One_Byte OPCODE_READ :: address_events c addr
                       ++ [Read_NByte (ToBuf off) n]) = true).
  { pose proof (address_events_plain c addr) as Pa.
    unfold plain in Pa |- *. cbn [forallb]. rewrite forallb_app, Pa.
    reflexivity. }
  assert (Ev : read_events c addr off n =
               Chip_Select_Low ::
               (Write_One_Byte OPCODE_READ :: address_events c addr
                  ++ [Read_NByte (ToBuf off) n]) ++ [Chip_Select_High]).
  { unfold read_events. cbn [app]. rewrite <- app_assoc. reflexivity. }
  assert (Bev : balanced (read_events c addr off n)).
  { rewrite Ev. apply (balanced_command _ []); [exact P|reflexivity]. }
  split; [|split].
  - apply balanced_app; [apply Q1|]. apply balanced_app; [exact Bev|apply Q2].
  - rewrite verbs_app by apply Q1. rewrite verbs_app by exact Bev.
    rewrite V1, V2. f_equal. f_equal.
    unfold verbs, opcodes. rewrite Ev.
    rewrite (commands_command _ [] P). reflexivity.
  - intros d. rewrite <- !app_assoc.
    destruct (read_events_seen c addr off n q1 (q2 ++ d) Q1) as [_ ->].
    rewrite reads_app by apply Q2.
    rewrite (quiet_reads q2 Q2). reflexivity.
Qed.

(** One iteration of the read loop, with what it puts on the bus. *)
Lemma snor_read_loop_iteration (k : nat) (len ra rl : Z) (h : trace) :
  0 < rl ->
  exists d hx,
    balanced d /\
    verbs d = bracket c true ++ [OPCODE_READ] ++ bracket c false /\
    (forall d', reads (d ++ d') =
                (wire c ra, ulong (len - rl), read_size c ra rl) :: reads d') /\
    let n := read_size c ra rl in
    let rc := fst (read_nbyte T hx (ToBuf (ulong (len - rl))) n) in
    let ra' := if read_whole c ra rl then ra else u32 (ra + n) in
    let rl' := if read_whole c ra rl then 0 else u32 (rl - n) in
    snor_read_loop T c (S k) len ra rl h =
      if truthy rc
      then (Return (int (ulong (-1))), d)
      else (fst (snor_read_loop T c k len ra' rl' (h ++ d)),
            d ++ snd (snor_read_loop T c k len ra' rl' (h ++ d))).
Proof.
  intros Hl. cbn [snor_read_loop].
  destruct (Z.gtb_spec rl 0) as [_|]; [|lia].
  unfold read_size, read_whole. cbn zeta.
  match goal with |- context [bind (when ?b ?m) _ ?hh] =>
    pose proof (quiet_bracket T c 1 hh) as Q1;
    pose proof (verbs_bracket T c R A 1 hh) as V1 end.
  step_bind u1 q1 E1. cbn [snd] in Q1, V1.
  rewrite (bind_run _ _ _ _ _ (eq_refl : SPI_CONTROLLER_Chip_Select_Low _ = (tt, [Chip_Select_Low]))).
  rewrite (bind_run _ _ _ _ _ (send_address_run _ _ _ _ _)). cbn [fst snd].
  destruct (_ <? sector_size c);
    (match goal with |- context [bind (SPI_CONTROLLER_Read_NByte T ?dst ?n) _ ?hh] =>
       rewrite (bind_run _ _ _ _ _ (eq_refl : SPI_CONTROLLER_Read_NByte T dst n hh
                                       = (read_nbyte T hh dst n, [Read_NByte dst n])));
       set (hx := hh)
     end;
     cbn [fst snd];
     destruct (truthy (fst (read_nbyte T hx _ _))) eqn:Hrc;
     rewrite (bind_run _ _ _ _ _ (eq_refl : SPI_CONTROLLER_Chip_Select_High _ = (tt, [Chip_Select_High])));
     cbn [fst snd];
     match goal with |- context [bind (when ?b ?m) _ ?hh] =>
       pose proof (quiet_bracket T c 0 hh) as Q2;
       pose proof (verbs_bracket T c R A 0 hh) as V2 end;
     step_bind u2 q2 E2; cbn [snd] in Q2, V2;
     match goal with |- context [Read_NByte (ToBuf ?off) ?n] =>
       destruct (read_iteration_seen ra off n q1 q2 Q1 V1 Q2 V2) as (Bd & Vd & Rd);
       exists (q1 ++ read_events c ra off n ++ q2), hx
     end;
     (split; [exact Bd|]); (split; [exact Vd|]); (split; [exact Rd|]);
     rewrite Hrc; subst hx; cbn [ret fst snd];
     unfold read_events; norm_app; rewrite ?app_nil_r; reflexivity).
Qed.

Lemma verbs_read_loop (k : nat) : forall (len ra rl : Z) (h : trace),
  balanced (snd (snor_read_loop T c k len ra rl h)) /\
  verbs (snd (snor_read_loop T c k len ra rl h)) =
    concat (repeat (bracket c true ++ [OPCODE_READ] ++ bracket c false)
              (length (reads (snd (snor_read_loop T c k len ra rl h))))).
Proof.
  induction k as [|k IH]; intros len ra rl h.
  - split; reflexivity.
  - destruct (Z.le_gt_cases rl 0) as [Hle|Hgt].
    + destruct (snor_read_loop_done T c (S k) len ra rl h Hle) as [-> _].
      split; reflexivity.
    + destruct (snor_read_loop_iteration k len ra rl h Hgt)
        as (d & hx & Bd & Vd & Rd & E).
      cbn zeta in E. rewrite E.
      destruct (truthy _); cbn [snd].
      * split; [exact Bd|].
        rewrite <- (app_nil_r d) at 2. rewrite Rd, Vd. cbn.
        rewrite app_nil_r. reflexivity.
      * match goal with |- context [snor_read_loop T c k len ?a ?b ?hh] =>
          destruct (IH len a b hh) as [B2 V2] end.
        split; [apply balanced_app; assumption|].
        rewrite verbs_app by exact Bd. rewrite Rd, Vd, V2. reflexivity.
Qed.

(** One iteration of the write loop, with what it puts on the bus. *)
Lemma snor_write_loop_iteration (n : nat) (v : write_vars) (h : trace) :
  0 < w_len v ->
  exists d pre,
    balanced d /\
    verbs d = [OPCODE_WREN; OPCODE_PP] /\
    (forall d', page_programs (d ++ d') =
                (wire c (w_to v), w_buf v, write_page_size v)
                :: page_programs d') /\
    page_programs pre = [] /\
    let page_size := write_page_size v in
    let r := write_nbyte T (h ++ pre) (FromBuf (w_buf v)) page_size in
    let rc := if negb (truthy r) then int page_size else 1 in
    let retlen := if rc >? 0 then int (w_retlen v + rc) else w_retlen v in
    snor_write_loop T c (S n) v h =
      if (rc >? 0) && (u32 rc <? page_size)
      then (Return (int (retlen - rc)),
            d ++ [Chip_Select_Low; Write_One_Byte OPCODE_WRDI;
                  Chip_Select_High])
      else (fst (snor_write_loop T c n (write_next v retlen) (h ++ d)),
            d ++ snd (snor_write_loop T c n (write_next v retlen) (h ++ d))).
Proof.
  intros Hl. cbn [snor_write_loop].
  destruct (Z.gtb_spec (w_len v) 0) as [_|]; [|lia].
  fold (write_page_size v).
  pose proof (snor_wait_ready_quiet T 3 h) as Q0.
  pose proof (verbs_wait_ready T 3 h) as V0.
  step_bind r0 d0 E0. cbn [snd] in Q0, V0.
  rewrite (bind_run _ _ _ _ _ (snor_write_enable_run _ _)). cbn [fst snd].
  match goal with |- context [bind (snor_unprotect T) _ ?hh] =>
    pose proof (snor_unprotect_quiet T hh) as Qu;
    pose proof (verbs_unprotect T hh) as Vu end.
  step_bind ru u Eu. cbn [snd] in Qu, Vu.
  rewrite (bind_run _ _ _ _ _ (eq_refl : SPI_CONTROLLER_Chip_Select_Low _ = (tt, [Chip_Select_Low]))).
  rewrite (bind_run _ _ _ _ _ (send_address_run _ _ _ _ _)). cbn [fst snd].
  set (we := [Chip_Select_Low; Write_One_Byte OPCODE_WREN; Chip_Select_High]).
  set (q := d0 ++ we ++ u).
  set (pp := page_program_events c (w_to v) (w_buf v) (write_page_size v)).
  assert (Qwe : quiet we).
  { apply (quiet_command [_]); try reflexivity. apply framed_nil. }
  assert (Qq : quiet q).
  { apply framed_app; [exact Q0|]. apply framed_app; assumption. }
  assert (Vq : verbs q = [OPCODE_WREN]).
  { unfold q. rewrite verbs_app by apply Q0. rewrite verbs_app by apply Qwe.
    rewrite V0, Vu. reflexivity. }
  assert (P : plain (Write_One_Byte OPCODE_PP :: address_events c (w_to v)
                       ++ [Write_NByte (FromBuf (w_buf v)) (write_page_size v)])
              = true).
  { pose proof (address_events_plain c (w_to v)) as Pa.
    unfold plain in Pa |- *. cbn [forallb]. rewrite forallb_app, Pa.
    reflexivity. }
  assert (Ev : pp = Chip_Select_Low ::
                 (Write_One_Byte OPCODE_PP :: address_events c (w_to v)
                    ++ [Write_NByte (FromBuf (w_buf v)) (write_page_size v)])
                 ++ [Chip_Select_High]).
  { unfold pp, page_program_events. cbn [app]. rewrite <- app_assoc.
    reflexivity. }
  assert (Bpp : balanced pp).
  { rewrite Ev. apply (balanced_command _ []); [exact P|reflexivity]. }
  match goal with |- context [bind (SPI_CONTROLLER_Write_NByte T ?src ?len) _ ?hh] =>
    rewrite (bind_run _ _ _ _ _ (eq_refl : SPI_CONTROLLER_Write_NByte T src len hh
                                    = (write_nbyte T hh src len, [Write_NByte src len])));
    exists (q ++ pp),
      (q ++ Chip_Select_Low :: Write_One_Byte OPCODE_PP :: address_events c (w_to v));
    replace hh
      with (h ++ q ++ Chip_Select_Low :: Write_One_Byte OPCODE_PP
              :: address_events c (w_to v))
      by (unfold q, we; norm_app; reflexivity)
  end.
  split; [apply balanced_app; [apply Qq|exact Bpp]|].
  split.
  { rewrite verbs_app by apply Qq. rewrite Vq.
    unfold verbs, opcodes. rewrite Ev.
    rewrite (commands_command _ [] P). reflexivity. }
  split.
  { intros d'. rewrite <- app_assoc. unfold pp.
    destruct (page_program_events_seen c (w_to v) (w_buf v)
                (write_page_size v) q d' Qq) as [_ ->]. reflexivity. }
  split.
  { apply (page_programs_open q (_ :: _) Qq). cbn.
    apply address_events_plain. }
  cbn zeta. cbn [fst snd].
  rewrite (bind_run _ _ _ _ _ (eq_refl : SPI_CONTROLLER_Chip_Select_High _ = (tt, [Chip_Select_High]))).
  cbn [fst snd].
  assert (Ax : forall X : trace,
           d0 ++ we ++ u ++ [Chip_Select_Low] ++
           (Write_One_Byte OPCODE_PP :: address_events c (w_to v)) ++
           [Write_NByte (FromBuf (w_buf v)) (write_page_size v)] ++
           [Chip_Select_High] ++ X = (q ++ pp) ++ X).
  { intros X. unfold q, pp, page_program_events, we. norm_app. reflexivity. }
  destruct (_ && _).
  - rewrite (bind_run _ _ _ _ _ (snor_write_disable_run _ _)).
    cbn [fst snd ret]. rewrite app_nil_r. rewrite Ax. reflexivity.
  - rewrite Ax. f_equal.
    + f_equal. f_equal.
      unfold q, pp, page_program_events, we. norm_app. reflexivity.
    + f_equal. f_equal. f_equal.
      unfold q, pp, page_program_events, we. norm_app. reflexivity.
Qed.

Lemma verbs_write_loop (n : nat) : forall (v : write_vars) (h : trace),
  balanced (snd (snor_write_loop T c n v h)) /\
  verbs (snd (snor_write_loop T c n v h)) =
    concat (repeat [OPCODE_WREN; OPCODE_PP]
              (length (page_programs (snd (snor_write_loop T c n v h)))))
    ++ match fst (snor_write_loop T c n v h) with
       | Return _ => [OPCODE_WRDI]
       | _ => []
       end.
Proof.
  induction n as [|n IH]; intros v h.
  - split; reflexivity.
  - destruct (Z.le_gt_cases (w_len v) 0) as [Hle|Hgt].
    + destruct (snor_write_loop_done T c (S n) v h Hle) as [-> ->];
        [|discriminate].
      split; reflexivity.
    + destruct (snor_write_loop_iteration n v h Hgt)
        as (d & pre & Bd & Vd & Pd & _ & E).
      cbn zeta in E. rewrite E.
      destruct (_ && _); cbn [fst snd].
      * split.
        -- apply balanced_app; [exact Bd|reflexivity].
        -- rewrite verbs_app by exact Bd. rewrite Pd, Vd. reflexivity.
      * match goal with |- context [snor_write_loop T c n ?a ?hh] =>
          destruct (IH a hh) as [B2 V2] end.
        split; [apply balanced_app; assumption|].
        rewrite verbs_app by exact Bd. rewrite Pd, Vd, V2. reflexivity.
Qed.

End Protocol.

(** ** The protocol of the bulk operations *)

(** The protocol of a sector erase.  On a device that becomes ready when
    asked and a controller that accepts single bytes, the sector path of
    snor_erase sends, for every sector it erases and in this order: the
    switch to 4-byte addresses (on a chip that needs them), write enable,
    the sector erase, and the switch back; between these only the status
    register is read or written. *)
Theorem sector_erase_protocol (T : transport) (c : chip_info) (fuel : nat)
    (offs len : Z) (h : trace) :
  responsive T -> byte_accepting T ->
  len <> 0 -> ~ (offs = 0 /\ len = capacity c) ->
  let d := snd (snor_erase T c fuel offs len h) in
  verbs d =
    concat (repeat (bracket c true ++ [OPCODE_WREN; OPCODE_SE] ++ bracket c false)
              (length (sector_erases d))).
Proof.
  intros R A Hl Hnot. cbn zeta.
  rewrite (snor_erase_sector_path_erases T c fuel offs len h Hl Hnot).
  destruct (snor_erase_sector_path T c fuel offs len h Hl Hnot) as [_ ->].
  rewrite verbs_app by apply (snor_unprotect_quiet T h).
  rewrite verbs_unprotect. cbn [app].
  apply verbs_erase_loop; assumption.
Qed.

(** The protocol of a read.  On a device that becomes ready when asked and
    a controller that accepts single bytes, snor_read brackets every read
    transaction, the ones that succeed and the one that fails, with the
    switch to 4-byte addresses and the switch back (on a chip that needs
    them); a chip with 3-byte addresses sees read commands only. *)
Theorem read_mode_bracket (T : transport) (c : chip_info) (fuel : nat)
    (from len : Z) (h : trace) :
  responsive T -> byte_accepting T ->
  let d := snd (snor_read T c fuel from len h) in
  verbs d =
    concat (repeat (bracket c true ++ [OPCODE_READ] ++ bracket c false)
              (length (reads d))).
Proof.
  intros R A. cbn zeta. unfold snor_read.
  destruct (len =? 0); [reflexivity|].
  pose proof (snor_wait_ready_responsive T 1 h R ltac:(lia)) as W.
  pose proof (snor_wait_ready_quiet T 1 h) as Q0.
  pose proof (verbs_wait_ready T 1 h) as V0.
  step_bind r d0 E0. cbn [fst snd] in W, Q0, V0. subst r.
  cbn [truthy Z.eqb negb].
  match goal with |- context [bind (snor_read_loop T c fuel ?a ?b ?e) _ ?hh] =>
    destruct (verbs_read_loop T c R A fuel a b e hh) as [Bl Vl] end.
  step_bind o dl El. cbn [snd] in Bl, Vl.
  replace (snd (match o with
                | Exit _ => ret (Some (int len))
                | Return rv => ret (Some rv)
                | Running _ => ret None
                end ((h ++ d0) ++ dl))) with (@nil event)
    by (destruct o; reflexivity).
  rewrite app_nil_r.
  rewrite verbs_app, reads_app by apply Q0.
  rewrite V0, (quiet_reads d0 Q0). exact Vl.
Qed.

Section WriteProtocol.
Variable T : transport.
Variable c : chip_info.
Hypothesis R : responsive T.
Hypothesis A : byte_accepting T.

(** snor_write past its checks: the mode switch, the loop, and what follows
    the loop. *)
Lemma snor_write_run (fuel : nat) (to len : Z) (h : trace) :
  len <> 0 -> ulong (to + len) <= capacity c ->
  exists q1 h1 tail,
    quiet q1 /\ verbs q1 = bracket c true /\
    let l := snor_write_loop T c fuel
               (mk_write_vars to len (u32 (to mod FLASH_PAGESIZE)) 0 0) h1 in
    quiet tail /\
    verbs tail = match fst l with
                 | Exit _ => bracket c false ++ [OPCODE_WRDI]
                 | _ => []
                 end /\
    snd (snor_write T c fuel to len h) = q1 ++ snd l ++ tail.
Proof.
  intros Hlen Hcap. unfold snor_write.
  destruct (Z.eqb_spec len 0) as [|_]; [contradiction|].
  fold (capacity c).
  destruct (Z.gtb_spec (ulong (to + len)) (capacity c)) as [|_]; [lia|].
  pose proof (snor_wait_ready_responsive T 2 h R ltac:(lia)) as W.
  pose proof (snor_wait_ready_quiet T 2 h) as Q0.
  pose proof (verbs_wait_ready T 2 h) as V0.
  step_bind r d0 E0. cbn [fst snd] in W, Q0, V0. subst r.
  cbn [truthy Z.eqb negb].
  match goal with |- context [bind (when ?b ?m) _ ?hh] =>
    pose proof (quiet_bracket T c 1 hh) as Q1;
    pose proof (verbs_bracket T c R A 1 hh) as V1 end.
  step_bind u1 q1 E1. cbn [snd] in Q1, V1.
  match goal with |- context [bind (snor_write_loop T c fuel ?v) _ ?hh] =>
    exists (d0 ++ q1), hh end.
  assert (Qa : quiet (d0 ++ q1)) by (apply framed_app; assumption).
  assert (Va : verbs (d0 ++ q1) = bracket c true)
    by (rewrite verbs_app, V0 by apply Q0; exact V1).
  step_bind o dl El.
  destruct o as [v|rv|v].
  - match goal with |- context [bind (when ?b ?m) _ ?hh] =>
      pose proof (quiet_bracket T c 0 hh) as Q2;
      pose proof (verbs_bracket T c R A 0 hh) as V2 end.
    step_bind u2 q2 E2. cbn [snd] in Q2, V2.
    exists (q2 ++ [Chip_Select_Low; Write_One_Byte OPCODE_WRDI;
                   Chip_Select_High]).
    split; [exact Qa|]. split; [exact Va|]. cbn zeta. cbn [fst snd].
    split.
    { apply framed_app; [exact Q2|].
      apply (quiet_command [_]); try reflexivity. apply framed_nil. }
    split.
    { rewrite verbs_app, V2 by apply Q2. reflexivity. }
    rewrite (bind_run _ _ _ _ _ (snor_write_disable_run _ _)).
    cbn [fst snd ret]. rewrite app_nil_r.
    rewrite <- !app_assoc. reflexivity.
  - exists []. split; [exact Qa|]. split; [exact Va|]. cbn zeta.
    cbn [fst snd ret]. rewrite !app_nil_r.
    split; [apply framed_nil|]. split; [reflexivity|].
    rewrite <- !app_assoc. reflexivity.
  - exists []. split; [exact Qa|]. split; [exact Va|]. cbn zeta.
    cbn [fst snd ret]. rewrite !app_nil_r.
    split; [apply framed_nil|]. split; [reflexivity|].
    rewrite <- !app_assoc. reflexivity.
Qed.

Lemma snor_write_verbs (fuel : nat) (to len : Z) (h : trace) :
  len <> 0 -> ulong (to + len) <= capacity c ->
  exists h1,
    let l := snor_write_loop T c fuel
               (mk_write_vars to len (u32 (to mod FLASH_PAGESIZE)) 0 0) h1 in
    let d := snd (snor_write T c fuel to len h) in
    page_programs d = page_programs (snd l) /\
    verbs d =
      bracket c true ++
      concat (repeat [OPCODE_WREN; OPCODE_PP] (length (page_programs d))) ++
      match fst l with
      | Exit _ => bracket c false ++ [OPCODE_WRDI]
      | Return _ => [OPCODE_WRDI]
      | Running _ => []
      end.
Proof.
  intros Hlen Hcap.
  destruct (snor_write_run fuel to len h Hlen Hcap)
    as (q1 & h1 & tail & Q1 & V1 & Qt & Vt & E).
  exists h1. cbn zeta in *. rewrite E.
  destruct (verbs_write_loop T c fuel
              (mk_write_vars to len (u32 (to mod FLASH_PAGESIZE)) 0 0) h1)
    as [Bl Vl].
  assert (P : page_programs (q1 ++ snd (snor_write_loop T c fuel
                (mk_write_vars to len (u32 (to mod FLASH_PAGESIZE)) 0 0) h1)
                ++ tail) =
              page_programs (snd (snor_write_loop T c fuel
                (mk_write_vars to len (u32 (to mod FLASH_PAGESIZE)) 0 0) h1))).
  { rewrite page_programs_app by apply Q1.
    rewrite page_programs_app by exact Bl.
    rewrite (quiet_page_programs q1 Q1), (quiet_page_programs tail Qt).
    cbn [app]. apply app_nil_r. }
  split; [exact P|]. rewrite P.
  rewrite verbs_app by apply Q1. rewrite verbs_app by exact Bl.
  rewrite V1, Vl, Vt. f_equal. rewrite <- app_assoc. f_equal.
  destruct (fst _); reflexivity.
Qed.

End WriteProtocol.

(** The protocol of a write.  On a device that becomes ready when asked
    and a controller that accepts what it is given, a write that is within
    bounds switches to 4-byte addresses once (on a chip that needs them),
    sends write enable and a page program for every chunk, switches back
    once, and ends with write disable; between these only the status
    register is read or written. *)
Theorem write_protocol (T : transport) (c : chip_info) (fuel : nat)
    (to len : Z) (h : trace) :
  responsive T -> byte_accepting T -> accepting T ->
  0 <= to < 2 ^ 64 -> 0 < len < 2 ^ 64 ->
  ulong (to + len) <= capacity c -> len < Z.of_nat fuel ->
  let d := snd (snor_write T c fuel to len h) in
  verbs d =
    bracket c true ++
    concat (repeat [OPCODE_WREN; OPCODE_PP] (length (page_programs d))) ++
    bracket c false ++ [OPCODE_WRDI].
Proof.
  intros R A Acc Hto Hlen Hcap Hfuel. cbn zeta.
  destruct (snor_write_verbs T c R A fuel to len h ltac:(lia) Hcap)
    as (h1 & _ & V).
  cbn zeta in V. rewrite V.
  destruct (snor_write_loop_complete T c fuel Acc
              (mk_write_vars to len (u32 (to mod FLASH_PAGESIZE)) 0 0) h1)
    as (v' & -> & _); cbn [w_len w_to w_page_offset w_retlen]; try lia.
  - intros _. unfold u32, FLASH_PAGESIZE. apply Z.mod_small.
    pose proof (Z.mod_pos_bound to 256 ltac:(lia)). lia.
  - reflexivity.
Qed.

(** A short write leaves the chip in 4-byte mode.  When the transport
    refuses the first chunk (of two bytes or more), snor_write stops after
    that page program: it sends write disable and returns, and the switch
    back to 3-byte addresses, which a complete write ends with, is not
    sent.  On a chip with 4-byte addresses other than Spansion the enter
    opcode B7 went out and the exit opcode E9 did not. *)
Theorem short_write_skips_mode_exit (T : transport) (c : chip_info)
    (fuel : nat) (to len : Z) (h : trace) :
  responsive T -> byte_accepting T ->
  0 <= to < 2 ^ 64 -> 0 < len < 2 ^ 64 ->
  ulong (to + len) <= capacity c ->
  (forall h' src n, write_nbyte T h' src n <> 0) ->
  2 <= Z.min len (FLASH_PAGESIZE - to mod FLASH_PAGESIZE) ->
  (0 < fuel)%nat ->
  let d := snd (snor_write T c fuel to len h) in
  verbs d = bracket c true ++ [OPCODE_WREN; OPCODE_PP; OPCODE_WRDI] /\
  (truthy (addr4b c) = true -> id c <> 1 ->
   In 0xb7 (verbs d) /\ ~ In 0xe9 (verbs d)).
Proof.
  intros R A Hto Hlen Hcap Rej Hsize Hfuel. cbn zeta.
  destruct fuel as [|fuel]; [lia|].
  destruct (snor_write_verbs T c R A (S fuel) to len h ltac:(lia) Hcap)
    as (h1 & P & V).
  cbn zeta in P, V.
  set (v := mk_write_vars to len (u32 (to mod FLASH_PAGESIZE)) 0 0) in *.
  assert (Hpo : w_page_offset v = w_to v mod FLASH_PAGESIZE).
  { cbn. unfold u32, FLASH_PAGESIZE. apply Z.mod_small.
    pose proof (Z.mod_pos_bound to 256 ltac:(lia)). lia. }
  destruct (write_page_size_spec v ltac:(cbn; lia) Hpo) as (Eps & Hps & _).
  change (w_len v) with len in Eps. change (w_to v) with to in Eps.
  destruct (snor_write_loop_iteration T c fuel v h1 ltac:(cbn; lia))
    as (d & pre & Bd & Vd & Pd & _ & E).
  cbn zeta in E.
  assert (Hr : truthy (write_nbyte T (h1 ++ pre) (FromBuf (w_buf v))
                         (write_page_size v)) = true).
  { unfold truthy.
    destruct (Z.eqb_spec (write_nbyte T (h1 ++ pre) (FromBuf (w_buf v))
                            (write_page_size v)) 0) as [Z0|];
      [exfalso; apply (Rej _ _ _ Z0)|reflexivity]. }
  rewrite Hr in E. cbn [negb] in E.
  assert (C : (1 >? 0) && (u32 1 <? write_page_size v) = true).
  { change (u32 1) with 1.
    destruct (Z.ltb_spec 1 (write_page_size v)); [reflexivity|lia]. }
  rewrite C in E.
  rewrite E in P, V. cbn [fst snd] in P, V.
  rewrite Pd in P. rewrite P in V.
  assert (Vf : verbs (snd (snor_write T c (S fuel) to len h)) =
               bracket c true ++ [OPCODE_WREN; OPCODE_PP; OPCODE_WRDI])
    by exact V.
  split; [exact Vf|].
  intros H4 Hid. rewrite Vf. unfold bracket, mode_verbs. rewrite H4.
  destruct (Z.eqb_spec (id c) 1) as [|_]; [contradiction|].
  split.
  - left. reflexivity.
  - cbn. intros [H|[H|[H|[H|[]]]]]; discriminate H.
Qed.

(** ** Aborting a failed read *)

(** A failed read aborts the call.  When the device is ready and the
    transport fails the first block read, snor_read returns -1 after that
    one read transaction (the first chunk of the request) and issues no
    further one. *)
Theorem read_failure_aborts (T : transport) (c : chip_info) (fuel : nat)
    (from len : Z) (h : trace) :
  0 < sector_size c < 2 ^ 64 ->
  0 <= from -> 0 < len -> from + len < 2 ^ 32 ->
  fst (snor_wait_ready T 1 h) = 0 ->
  (forall h' off n, fst (read_nbyte T h' (ToBuf off) n) <> 0) ->
  (0 < fuel)%nat ->
  fst (snor_read T c fuel from len h) = Some (-1) /\
  reads (snd (snor_read T c fuel from len h)) =
    [(wire c from, 0, Z.min len (sector_size c - from mod sector_size c))].
Proof.
  intros Hss Hfrom Hlen Hsum W Rej Hfuel.
  destruct fuel as [|fuel]; [lia|].
  pose proof (snor_wait_ready_quiet T 1 h) as Q0.
  unfold snor_read.
  destruct (Z.eqb_spec len 0) as [|_]; [lia|].
  step_bind r0 d0 E0. cbn [fst snd] in *. subst r0.
  cbn [truthy Z.eqb negb].
  assert (Uf : u32 from = from) by (apply Z.mod_small; lia).
  assert (Ul : u32 len = len) by (apply Z.mod_small; lia).
  rewrite Uf, Ul.
  destruct (snor_read_loop_step T c fuel len from len (h ++ d0) Hlen)
    as (q & q2 & hx & Q & Q2 & E).
  cbn zeta in E.
  destruct (read_size_spec c from len Hss Hfrom Hlen Hsum) as (Es & _).
  assert (Hr : truthy (fst (read_nbyte T hx (ToBuf (ulong (len - len)))
                              (read_size c from len))) = true).
  { unfold truthy.
    destruct (Z.eqb_spec (fst (read_nbyte T hx (ToBuf (ulong (len - len)))
                                 (read_size c from len))) 0) as [Z0|];
      [exfalso; apply (Rej _ _ _ Z0)|reflexivity]. }
  rewrite Hr in E. cbv iota in E.
  step_bind o dl El. injection E as -> ->.
  cbn [fst snd ret]. rewrite app_nil_r. split; [reflexivity|].
  rewrite reads_app by apply Q0. rewrite (quiet_reads d0 Q0). cbn [app].
  match goal with
  | |- reads ?x = _ =>
      change x with (q ++ read_events c from (ulong (len - len))
                            (read_size c from len) ++ q2)
  end.
  destruct (read_events_seen c from (ulong (len - len)) (read_size c from len)
              q q2 Q) as [_ ->].
  rewrite (quiet_reads q2 Q2), Es, Z.sub_diag. reflexivity.
Qed.

(** ** A device that stays busy *)

Section Busy.
Variable T : transport.
Variable c : chip_info.

Lemma truthy_nonzero (x : Z) : x <> 0 -> truthy x = true.
Proof.
  intros H. unfold truthy. destruct (Z.eqb_spec x 0); [contradiction|reflexivity].
Qed.

Lemma snor_write_busy (fuel : nat) (to len : Z) (h : trace) :
  len <> 0 -> ulong (to + len) <= capacity c ->
  fst (snor_wait_ready T 2 h) <> 0 ->
  snor_write T c fuel to len h = (Some (-1), snd (snor_wait_ready T 2 h)).
Proof.
  intros Hlen Hcap W. unfold snor_write.
  destruct (Z.eqb_spec len 0) as [|_]; [contradiction|].
  fold (capacity c).
  destruct (Z.gtb_spec (ulong (to + len)) (capacity c)) as [|_]; [lia|].
  step_bind r d E. cbn [fst snd] in W. rewrite (truthy_nonzero r W).
  cbn [ret fst snd]. rewrite app_nil_r. reflexivity.
Qed.

Lemma snor_read_busy (fuel : nat) (from len : Z) (h : trace) :
  len <> 0 ->
  fst (snor_wait_ready T 1 h) <> 0 ->
  snor_read T c fuel from len h = (Some (-1), snd (snor_wait_ready T 1 h)).
Proof.
  intros Hlen W. unfold snor_read.
  destruct (Z.eqb_spec len 0) as [|_]; [contradiction|].
  step_bind r d E. cbn [fst snd] in W. rewrite (truthy_nonzero r W).
  cbn [ret fst snd]. rewrite app_nil_r. reflexivity.
Qed.

Lemma full_erase_chip_busy (h : trace) :
  fst (snor_wait_ready T 3 h) <> 0 ->
  full_erase_chip T h = (-1, snd (snor_wait_ready T 3 h)).
Proof.
  intros W. unfold full_erase_chip.
  step_bind r d E. cbn [fst snd] in W. rewrite (truthy_nonzero r W).
  cbn [ret fst snd]. rewrite app_nil_r. reflexivity.
Qed.

Lemma full_erase_busy (fuel : nat) (h : trace) :
  capacity c <> 0 ->
  fst (snor_wait_ready T 3 h) <> 0 ->
  snor_erase T c fuel 0 (capacity c) h = (Some (-1), snd (snor_wait_ready T 3 h)).
Proof.
  intros Hcap W. unfold snor_erase.
  destruct (Z.eqb_spec (capacity c) 0) as [|_]; [contradiction|].
  unfold capacity at 1. rewrite Z.eqb_refl. cbn [truthy Z.eqb negb andb].
  rewrite (bind_run _ _ _ _ _ (full_erase_chip_busy h W)).
  cbn [ret fst snd]. rewrite app_nil_r. reflexivity.
Qed.

Lemma sector_erase_busy (fuel : nat) (offs len : Z) (h : trace) :
  0 < len -> ~ (offs = 0 /\ len = capacity c) -> (0 < fuel)%nat ->
  let u := snd (snor_unprotect T h) in
  fst (snor_wait_ready T 950 (h ++ u)) <> 0 ->
  snor_erase T c fuel offs len h =
    (Some (-1), u ++ snd (snor_wait_ready T 950 (h ++ u))).
Proof.
  intros Hlen Hnot Hfuel u W.
  destruct (snor_erase_sector_path T c fuel offs len h ltac:(lia) Hnot)
    as [E1 E2].
  fold u in E1, E2.
  destruct fuel as [|fuel]; [lia|].
  assert (L : snor_erase_loop T c (S fuel) offs len (h ++ u) =
              (Return (-1), snd (snor_wait_ready T 950 (h ++ u)))).
  { cbn [snor_erase_loop].
    destruct (Z.gtb_spec len 0) as [_|]; [|lia].
    destruct (snor_erase_sector_spec T c offs (h ++ u)) as [Sp _].
    destruct (Sp W) as [F S].
    step_bind r d E. cbn [fst snd] in F, S. subst r d.
    cbn [truthy Z.eqb negb ret fst snd]. rewrite app_nil_r. reflexivity. }
  rewrite L in E1, E2. cbn [fst snd] in E1, E2.
  destruct (snor_erase T c (S fuel) offs len h) as [rv d].
  cbn [fst snd] in E1, E2. subst rv d. reflexivity.
Qed.

End Busy.

(** A device that stays busy is left alone.  When the ready-wait that
    opens an operation fails, snor_write, snor_read and the full-chip erase
    return -1 with nothing on the bus but the status reads of that wait.
    The sector path of snor_erase first runs unprotect (a status read and
    possibly a status write) and then returns -1 when the wait of its
    first sector fails.  In each case no erase, program or read command
    goes out. *)
Theorem busy_device_is_left_alone (T : transport) (c : chip_info)
    (fuel : nat) (h : trace) :
  (forall to len,
     len <> 0 -> ulong (to + len) <= capacity c ->
     fst (snor_wait_ready T 2 h) <> 0 ->
     snor_write T c fuel to len h =
       (Some (-1), snd (snor_wait_ready T 2 h)) /\
     verbs (snd (snor_write T c fuel to len h)) = []) /\
  (forall from len,
     len <> 0 -> fst (snor_wait_ready T 1 h) <> 0 ->
     snor_read T c fuel from len h =
       (Some (-1), snd (snor_wait_ready T 1 h)) /\
     verbs (snd (snor_read T c fuel from len h)) = []) /\
  (capacity c <> 0 -> fst (snor_wait_ready T 3 h) <> 0 ->
   snor_erase T c fuel 0 (capacity c) h =
     (Some (-1), snd (snor_wait_ready T 3 h)) /\
   verbs (snd (snor_erase T c fuel 0 (capacity c) h)) = []) /\
  (forall offs len,
     0 < len -> ~ (offs = 0 /\ len = capacity c) -> (0 < fuel)%nat ->
     let u := snd (snor_unprotect T h) in
     fst (snor_wait_ready T 950 (h ++ u)) <> 0 ->
     snor_erase T c fuel offs len h =
       (Some (-1), u ++ snd (snor_wait_ready T 950 (h ++ u))) /\
     verbs (snd (snor_erase T c fuel offs len h)) = []).
Proof.
  split; [|split; [|split]].
  - intros to len Hlen Hcap W.
    rewrite (snor_write_busy T c fuel to len h Hlen Hcap W).
    split; [reflexivity|]. apply verbs_wait_ready.
  - intros from len Hlen W.
    rewrite (snor_read_busy T c fuel from len h Hlen W).
    split; [reflexivity|]. apply verbs_wait_ready.
  - intros Hcap W.
    rewrite (full_erase_busy T c fuel h Hcap W).
    split; [reflexivity|]. apply verbs_wait_ready.
  - intros offs len Hlen Hnot Hfuel u W.
    rewrite (sector_erase_busy T c fuel offs len h Hlen Hnot Hfuel W).
    split; [reflexivity|]. cbn [snd].
    rewrite verbs_app by apply (snor_unprotect_quiet T h).
    unfold u. rewrite verbs_unprotect, verbs_wait_ready. reflexivity.
Qed.

(** ** Progress of a write that is cut short *)

Lemma written_congr (m : nat) : forall to to' len,
  to mod FLASH_PAGESIZE = to' mod FLASH_PAGESIZE ->
  written m to len = written m to' len.
Proof.
  induction m as [|m IH]; intros to to' len E; cbn [written]; [reflexivity|].
  cbv zeta. rewrite E. f_equal. apply IH.
  unfold FLASH_PAGESIZE in *.
  rewrite <- (Zplus_mod_idemp_l to), E, Zplus_mod_idemp_l. reflexivity.
Qed.

Lemma written_bounds (m : nat) : forall to len,
  0 <= len -> 0 <= written m to len <= len.
Proof.
  induction m as [|m IH]; intros to len Hl; cbn [written]; [lia|]. cbv zeta.
  unfold FLASH_PAGESIZE.
  pose proof (Z.mod_pos_bound to 256 ltac:(lia)) as Hb.
  specialize (IH (to + Z.min len (256 - to mod 256))
                 (len - Z.min len (256 - to mod 256)) ltac:(lia)).
  lia.
Qed.

Section Progress.
Variable T : transport.
Variable c : chip_info.

Lemma snor_write_loop_progress (m : nat) :
  forall (n : nat) (v : write_vars) (h : trace),
  accepts_first T h m ->
  0 < w_len v < 2 ^ 64 ->
  w_page_offset v = w_to v mod FLASH_PAGESIZE ->
  - 2 ^ 31 <= w_retlen v < 2 ^ 31 ->
  written m (w_to v) (w_len v) < w_len v ->
  2 <= Z.min (w_len v - written m (w_to v) (w_len v))
             (FLASH_PAGESIZE
              - (w_to v + written m (w_to v) (w_len v)) mod FLASH_PAGESIZE) ->
  (m < n)%nat ->
  fst (snor_write_loop T c n v h)
    = Return (int (w_retlen v + written m (w_to v) (w_len v))) /\
  length (page_programs (snd (snor_write_loop T c n v h))) = S m.
Proof.
  induction m as [|m IH]; intros n v h Acc Hl Hpo Hr Hw Hc Hn;
    (destruct n as [|n]; [lia|]);
    destruct (write_page_size_spec v ltac:(lia) Hpo) as (Eps & Hps & Hle);
    destruct (snor_write_loop_iteration T c n v h ltac:(lia))
      as (d & pre & Bd & Vd & Pd & Hpre & E);
    cbn zeta in E; rewrite E; clear E;
    set (ps := write_page_size v) in *.
  - cbn [written] in *. rewrite Z.add_0_r, Z.sub_0_r in *.
    assert (Rj : write_nbyte T (h ++ pre) (FromBuf (w_buf v)) ps <> 0).
    { intros Z0. apply Acc in Z0. lia. }
    unfold truthy.
    destruct (Z.eqb_spec (write_nbyte T (h ++ pre) (FromBuf (w_buf v)) ps) 0)
      as [|_]; [contradiction|].
    cbn [negb].
    assert (C : (1 >? 0) && (u32 1 <? ps) = true).
    { change (u32 1) with 1. destruct (Z.ltb_spec 1 ps); [reflexivity|lia]. }
    rewrite C. cbn [fst snd]. split.
    + f_equal. change (1 >? 0) with true. cbv iota.
      replace (int (w_retlen v + 1) - 1) with (int (w_retlen v + 1) + -1)
        by lia.
      rewrite int_add_l. f_equal. lia.
    + rewrite Pd. reflexivity.
  - cbn [written] in Hw, Hc |- *. cbv zeta in Hw, Hc |- *.
    rewrite <- Eps in Hw, Hc |- *.
    pose proof (written_bounds m (w_to v + ps) (w_len v - ps) ltac:(lia)) as W0.
    assert (Ac : write_nbyte T (h ++ pre) (FromBuf (w_buf v)) ps = 0).
    { apply Acc. rewrite Hpre. cbn. lia. }
    rewrite Ac. cbn [truthy Z.eqb negb].
    rewrite (int_idem ps) by lia.
    destruct (Z.gtb_spec ps 0) as [_|]; [|lia].
    assert (U : u32 ps = ps) by (unfold u32; apply Z.mod_small; lia).
    rewrite U, Z.ltb_irrefl. cbn [andb fst snd].
    set (v1 := write_next v (int (w_retlen v + ps))).
    assert (Hl1 : w_len v1 = w_len v - ps).
    { unfold v1, write_next. cbn [w_len]. fold ps. apply ulong_idem. lia. }
    assert (Ht1 : w_to v1 mod FLASH_PAGESIZE = (w_to v + ps) mod FLASH_PAGESIZE).
    { unfold v1, write_next. cbn [w_to]. fold ps. apply ulong_mod_page. }
    assert (Al : (w_to v + ps) mod FLASH_PAGESIZE = 0).
    { rewrite Eps.
      replace (Z.min (w_len v) (FLASH_PAGESIZE - w_to v mod FLASH_PAGESIZE))
        with (FLASH_PAGESIZE - w_to v mod FLASH_PAGESIZE) by lia.
      apply page_end_aligned. }
    assert (Wc : written m (w_to v1) (w_len v1)
                 = written m (w_to v + ps) (w_len v - ps)).
    { rewrite Hl1. apply written_congr. exact Ht1. }
    destruct (IH n v1 (h ++ d)) as [F L].
    + intros h' src k. rewrite <- app_assoc.
      split.
      * intros Z0. apply Acc in Z0. rewrite Pd in Z0. cbn [length] in Z0. lia.
      * intros Hlt. apply Acc. rewrite Pd. cbn [length]. lia.
    + rewrite Hl1. lia.
    + rewrite Ht1, Al. reflexivity.
    + apply int_range.
    + rewrite Wc, Hl1. lia.
    + rewrite Wc, Hl1.
      replace ((w_to v1 + written m (w_to v + ps) (w_len v - ps))
                 mod FLASH_PAGESIZE)
        with ((w_to v + (ps + written m (w_to v + ps) (w_len v - ps)))
                mod FLASH_PAGESIZE).
      * replace (w_len v - ps - written m (w_to v + ps) (w_len v - ps))
          with (w_len v - (ps + written m (w_to v + ps) (w_len v - ps)))
          by lia.
        exact Hc.
      * unfold FLASH_PAGESIZE in *.
        rewrite <- (Zplus_mod_idemp_l (w_to v1)), Ht1, Zplus_mod_idemp_l.
        f_equal. lia.
    + lia.
    + split.
      * rewrite F, Wc. f_equal.
        unfold v1 at 1. cbn [write_next w_retlen].
        rewrite int_add_l. f_equal. lia.
      * rewrite Pd. cbn [length]. rewrite L. reflexivity.
Qed.

(** snor_write up to its loop: the wait and the mode switch put no page
    program on the bus. *)
Lemma snor_write_enters (fuel : nat) (to len : Z) (h : trace) :
  len <> 0 -> ulong (to + len) <= capacity c ->
  fst (snor_wait_ready T 2 h) = 0 ->
  exists x, quiet x /\
    let l := snor_write_loop T c fuel
               (mk_write_vars to len (u32 (to mod FLASH_PAGESIZE)) 0 0)
               (h ++ x) in
    page_programs (snd (snor_write T c fuel to len h)) = page_programs (snd l) /\
    fst (snor_write T c fuel to len h) =
      match fst l with
      | Exit v => Some (w_retlen v)
      | Return rv => Some rv
      | Running _ => None
      end.
Proof.
  intros Hlen Hcap W. unfold snor_write.
  destruct (Z.eqb_spec len 0) as [|_]; [contradiction|].
  fold (capacity c).
  destruct (Z.gtb_spec (ulong (to + len)) (capacity c)) as [|_]; [lia|].
  pose proof (snor_wait_ready_quiet T 2 h) as Q0.
  step_bind r0 d0 E0. cbn [fst snd] in W, Q0. subst r0.
  cbn [truthy Z.eqb negb].
  match goal with |- context [bind (when ?b ?m) _ ?hh] =>
    pose proof (when_quiet b m hh (snor_4byte_mode_quiet T c 1)) as Q1 end.
  step_bind u1 q1 E1. cbn [snd] in Q1.
  exists (d0 ++ q1). split; [apply framed_app; assumption|].
  rewrite (app_assoc h d0 q1).
  match goal with |- context [bind (snor_write_loop T c fuel ?v) _ ?hh] =>
    pose proof (snor_write_loop_balanced T c fuel v hh) as Bl end.
  cbn zeta. step_bind o dl El.
  cbn [fst snd] in *.
  rewrite !page_programs_app by (try apply Q0; try apply Q1; assumption).
  rewrite (quiet_page_programs d0 Q0), (quiet_page_programs q1 Q1).
  cbn [app].
  destruct o as [v|rv|v].
  - match goal with |- context [bind (when ?b ?m) _ ?hh] =>
      pose proof (when_quiet b m hh (snor_4byte_mode_quiet T c 0)) as Q2 end.
    step_bind u2 q2 E2. cbn [snd] in Q2.
    rewrite (bind_run _ _ _ _ _ (snor_write_disable_run _ _)).
    cbn [fst snd ret]. rewrite app_nil_r.
    split; [|reflexivity].
    rewrite page_programs_app by apply Q2.
    rewrite (quiet_page_programs q2 Q2). cbn [app].
    rewrite app_nil_r. reflexivity.
  - cbn [ret fst snd]. rewrite app_nil_r. split; reflexivity.
  - cbn [ret fst snd]. rewrite app_nil_r. split; reflexivity.
Qed.

End Progress.

(** Progress of a write that is cut short.  When the device is ready, the
    request is in bounds, the transport accepts the first m chunks and
    refuses chunk m + 1, and that chunk is two bytes or more, snor_write
    stops after m + 1 page programs and returns the bytes of the m chunks
    that went through. *)
Theorem short_write_reports_progress (T : transport) (c : chip_info)
    (fuel m : nat) (to len : Z) (h : trace) :
  0 <= to < 2 ^ 64 -> 0 < len < 2 ^ 64 ->
  ulong (to + len) <= capacity c ->
  fst (snor_wait_ready T 2 h) = 0 ->
  accepts_first T h m ->
  written m to len < len ->
  2 <= Z.min (len - written m to len)
             (FLASH_PAGESIZE - (to + written m to len) mod FLASH_PAGESIZE) ->
  (m < fuel)%nat ->
  fst (snor_write T c fuel to len h) = Some (int (written m to len)) /\
  length (page_programs (snd (snor_write T c fuel to len h))) = S m.
Proof.
  intros Hto Hlen Hcap W Acc Hw Hc Hfuel.
  destruct (snor_write_enters T c fuel to len h ltac:(lia) Hcap W)
    as (x & Qx & P & F).
  cbn zeta in P, F. rewrite P, F.
  destruct (snor_write_loop_progress T c m fuel
              (mk_write_vars to len (u32 (to mod FLASH_PAGESIZE)) 0 0)
              (h ++ x)) as [Fl Ll];
    cbn [w_len w_to w_page_offset w_retlen]; try assumption; try lia.
  - intros h' src n. rewrite <- app_assoc. split.
    + intros Z0. apply Acc in Z0.
      rewrite page_programs_app, (quiet_page_programs x Qx) in Z0
        by apply Qx.
      exact Z0.
    + intros Hlt. apply Acc.
      rewrite page_programs_app, (quiet_page_programs x Qx) by apply Qx.
      exact Hlt.
  - unfold u32, FLASH_PAGESIZE. apply Z.mod_small.
    pose proof (Z.mod_pos_bound to 256 ltac:(lia)). lia.
  - rewrite Fl, Ll. cbn [w_retlen w_to w_len]. split; reflexivity.
Qed.

(** ** Requests within a part of the catalog *)

Lemma catalog_wire (c : chip_info) (addr : Z) :
  In c chips_data -> 0 <= addr < capacity c -> wire c addr = addr.
Proof.
  intros Hin Ha.
  destruct (catalog_row_geometry c Hin) as (Hs & Hn & Hc & H4).
  unfold wire. destruct (truthy (addr4b c)) eqn:E.
  - apply Z.mod_small. rewrite Hc, Hs in Ha. lia.
  - apply Z.mod_small.
    assert (~ 2 ^ 24 < sector_size c * n_sectors c).
    { intros H. apply H4 in H. discriminate. }
    lia.
Qed.

Lemma tiles_bounds (l : list (Z * Z * Z)) : forall start,
  tiles start l ->
  Forall (fun x => start <= snd (fst x) /\ snd (fst x) + snd x <= start + total l) l.
Proof.
  induction l as [|[[a o] n] l IH]; intros start Ht; [constructor|].
  cbn [tiles] in Ht. destruct Ht as (-> & Hn & Ht).
  specialize (IH _ Ht).
  assert (T0 : 0 <= total l).
  { clear - Ht. revert Ht. generalize (start + n).
    induction l as [|[[a o] m] l IHl]; intros s Ht; [cbn; lia|].
    cbn [tiles] in Ht. destruct Ht as (_ & Hm & Ht).
    specialize (IHl _ Ht). cbn [total fold_right snd] in *.
    fold (total l). fold (total l) in IHl. lia. }
  cbn [total fold_right snd fst]. fold (total l).
  constructor; [cbn [fst snd]; lia|].
  eapply Forall_impl; [|exact IH].
  intros x [H1 H2]. lia.
Qed.

Lemma page_split_tiles (c : chip_info) (l : list (Z * Z * Z)) :
  forall to rem off,
  page_split c to rem off l ->
  tiles off l /\
  Forall (fun x => fst (fst x) = wire c (to + (snd (fst x) - off))) l.
Proof.
  induction l as [|[[a o] n] l IH]; intros to rem off S;
    [split; [exact I|constructor]|].
  cbn [page_split] in S. destruct S as (-> & -> & _ & Hn & _ & S).
  destruct (IH _ _ _ S) as [Ht Hf].
  split; [cbn [tiles]; repeat split; assumption|].
  constructor.
  - cbn [fst snd]. f_equal. lia.
  - eapply Forall_impl; [|exact Hf].
    intros x Hx. rewrite Hx. f_equal. lia.
Qed.

Lemma sector_split_tiles (c : chip_info) (ss : Z) (l : list (Z * Z * Z)) :
  forall addr rem off,
  sector_split c ss addr rem off l ->
  tiles off l /\
  Forall (fun x => fst (fst x) = wire c (addr + (snd (fst x) - off))) l.
Proof.
  induction l as [|[[a o] n] l IH]; intros addr rem off S;
    [split; [exact I|constructor]|].
  cbn [sector_split] in S. destruct S as (-> & -> & _ & Hn & _ & S).
  destruct (IH _ _ _ S) as [Ht Hf].
  split; [cbn [tiles]; repeat split; assumption|].
  constructor.
  - cbn [fst snd]. f_equal. lia.
  - eapply Forall_impl; [|exact Hf].
    intros x Hx. rewrite Hx. f_equal. lia.
Qed.

Lemma tiles_positive (l : list (Z * Z * Z)) : forall start x,
  tiles start l -> In x l -> 0 < snd x.
Proof.
  induction l as [|[[a o] n] l IHl]; intros s x Ht Hx; [contradiction|].
  cbn [tiles] in Ht. destruct Ht as (_ & Hn & Ht).
  destruct Hx as [<-|Hx]; [exact Hn|exact (IHl _ _ Ht Hx)].
Qed.

(** Transfers that tile a request within the part are sent to the
    addresses they are meant for. *)
Lemma tiles_in_range (c : chip_info) (base len : Z) (l : list (Z * Z * Z)) :
  In c chips_data -> 0 <= base -> base + len <= capacity c ->
  tiles 0 l -> total l = len ->
  Forall (fun x => fst (fst x) = wire c (base + (snd (fst x) - 0))) l ->
  Forall (fun x => fst (fst x) = base + snd (fst x)) l.
Proof.
  intros Hin Hb Hcap Ht Htot Hf.
  pose proof (tiles_bounds l 0 Ht) as B. rewrite Htot in B.
  rewrite Forall_forall in *. intros x Hx.
  destruct (B x Hx) as [B1 B2].
  pose proof (tiles_positive l 0 x Ht Hx) as Hn.
  rewrite (Hf x Hx), Z.sub_0_r. apply catalog_wire; [exact Hin|lia].
Qed.

Section InRange.
Variable T : transport.
Variable c : chip_info.

Lemma snor_read_enters (fuel : nat) (from len : Z) (h : trace) :
  len <> 0 -> fst (snor_wait_ready T 1 h) = 0 ->
  exists x, quiet x /\
    let l := snor_read_loop T c fuel len (u32 from) (u32 len) (h ++ x) in
    reads (snd (snor_read T c fuel from len h)) = reads (snd l) /\
    fst (snor_read T c fuel from len h) =
      match fst l with
      | Exit _ => Some (int len)
      | Return rv => Some rv
      | Running _ => None
      end.
Proof.
  intros Hlen W. unfold snor_read.
  destruct (Z.eqb_spec len 0) as [|_]; [contradiction|].
  pose proof (snor_wait_ready_quiet T 1 h) as Q0.
  step_bind r0 d0 E0. cbn [fst snd] in W, Q0. subst r0.
  cbn [truthy Z.eqb negb].
  exists d0. split; [exact Q0|]. cbn zeta.
  step_bind o dl El. cbn [fst snd].
  replace (snd (match o with
                | Exit _ => ret (Some (int len))
                | Return rv => ret (Some rv)
                | Running _ => ret None
                end ((h ++ d0) ++ dl))) with (@nil event)
    by (destruct o; reflexivity).
  rewrite app_nil_r, reads_app, (quiet_reads d0 Q0) by apply Q0.
  split; [reflexivity|]. destruct o; reflexivity.
Qed.

End InRange.

(** A write within a part of the catalog.  On any row of the catalog, when
    the device is ready and the transport accepts the data, a write of
    len > 0 bytes that ends within the capacity returns len; its page
    programs take the caller's buffer in order, without gap or overlap,
    and the chunk at buffer offset o is programmed at address to + o. *)
Theorem catalog_write_in_range (T : transport) (c : chip_info) (fuel : nat)
    (to len : Z) (h : trace) :
  In c chips_data ->
  fst (snor_wait_ready T 2 h) = 0 -> accepting T ->
  0 <= to -> 0 < len -> to + len <= capacity c -> len < Z.of_nat fuel ->
  let r := snor_write T c fuel to len h in
  fst r = Some len /\
  tiles 0 (page_programs (snd r)) /\
  total (page_programs (snd r)) = len /\
  Forall (fun x => fst (fst x) = to + snd (fst x)) (page_programs (snd r)).
Proof.
  intros Hin W Acc Hto Hlen Hcap Hfuel. cbn zeta.
  destruct (catalog_row_geometry c Hin) as (Hs & Hn & Hc & _).
  assert (Hc26 : capacity c <= 2 ^ 26) by (rewrite Hc, Hs; lia).
  assert (Hu : ulong (to + len) <= capacity c)
    by (rewrite ulong_idem; lia).
  destruct (snor_write_enters T c fuel to len h ltac:(lia) Hu W)
    as (x & Qx & P & F).
  cbn zeta in P, F. rewrite P, F.
  set (v := mk_write_vars to len (u32 (to mod FLASH_PAGESIZE)) 0 0) in *.
  assert (Hpo : 0 < w_len v -> w_page_offset v = w_to v mod FLASH_PAGESIZE).
  { intros _. cbn. unfold u32, FLASH_PAGESIZE. apply Z.mod_small.
    pose proof (Z.mod_pos_bound to 256 ltac:(lia)). lia. }
  pose proof (snor_write_loop_split T c fuel v (h ++ x)
                ltac:(cbn; lia) Hpo) as S.
  destruct (snor_write_loop_complete T c fuel Acc v (h ++ x)
              ltac:(cbn; lia) Hpo ltac:(cbn; lia) ltac:(cbn; lia))
    as (v' & Fl & Rl & Tl).
  cbn [w_to w_len w_buf w_retlen v] in S, Rl, Tl.
  destruct (page_split_tiles c _ _ _ _ S) as [Ht Hf].
  rewrite Fl, Rl. rewrite Z.add_0_l, int_idem by lia.
  split; [reflexivity|]. split; [exact Ht|]. split; [exact Tl|].
  exact (tiles_in_range c to len _ Hin Hto Hcap Ht Tl Hf).
Qed.

(** A read within a part of the catalog.  On any row of the catalog, when
    the device is ready and the transport delivers the data, a read of
    len > 0 bytes that ends within the capacity returns len; its read
    transactions fill the caller's buffer in order, without gap or overlap,
    and the one for buffer offset o reads from address from + o. *)
Theorem catalog_read_in_range (T : transport) (c : chip_info) (fuel : nat)
    (from len : Z) (h : trace) :
  In c chips_data ->
  fst (snor_wait_ready T 1 h) = 0 -> delivering T ->
  0 <= from -> 0 < len -> from + len <= capacity c -> len < Z.of_nat fuel ->
  let r := snor_read T c fuel from len h in
  fst r = Some len /\
  tiles 0 (reads (snd r)) /\
  total (reads (snd r)) = len /\
  Forall (fun x => fst (fst x) = from + snd (fst x)) (reads (snd r)).
Proof.
  intros Hin W Del Hfrom Hlen Hcap Hfuel. cbn zeta.
  destruct (catalog_row_geometry c Hin) as (Hs & Hn & Hc & _).
  assert (Hc26 : capacity c <= 2 ^ 26) by (rewrite Hc, Hs; lia).
  assert (Hss : 0 < sector_size c < 2 ^ 64) by (rewrite Hs; lia).
  destruct (snor_read_enters T c fuel from len h ltac:(lia) W)
    as (x & Qx & P & F).
  cbn zeta in P, F. rewrite P, F.
  assert (Uf : u32 from = from) by (unfold u32; apply Z.mod_small; lia).
  assert (Ul : u32 len = len) by (unfold u32; apply Z.mod_small; lia).
  rewrite Uf, Ul.
  pose proof (snor_read_loop_split T c fuel len from len (h ++ x) Hss Hfrom
                ltac:(lia) ltac:(lia) ltac:(lia)) as S.
  rewrite Z.sub_diag in S.
  destruct (snor_read_loop_complete T c fuel Del len from len (h ++ x) Hss
              Hfrom ltac:(lia) ltac:(lia) ltac:(lia) Hfuel) as [[s Fl] Tl].
  destruct (sector_split_tiles c _ _ _ _ _ S) as [Ht Hf].
  rewrite Fl, int_idem by lia.
  split; [reflexivity|]. split; [exact Ht|]. split; [exact Tl|].
  exact (tiles_in_range c from len _ Hin Hfrom Hcap Ht Tl Hf).
Qed.

(** An erase within a part of the catalog.  On any row of the catalog and
    a device that becomes ready when asked, erasing n >= 1 sectors' worth
    of bytes from offs, ending within the capacity (and not the whole
    part, which takes the bulk erase), returns 0 after exactly n sector
    erases, sent to offs, offs + 64 KiB, ..., each within the part. *)
Theorem catalog_erase_in_range (T : transport) (c : chip_info) (fuel n : nat)
    (offs : Z) (h : trace) :
  In c chips_data -> responsive T ->
  0 <= offs -> (0 < n)%nat -> offs + Z.of_nat n * 65536 <= capacity c ->
  ~ (offs = 0 /\ Z.of_nat n * 65536 = capacity c) ->
  (n < fuel)%nat ->
  let r := snor_erase T c fuel offs (Z.of_nat n * 65536) h in
  fst r = Some 0 /\
  sector_erases (snd r) = map (fun i => offs + Z.of_nat i * 65536) (seq 0 n).
Proof.
  intros Hin R Ho Hn Hcap Hnot Hfuel. cbn zeta.
  destruct (catalog_row_geometry c Hin) as (Hs & Hns & Hc & _).
  assert (Hc26 : capacity c <= 2 ^ 26) by (rewrite Hc, Hs; lia).
  rewrite <- Hs in *.
  assert (H0 : Z.of_nat n * sector_size c <> 0).
  { apply Z.neq_mul_0. lia. }
  destruct (snor_erase_sector_path T c fuel offs _ h H0 Hnot) as [E1 _].
  pose proof (snor_erase_sector_path_erases T c fuel offs _ h H0 Hnot) as E2.
  destruct (snor_erase_loop_aligned T c n R ltac:(lia) fuel offs
              (h ++ snd (snor_unprotect T h)) ltac:(lia) ltac:(lia) Hfuel)
    as [[s Es] Er].
  rewrite E1, E2, Es, Er. split; [reflexivity|].
  apply map_ext_in. intros i Hi. apply in_seq in Hi.
  apply catalog_wire; [exact Hin|]. nia.
Qed.

(** ** The properties at concrete inputs *)

Lemma T_idle_responsive : responsive T_idle.
Proof.
  intros h. exists 0%nat. split; [lia|].
  split; [unfold poll_ok; cbn; lia|]. split; [reflexivity|].
  intros j Hj. lia.
Qed.

Lemma T_idle_accepting : accepting T_idle.
Proof. intros h src len. reflexivity. Qed.

Lemma T_idle_delivering : delivering T_idle.
Proof. intros h off len. reflexivity. Qed.

Example catalog_rows :
  nth_error chips_data 357 = Some W25Q128BV /\
  nth_error chips_data 356 = Some W25Q64BV /\
  nth_error chips_data 358 = Some W25Q256FV.
Proof. repeat split. Qed.

(** A Winbond W25Q128 answers EF 40 18 00 00 and is found with 256 sectors
    of 64 KiB and 3-byte addresses. *)
Lemma chip_identification_witness :
  exists i row,
    fst (chip_prob (T_id [0xEF; 0x40; 0x18; 0; 0]) []) = Some i /\
    nth_error chips_data i = Some row /\
    sector_size row = 65536 /\ n_sectors row = 256 /\ addr4b row = 0.
Proof.
  destruct (chip_identification (T_id [0xEF; 0x40; 0x18; 0; 0]) []
              0xEF 0x40 0x18 0 0) as (_ & _ & _ & S);
    try lia; try reflexivity.
  apply S; reflexivity.
Defined.

(** Writing 20 bytes at 250 takes two page programs. *)
Lemma write_chunking_witness :
  page_programs (snd (snor_write T_idle W25Q128BV 21 250 20 []))
    = [(250, 0, 6); (256, 6, 14)].
Proof.
  destruct (write_chunking T_idle W25Q128BV 21 250 20 []) as (_ & _ & _ & S);
    try lia.
  apply S; try reflexivity; try lia.
  - exact T_idle_accepting.
  - vm_compute. discriminate.
Defined.

(** Erasing the whole W25Q128 takes one bulk erase and no sector erase. *)
Lemma full_chip_erase_witness :
  count_occ Z.eq_dec
    (opcodes (snd (snor_erase T_idle W25Q128BV 0 0 (capacity W25Q128BV) [])))
    OPCODE_BE1 = 1%nat /\
  count_occ Z.eq_dec
    (opcodes (snd (snor_erase T_idle W25Q128BV 0 0 (capacity W25Q128BV) [])))
    OPCODE_SE = 0%nat.
Proof.
  destruct (full_chip_erase_short_circuit T_idle W25Q128BV 0 []) as [S _].
  - vm_compute. discriminate.
  - destruct S as (_ & _ & B & E); [reflexivity|]. split; assumption.
Defined.

(** Erasing 65537 bytes from 0: the second subtraction underflows and a
    third sector, outside the request, is erased. *)
Lemma erase_fixed_stride_witness :
  fst (snor_erase_loop T_idle W25Q128BV 3 0 65537 [])
    = Running (196608, 2 ^ 64 - 131071) /\
  sector_erases (snd (snor_erase_loop T_idle W25Q128BV 3 0 65537 []))
    = [0; 65536; 131072].
Proof.
  destruct (erase_fixed_stride T_idle W25Q128BV 0 65537 [] T_idle_responsive)
    as [_ S]; try (cbn; lia).
  destruct S as (_ & _ & R & E & _).
  - vm_compute. discriminate.
  - split; [exact R|exact E].
Defined.

(** Reading 10 bytes at 65530 is cut at the sector end 65536. *)
Lemma read_chunking_witness :
  sector_split W25Q128BV 65536 65530 10 0
    (reads (snd (snor_read T_idle W25Q128BV 11 65530 10 []))) /\
  fst (snor_read T_idle W25Q128BV 11 65530 10 []) = Some 10 /\
  reads (snd (snor_read T_idle W25Q128BV 11 65530 10 []))
    = [(65530, 0, 6); (65536, 6, 4)].
Proof.
  destruct (read_chunking T_idle W25Q128BV 11 65530 10 []) as [S C];
    try (cbn; lia).
  destruct C as [F _]; [reflexivity|exact T_idle_delivering|lia|].
  split; [exact S|]. split; [exact F|reflexivity].
Defined.

(** A write that ends past the end of the W25Q128 is refused. *)
Lemma zero_length_and_bounds_witness :
  snor_write T_idle W25Q128BV 0 16777000 1000 [] = (Some (-1), []).
Proof.
  apply (proj2 (proj2 (proj2
           (zero_length_and_bounds T_idle W25Q128BV 0 [])))); try lia.
  vm_compute. reflexivity.
Defined.

(** Erasing the first sector past the end of the 8 MiB W25Q64 is not
    refused: the sector erase goes out. *)
Lemma erase_has_no_bounds_check_witness :
  capacity W25Q64BV = 8388608 /\
  sector_erases (snd (snor_erase T_idle W25Q64BV 1 8388608 65536 []))
    = [8388608].
Proof.
  split; [reflexivity|].
  destruct (erase_has_no_bounds_check T_idle W25Q64BV 1 8388608 65536 [])
    as [_ S]; try lia.
  destruct (S T_idle_responsive) as [_ E]. apply E; cbn; lia.
Defined.

(** The two Micron names of one 64 Mbit part. *)
Lemma catalog_aliases_witness :
  exists r1 r2,
    nth_error chips_data 110 = Some r1 /\ nth_error chips_data 111 = Some r2 /\
    sector_size r1 = sector_size r2 /\ n_sectors r1 = n_sectors r2 /\
    addr4b r1 = addr4b r2 /\
    vcc_min r1 = vcc_min r2 /\ vcc_max r1 = vcc_max r2.
Proof.
  do 2 eexists. split; [reflexivity|]. split; [reflexivity|].
  apply (proj2 catalog_aliases); cbn.
  - do 110 right. left. reflexivity.
  - do 111 right. left. reflexivity.
  - reflexivity.
  - reflexivity.
  - discriminate.
Defined.

(** Every status read fails with code 1: the wait reports the device
    ready after the first. *)
Lemma wait_ready_passes_failed_read_witness :
  fst (fst (snor_read_sr T_status_fails 0 [])) = 1 /\
  snor_wait_ready T_status_fails 950 [] = (0, read_sr_events).
Proof.
  split; [reflexivity|].
  exact (proj1 (wait_ready_passes_failed_read T_status_fails 950 []
                  ltac:(lia) ltac:(cbn; lia) eq_refl)).
Defined.

(** An idle device is ready at the first poll; a busy one times out. *)
Lemma wait_ready_outcome_witness :
  fst (snor_wait_ready T_idle 950 []) = 0 /\
  fst (snor_wait_ready T_busy 0 []) = -1.
Proof.
  split.
  - apply (proj1 (wait_ready_outcome T_idle 950 [] ltac:(lia))).
    exists 0%nat. split; [cbn; lia|].
    split; [unfold poll_ok; cbn; lia|]. split; [reflexivity|].
    intros j Hj. lia.
  - apply (proj1 (proj2 (proj2 (wait_ready_outcome T_busy 0 [] ltac:(lia))))).
    intros k _ Hc. revert Hc. unfold poll_clear.
    generalize (@nil event) at 1. generalize 0 at 1.
    induction k as [|k IH]; intros sr h; cbn [poll].
    + cbn. discriminate.
    + apply IH.
Defined.

(** The transport refuses the first chunk of six bytes: one page program,
    0 bytes reported. *)
Lemma short_write_aborts_witness :
  fst (snor_write T_write_fails W25Q128BV 1 250 20 []) = Some 0 /\
  page_programs (snd (snor_write T_write_fails W25Q128BV 1 250 20 []))
    = [(250, 0, 6)].
Proof.
  apply (short_write_aborts T_write_fails W25Q128BV 1 250 20 []);
    try lia; try reflexivity.
  - vm_compute. discriminate.
  - intros h' src n. cbn. discriminate.
  - vm_compute. discriminate.
Defined.

(** A device whose status reads succeed and show no busy bit is ready at
    the first poll. *)
Lemma responsive_of_status (T : transport) (b : Z) :
  Z.land (u8 b) SR_BUSY = 0 ->
  (forall h, read_nbyte T h ToLocal 1 = (0, [b])) ->
  responsive T.
Proof.
  intros Hb Hr h. exists 0%nat. split; [lia|].
  unfold ready_at, poll_ok, poll_clear, poll, sr_answer.
  rewrite Hr. cbn [fst snd stored].
  split; [lia|]. split; [exact Hb|]. intros j Hj; lia.
Qed.

Lemma T_write_fails_responsive : responsive T_write_fails.
Proof. apply (responsive_of_status _ 0); reflexivity. Qed.

Lemma T_read_fails_responsive : responsive T_read_fails.
Proof. apply (responsive_of_status _ 0); reflexivity. Qed.

Lemma T_idle_byte_accepting : byte_accepting T_idle.
Proof. intros h b. reflexivity. Qed.

Lemma T_write_fails_byte_accepting : byte_accepting T_write_fails.
Proof. intros h b. reflexivity. Qed.

Lemma T_busy_poll (k : nat) : forall (h : trace) (sr : Z),
  poll T_busy h sr k = (0, 1).
Proof.
  induction k as [|k IH]; intros h sr; cbn [poll]; [reflexivity|apply IH].
Qed.

(** A protected device gets its status register cleared; an unprotected one
    is only read. *)
Lemma unprotect_clears_block_protect_witness :
  snd (snor_unprotect T_protected []) = read_sr_events ++ write_sr_events 0 /\
  snd (snor_unprotect T_idle []) = read_sr_events.
Proof.
  split.
  - destruct (unprotect_clears_block_protect T_protected []) as [_ H].
    destruct (H ltac:(cbn; lia)) as [_ E]. rewrite E. reflexivity.
  - destruct (unprotect_clears_block_protect T_idle []) as [_ H].
    destruct (H ltac:(cbn; lia)) as [_ E]. rewrite E. reflexivity.
Defined.

(** Leaving 4-byte mode on a Winbond W25Q256: E9, write enable, and 0 to
    register C5. *)
Lemma addressing_mode_switch_witness :
  snor_4byte_mode T_idle W25Q256FV 0 [] =
    (0, read_sr_events ++
        [Chip_Select_Low; Write_One_Byte 0xe9; Chip_Select_High;
         Chip_Select_Low; Write_One_Byte OPCODE_WREN; Chip_Select_High;
         Chip_Select_Low; Write_One_Byte 0xc5; Write_NByte (FromLocal 0) 1;
         Chip_Select_High]).
Proof.
  destruct (addressing_mode_switch T_idle W25Q256FV 0 []
              ltac:(cbn; lia)) as [_ H].
  destruct (H ltac:(reflexivity)) as [F S].
  destruct (snor_4byte_mode T_idle W25Q256FV 0 []) as [rv d].
  cbn [fst snd] in F, S. subst rv d. reflexivity.
Defined.

(** A Spansion S25FL256S that reads back 0: the exit (0 written) succeeds,
    the enter (0x81 written) is reported as failed. *)
Lemma bank_register_switch_witness :
  fst (snor_4byte_mode T_idle S25FL256S 0 []) = 0 /\
  fst (snor_4byte_mode T_idle S25FL256S 1 []) = -1.
Proof.
  split.
  - exact (proj1 (bank_register_switch T_idle S25FL256S 0 [] 0 []
                     eq_refl eq_refl eq_refl)).
  - exact (proj1 (bank_register_switch T_idle S25FL256S 1 [] 0 []
                     eq_refl eq_refl eq_refl)).
Defined.

(** A wait with sleep_ms = 0 on a device that stays busy: 1000 polls, half
    a second of sleep. *)
Lemma wait_ready_time_witness :
  fst (snor_wait_ready T_busy 0 []) = -1 /\
  slept (snd (snor_wait_ready T_busy 0 [])) = 500000.
Proof.
  destruct (wait_ready_time T_busy 0 [] ltac:(lia) ltac:(lia)) as [_ H].
  destruct H as (F & S & _).
  - intros k _. unfold poll_ok, poll_clear. rewrite T_busy_poll.
    split; [cbn; lia|]. cbn. discriminate.
  - split; [exact F|]. rewrite S. reflexivity.
Defined.

(** Erasing two sectors of a W25Q256: each erase is bracketed by B7 and
    E9 (with the Winbond write to C5). *)
Lemma sector_erase_protocol_witness :
  verbs (snd (snor_erase T_idle W25Q256FV 3 0 131072 [])) =
    [0xb7; OPCODE_WREN; OPCODE_SE; 0xe9; OPCODE_WREN; 0xc5;
     0xb7; OPCODE_WREN; OPCODE_SE; 0xe9; OPCODE_WREN; 0xc5].
Proof.
  rewrite (sector_erase_protocol T_idle W25Q256FV 3 0 131072 []
             T_idle_responsive T_idle_byte_accepting
             ltac:(lia) ltac:(intros [_ E]; discriminate E)).
  vm_compute. reflexivity.
Defined.

(** Reading across a sector boundary of a W25Q256. *)
Lemma read_mode_bracket_witness :
  verbs (snd (snor_read T_idle W25Q256FV 11 65530 10 [])) =
    [0xb7; OPCODE_READ; 0xe9; OPCODE_WREN; 0xc5;
     0xb7; OPCODE_READ; 0xe9; OPCODE_WREN; 0xc5].
Proof.
  rewrite (read_mode_bracket T_idle W25Q256FV 11 65530 10 []
             T_idle_responsive T_idle_byte_accepting).
  vm_compute. reflexivity.
Defined.

(** Writing 20 bytes at 250 to a W25Q256. *)
Lemma write_protocol_witness :
  verbs (snd (snor_write T_idle W25Q256FV 21 250 20 [])) =
    [0xb7; OPCODE_WREN; OPCODE_PP; OPCODE_WREN; OPCODE_PP;
     0xe9; OPCODE_WREN; 0xc5; OPCODE_WRDI].
Proof.
  rewrite (write_protocol T_idle W25Q256FV 21 250 20 []
             T_idle_responsive T_idle_byte_accepting T_idle_accepting
             ltac:(lia) ltac:(lia) ltac:(vm_compute; discriminate)
             ltac:(lia)).
  vm_compute. reflexivity.
Defined.

(** A refused write to a W25Q256: B7 went out, E9 did not. *)
Lemma short_write_skips_mode_exit_witness :
  verbs (snd (snor_write T_write_fails W25Q256FV 1 250 20 [])) =
    [0xb7; OPCODE_WREN; OPCODE_PP; OPCODE_WRDI].
Proof.
  destruct (short_write_skips_mode_exit T_write_fails W25Q256FV 1 250 20 []
              T_write_fails_responsive T_write_fails_byte_accepting
              ltac:(lia) ltac:(lia) ltac:(vm_compute; discriminate)
              ltac:(intros h' src n; discriminate)
              ltac:(vm_compute; discriminate) ltac:(lia)) as [E _].
  rewrite E. reflexivity.
Defined.

(** The first block read fails: one read transaction, -1. *)
Lemma read_failure_aborts_witness :
  fst (snor_read T_read_fails W25Q128BV 1 65530 10 []) = Some (-1) /\
  reads (snd (snor_read T_read_fails W25Q128BV 1 65530 10 []))
    = [(65530, 0, 6)].
Proof.
  destruct (read_failure_aborts T_read_fails W25Q128BV 1 65530 10 [])
    as [F R]; try (cbn; lia); try reflexivity.
  split; [exact F|]. rewrite R. reflexivity.
Defined.

(** A write to a device that stays busy. *)
Lemma busy_device_is_left_alone_witness :
  fst (snor_write T_busy W25Q128BV 1 0 1 []) = Some (-1) /\
  verbs (snd (snor_write T_busy W25Q128BV 1 0 1 [])) = [].
Proof.
  destruct (busy_device_is_left_alone T_busy W25Q128BV 1 []) as [H _].
  destruct (H 0 1 ltac:(lia) ltac:(vm_compute; discriminate)
              ltac:(vm_compute; discriminate)) as [E V].
  split; [rewrite E; reflexivity|exact V].
Defined.

(** The W25Q128BV is detected as itself. *)
Lemma catalog_parts_detected_witness :
  detected_as W25Q128BV = Some W25Q128BV.
Proof.
  assert (Hin : In W25Q128BV chips_data)
    by (apply (nth_error_In chips_data 357); reflexivity).
  destruct (catalog_parts_detected W25Q128BV Hin) as (row & E & _).
  rewrite E. vm_compute in E. exact (eq_sym E).
Defined.

Lemma identification_by_family_witness :
  fst (chip_prob (T_id [0xEF; 0x40; 0x18; 0; 0]) []) =
  fst (chip_prob (T_id [0xEF; 0x40; 0x18; 0x12; 0x34]) []).
Proof.
  apply (identification_by_family _ _ [] [] 0xEF 0x40 0x18 0 0 0x12 0x34);
    solve [lia | reflexivity].
Defined.

Lemma rows_never_identified_witness :
  shadowed 357 = false /\
  fst (chip_prob (T_id (id_bytes W25Q128BV)) []) = Some 357%nat.
Proof.
  destruct rows_never_identified as (_ & H & _).
  split; [vm_compute; reflexivity|].
  apply H; vm_compute; reflexivity.
Defined.

Lemma catalog_addresses_reach_witness :
  capacity W25Q256FV = 33554432 /\ wire W25Q256FV 33554431 = 33554431.
Proof.
  assert (Hin : In W25Q256FV chips_data)
    by (apply (nth_error_In chips_data 358); reflexivity).
  destruct (catalog_addresses_reach W25Q256FV Hin) as (_ & _ & Hc & _ & Hw).
  split; [rewrite Hc; reflexivity|].
  apply Hw. rewrite Hc. cbn. lia.
Defined.

Lemma snor_init_result_witness :
  fst (snor_init (T_id [0xEF; 0x40; 0x18; 0; 0]) []) = (16777216, Some W25Q128BV) /\
  fst (snor_init (T_id [0; 0; 0; 0; 0]) []) = (-1, None).
Proof.
  split.
  - destruct (snor_init_result (T_id [0xEF; 0x40; 0x18; 0; 0]) [])
      as (_ & _ & H).
    destruct (H 357%nat ltac:(vm_compute; reflexivity)) as (c & Hc & E & _).
    vm_compute in Hc. injection Hc as <-. rewrite E. reflexivity.
  - destruct (snor_init_result (T_id [0; 0; 0; 0; 0]) []) as (_ & H & _).
    apply H. vm_compute. reflexivity.
Defined.

Lemma erase_whole_sectors_witness :
  fst (snor_erase T_idle W25Q128BV 3 65536 (Z.of_nat 2 * sector_size W25Q128BV) [])
    = Some 0 /\
  sector_erases
    (snd (snor_erase T_idle W25Q128BV 3 65536
            (Z.of_nat 2 * sector_size W25Q128BV) []))
    = [65536; 131072].
Proof.
  destruct (erase_whole_sectors T_idle W25Q128BV 3 2 65536 [])
    as [E1 E2]; try (cbn; lia).
  - apply T_idle_responsive.
  - split; [exact E1|]. rewrite E2. reflexivity.
Defined.

Lemma erase_partial_sector_never_ends_witness :
  fst (snor_erase T_idle W25Q128BV 4 0 1 []) = None /\
  sector_erases (snd (snor_erase T_idle W25Q128BV 4 0 1 []))
    = [0; 65536; 131072; 196608].
Proof.
  destruct (erase_partial_sector_never_ends T_idle W25Q128BV 0 1 []
              T_idle_responsive ltac:(cbn; lia)
              ltac:(exists (2 ^ 48); reflexivity) ltac:(lia) ltac:(lia)
              ltac:(cbn; lia) 4%nat) as [E1 E2].
  split; [exact E1|]. rewrite E2. reflexivity.
Defined.

Lemma short_write_reports_progress_witness :
  fst (snor_write T_second_fails W25Q128BV 3 250 600 []) = Some 6 /\
  length (page_programs (snd (snor_write T_second_fails W25Q128BV 3 250 600 [])))
    = 2%nat.
Proof.
  apply (short_write_reports_progress T_second_fails W25Q128BV 3 1 250 600 []);
    try (cbn; lia); try reflexivity; try (vm_compute; discriminate).
  intros h' src n. cbn [app T_second_fails write_nbyte].
  destruct (Nat.ltb_spec (length (page_programs h')) 1); split;
    intros; solve [reflexivity | assumption | discriminate | lia].
Defined.

Lemma W25Q128BV_listed : In W25Q128BV chips_data.
Proof. apply (nth_error_In chips_data 357); reflexivity. Qed.

(** Writing 20 bytes at 250 to a W25Q128. *)
Lemma catalog_write_in_range_witness :
  fst (snor_write T_idle W25Q128BV 21 250 20 []) = Some 20 /\
  page_programs (snd (snor_write T_idle W25Q128BV 21 250 20 [])) =
    [(250, 0, 6); (256, 6, 14)].
Proof.
  destruct (catalog_write_in_range T_idle W25Q128BV 21 250 20 []
              W25Q128BV_listed) as (R & _);
    try apply T_idle_accepting; try (vm_compute; congruence).
  split; [exact R|vm_compute; reflexivity].
Defined.

(** Reading 10 bytes across the first sector boundary of a W25Q128. *)
Lemma catalog_read_in_range_witness :
  fst (snor_read T_idle W25Q128BV 11 65530 10 []) = Some 10 /\
  reads (snd (snor_read T_idle W25Q128BV 11 65530 10 [])) =
    [(65530, 0, 6); (65536, 6, 4)].
Proof.
  destruct (catalog_read_in_range T_idle W25Q128BV 11 65530 10 []
              W25Q128BV_listed) as (R & _);
    try apply T_idle_delivering; try (vm_compute; congruence).
  split; [exact R|vm_compute; reflexivity].
Defined.

(** Erasing the last two sectors of a W25Q128. *)
Lemma catalog_erase_in_range_witness :
  fst (snor_erase T_idle W25Q128BV 3 16646144 (Z.of_nat 2 * 65536) []) = Some 0 /\
  sector_erases
    (snd (snor_erase T_idle W25Q128BV 3 16646144 (Z.of_nat 2 * 65536) [])) =
    [16646144; 16711680].
Proof.
  destruct (catalog_erase_in_range T_idle W25Q128BV 3 2 16646144 []
              W25Q128BV_listed T_idle_responsive) as [E1 E2];
    try (vm_compute; congruence); try lia.
  split; [exact E1|]. rewrite E2. reflexivity.
Defined.
